(** * Geofence evaluation and location analytics: a shallow embedding

    The embedding follows [src/lib/geofence.ts] (class [GeofenceService]),
    [src/app/api/location/route.ts] (the handlers of the location API and
    the login), the browser-side [LocationService] and the interfaces of
    [src/types/geofence.ts] and [src/types/location.ts].

    Modelling conventions.
    - A JavaScript [number] is an exact rational ([Q]); rounding of IEEE
      doubles and the values NaN and Infinity are not represented. A
      timestamp is the string the source carries; [Date_getTime] gives its
      instant, and a string that is no date (instant NaN) is not
      represented.
    - Where a figure depends on how doubles round, the statistics of
      [PATCH], the computation is embedded a second time over any
      implementation of the numbers ([Numeric.Numbers]); the rationals are
      one instance, the binary64 numbers of IEEE 754 ([Binary64]) another.
    - The transcendental part of [Math], the parser behind [new Date(s)]
      and [Number.prototype.toFixed] are the fields of the class
      [JSRuntime]; every definition is generic in it.
    - The wall clock read by [new Date()] and the identifiers drawn by
      [generateEventId] are explicit arguments.
    - [Map<string, GeofenceStatus>] is a [gmap string GeofenceStatus]; the
      status object taken out of the map is shared with the map, which
      shows when an evaluation is interrupted by an exception. *)

From Stdlib Require Import ZArith QArith Qround Qabs String Ascii List Sorted Lia Lqa.
From stdpp Require Import base option list gmap strings pretty fin_maps.
From Stdlib Require Import Permutation.
From Stdlib Require Import PrimFloat.

Local Open Scope Z_scope.
Local Open Scope string_scope.
Local Open Scope list_scope.

(** ** The JavaScript runtime *)

Class JSRuntime := {
  Math_PI : Q;
  Math_sin : Q -> Q;
  Math_cos : Q -> Q;
  Math_sqrt : Q -> Q;
  Math_atan2 : Q -> Q -> Q;
  (** [new Date(s).getTime()], in milliseconds since the epoch *)
  Date_getTime : string -> Z;
  (** [x.toFixed(4)] *)
  Number_toFixed4 : Q -> string
}.

(** [Math.floor] and [Math.round] (ties go up). *)
Definition Math_floor (x : Q) : Z := Qfloor x.
Definition Math_round (x : Q) : Z := Qfloor (x + (1 # 2)).

(** The reading of the wall clock that [isWithinWorkingHours] uses. *)
Inductive Weekday := Sun | Mon | Tue | Wed | Thu | Fri | Sat.

Record Date := {
  getDay : Weekday;
  getHours : nat;
  getMinutes : nat
}.

(** [toLocaleDateString('en-US', { weekday: 'short' }).toLowerCase()] *)
Definition weekdayShort (d : Date) : string :=
  match getDay d with
  | Sun => "sun" | Mon => "mon" | Tue => "tue" | Wed => "wed"
  | Thu => "thu" | Fri => "fri" | Sat => "sat"
  end.

Definition digit (n : nat) : ascii := ascii_of_nat (48 + n mod 10).

Definition pad2 (n : nat) : string :=
  String (digit (n / 10)) (String (digit n) EmptyString).

(** [toTimeString().substring(0, 5)] *)
Definition timeHHMM (d : Date) : string :=
  pad2 (getHours d) +:+ ":" +:+ pad2 (getMinutes d).

(** What a function body produces: a value, or a thrown exception. *)
Inductive Completion (A : Type) :=
| Normal (a : A)
| Throw (e : string).
Arguments Normal {A} a.
Arguments Throw {A} e.

(** ** Data model ([src/types]) *)

Inductive GeofenceType := WORKPLACE | CLIENT_SITE | RESTRICTED | CUSTOM.

(** [shape.type]; [ShapeOther] stands for any other string, which
    [isLocationInsideGeofence] answers with [false]. *)
Inductive ShapeType := circle | polygon | ShapeOther.

Record Point := { pt_latitude : Q; pt_longitude : Q }.

Record GeofenceCoordinates := {
  center : option Point;
  points : option (list Point)
}.

Record DaySchedule := {
  ds_start : string;
  ds_end : string;
  ds_active : bool
}.

Record GeofenceWorkingHours := {
  wh_enabled : bool;
  wh_schedule : gmap string DaySchedule
}.

(** The fields of [Geofence] that the service reads; description,
    notifications, creation data, colour and opacity are passed through
    untouched and are left out. *)
Record Geofence := {
  gf_id : string;
  gf_companyId : string;
  gf_name : string;
  gf_type : GeofenceType;
  gf_shape : ShapeType;
  gf_coordinates : GeofenceCoordinates;
  gf_radius : option Q;
  gf_isActive : bool;
  gf_workingHours : option GeofenceWorkingHours
}.

Inductive LocationSource := GPS | NETWORK | MANUAL | GEOFENCE.

Record LocationData := {
  loc_id : string;
  loc_userId : string;
  loc_latitude : Q;
  loc_longitude : Q;
  loc_accuracy : Q;
  loc_timestamp : string;
  loc_address : option string;
  loc_isManual : bool;
  loc_source : LocationSource;
  loc_speed : option Q;
  loc_heading : option Q;
  loc_altitude : option Q
}.

Inductive GeofenceEventType := ENTER | EXIT | DWELL.

Record EventLocation := {
  el_latitude : Q;
  el_longitude : Q;
  el_accuracy : Q
}.

Record EventMetadata := {
  md_geofenceName : string;
  md_geofenceType : GeofenceType;
  md_dwellTime : option Z
}.

Record GeofenceEvent := {
  ev_id : string;
  ev_userId : string;
  ev_geofenceId : string;
  ev_eventType : GeofenceEventType;
  ev_timestamp : string;
  ev_location : EventLocation;
  ev_duration : option Z;
  ev_isWorkingHours : bool;
  ev_metadata : EventMetadata
}.

Record PresenceEntry := {
  pe_geofenceId : string;
  pe_entryTime : string;
  pe_isAuthorized : bool
}.

Record LastExit := {
  le_geofenceId : string;
  le_exitTime : string;
  le_duration : Z
}.

Record GeofenceStatus := {
  st_userId : string;
  currentGeofences : list PresenceEntry;
  lastGeofenceExit : option LastExit
}.

#[global] Instance GeofenceEventType_eq_dec : EqDecision GeofenceEventType.
Proof. solve_decision. Defined.

(** ** [GeofenceService] ([src/lib/geofence.ts]) *)

Record GeofenceService := {
  activeGeofences : list Geofence;
  userStatus : gmap string GeofenceStatus
}.

(** [new GeofenceService()] *)
Definition newGeofenceService : GeofenceService :=
  {| activeGeofences := []; userStatus := ∅ |}.

Section Service.
Context `{JSRuntime}.

Definition toRadians (degrees : Q) : Q := (degrees * (Math_PI / 180))%Q.

(** Haversine distance in metres. *)
Definition calculateDistance (lat1 lon1 lat2 lon2 : Q) : Q :=
  let R := 6371000%Q in
  let dLat := toRadians (lat2 - lat1) in
  let dLon := toRadians (lon2 - lon1) in
  let a := (Math_sin (dLat / 2) * Math_sin (dLat / 2) +
            Math_cos (toRadians lat1) * Math_cos (toRadians lat2) *
            Math_sin (dLon / 2) * Math_sin (dLon / 2))%Q in
  let c := (2 * Math_atan2 (Math_sqrt a) (Math_sqrt (1 - a)))%Q in
  (R * c)%Q.

Definition isPointInCircle (pointLat pointLon centerLat centerLon radiusMeters : Q)
  : bool :=
  let distance := calculateDistance pointLat pointLon centerLat centerLon in
  Qle_bool distance radiusMeters.

Definition Qgt_bool (a b : Q) : bool := negb (Qle_bool a b).
Definition Qlt_bool (a b : Q) : bool := negb (Qle_bool b a).

(** One turn of the ray-casting loop: vertex [pi], previous vertex [pj]. *)
Definition crosses (x y : Q) (pi pj : Point) : bool :=
  let xi := pt_longitude pi in
  let yi := pt_latitude pi in
  let xj := pt_longitude pj in
  let yj := pt_latitude pj in
  negb (Bool.eqb (Qgt_bool yi y) (Qgt_bool yj y)) &&
  Qlt_bool x ((xj - xi) * (y - yi) / (yj - yi) + xi)%Q.

(** The loop [for (i = 0, j = length - 1; i < length; j = i++)]: [pj] is
    the vertex of the previous turn, the last vertex on the first turn. *)
Fixpoint rayCast (x y : Q) (pj : Point) (ps : list Point) (inside : bool) : bool :=
  match ps with
  | [] => inside
  | pi :: rest =>
      rayCast x y pi rest (if crosses x y pi pj then negb inside else inside)
  end.

Definition isPointInPolygon (pointLat pointLon : Q) (polygonPoints : list Point)
  : bool :=
  let x := pointLon in
  let y := pointLat in
  match last polygonPoints with
  | None => false
  | Some pj => rayCast x y pj polygonPoints false
  end.

(** [center!] and [points!] are unchecked: reading a field of [undefined]
    throws a [TypeError]. A missing radius makes the comparison false. *)
Definition isLocationInsideGeofence (location : LocationData) (geofence : Geofence)
  : Completion bool :=
  match gf_shape geofence with
  | circle =>
      match center (gf_coordinates geofence) with
      | None => Throw "TypeError"
      | Some c =>
          match gf_radius geofence with
          | None => Normal false
          | Some r =>
              Normal (isPointInCircle (loc_latitude location) (loc_longitude location)
                        (pt_latitude c) (pt_longitude c) r)
          end
      end
  | polygon =>
      match points (gf_coordinates geofence) with
      | None => Throw "TypeError"
      | Some ps =>
          Normal (isPointInPolygon (loc_latitude location) (loc_longitude location) ps)
      end
  | ShapeOther => Normal false
  end.

Definition isWithinWorkingHours (now : Date) (geofence : Geofence) : bool :=
  match gf_workingHours geofence with
  | None => true
  | Some wh =>
      if negb (wh_enabled wh) then true
      else
        let dayOfWeek := weekdayShort now in
        let currentTime := timeHHMM now in
        match wh_schedule wh !! dayOfWeek with
        | None => false
        | Some daySchedule =>
            if negb (ds_active daySchedule) then false
            else String.leb (ds_start daySchedule) currentTime &&
                 String.leb currentTime (ds_end daySchedule)
        end
  end.

Definition isAuthorizedAccess (now : Date) (geofence : Geofence) : bool :=
  if negb (isWithinWorkingHours now geofence) then false else true.

Definition eventLocation (location : LocationData) : EventLocation :=
  {| el_latitude := loc_latitude location;
     el_longitude := loc_longitude location;
     el_accuracy := loc_accuracy location |}.

Definition hasGeofence (id : string) (st : GeofenceStatus) : bool :=
  existsb (fun g => String.eqb (pe_geofenceId g) id) (currentGeofences st).

Definition enterEvent (now : Date) (eid : string) (location : LocationData)
    (userId : string) (geofence : Geofence) : GeofenceEvent :=
  {| ev_id := eid;
     ev_userId := userId;
     ev_geofenceId := gf_id geofence;
     ev_eventType := ENTER;
     ev_timestamp := loc_timestamp location;
     ev_location := eventLocation location;
     ev_duration := None;
     ev_isWorkingHours := isWithinWorkingHours now geofence;
     ev_metadata := {| md_geofenceName := gf_name geofence;
                       md_geofenceType := gf_type geofence;
                       md_dwellTime := None |} |}.

Definition exitDuration (location : LocationData) (entryInfo : option PresenceEntry)
  : Z :=
  match entryInfo with
  | Some e =>
      Math_floor
        (inject_Z (Date_getTime (loc_timestamp location)
                   - Date_getTime (pe_entryTime e)) / 1000 / 60)%Q
  | None => 0
  end.

Definition exitEvent (now : Date) (eid : string) (location : LocationData)
    (userId : string) (geofence : Geofence) (duration : Z) : GeofenceEvent :=
  {| ev_id := eid;
     ev_userId := userId;
     ev_geofenceId := gf_id geofence;
     ev_eventType := EXIT;
     ev_timestamp := loc_timestamp location;
     ev_location := eventLocation location;
     ev_duration := Some duration;
     ev_isWorkingHours := isWithinWorkingHours now geofence;
     ev_metadata := {| md_geofenceName := gf_name geofence;
                       md_geofenceType := gf_type geofence;
                       md_dwellTime := Some duration |} |}.

(** The body of the loop over [activeGeofences], after [isInside] has been
    computed. [genId k] is the identifier that the [k]-th call of
    [generateEventId] within this evaluation returns. [now] is the reading
    of the wall clock: the source reads the clock anew in every call of
    [isWithinWorkingHours], and the readings of one evaluation are taken
    to be the same. *)
Definition diffGeofence (now : Date) (genId : nat -> string)
    (location : LocationData) (userId : string) (geofence : Geofence)
    (isInside : bool) (events : list GeofenceEvent) (currentStatus : GeofenceStatus)
  : list GeofenceEvent * GeofenceStatus :=
  let wasInside := hasGeofence (gf_id geofence) currentStatus in
  if isInside && negb wasInside then
    let event := enterEvent now (genId (length events)) location userId geofence in
    (events ++ [event],
     {| st_userId := st_userId currentStatus;
        currentGeofences :=
          currentGeofences currentStatus ++
          [{| pe_geofenceId := gf_id geofence;
              pe_entryTime := loc_timestamp location;
              pe_isAuthorized := isAuthorizedAccess now geofence |}];
        lastGeofenceExit := lastGeofenceExit currentStatus |})
  else if negb isInside && wasInside then
    let entryInfo :=
      List.find (fun g => String.eqb (pe_geofenceId g) (gf_id geofence))
        (currentGeofences currentStatus) in
    let duration := exitDuration location entryInfo in
    let event := exitEvent now (genId (length events)) location userId geofence duration in
    (events ++ [event],
     {| st_userId := st_userId currentStatus;
        currentGeofences :=
          List.filter (fun g => negb (String.eqb (pe_geofenceId g) (gf_id geofence)))
            (currentGeofences currentStatus);
        lastGeofenceExit :=
          Some {| le_geofenceId := gf_id geofence;
                  le_exitTime := loc_timestamp location;
                  le_duration := duration |} |})
  else (events, currentStatus).

(** The loop. An exception leaves the loop with the status as mutated so
    far; the events collected so far are lost with the frame. *)
Fixpoint forGeofences (now : Date) (genId : nat -> string)
    (location : LocationData) (userId : string) (gs : list Geofence)
    (events : list GeofenceEvent) (currentStatus : GeofenceStatus)
  : Completion (list GeofenceEvent) * GeofenceStatus :=
  match gs with
  | [] => (Normal events, currentStatus)
  | geofence :: rest =>
      match isLocationInsideGeofence location geofence with
      | Throw e => (Throw e, currentStatus)
      | Normal isInside =>
          let '(events', status') :=
            diffGeofence now genId location userId geofence isInside
              events currentStatus in
          forGeofences now genId location userId rest events' status'
      end
  end.

Definition freshStatus (userId : string) : GeofenceStatus :=
  {| st_userId := userId; currentGeofences := []; lastGeofenceExit := None |}.

(** [checkGeofenceEntry]. On normal completion the status is stored under
    [userId]. When the loop throws, a status that was already in the map
    has been mutated in place, one that was created for this call is
    dropped. *)
Definition checkGeofenceEntry (now : Date) (genId : nat -> string)
    (location : LocationData) (userId : string) (s : GeofenceService)
  : Completion (list GeofenceEvent) * GeofenceService :=
  let stored := userStatus s !! userId in
  let currentStatus := default (freshStatus userId) stored in
  match forGeofences now genId location userId (activeGeofences s) [] currentStatus with
  | (Normal events, status') =>
      (Normal events,
       {| activeGeofences := activeGeofences s;
          userStatus := <[userId := status']> (userStatus s) |})
  | (Throw e, status') =>
      (Throw e,
       {| activeGeofences := activeGeofences s;
          userStatus :=
            match stored with
            | Some _ => <[userId := status']> (userStatus s)
            | None => userStatus s
            end |})
  end.

(** [loadGeofences]: [response] is the list the server answered with, or
    [None] when the request failed; the failure is caught and logged. *)
Definition loadGeofences (response : option (list Geofence)) (s : GeofenceService)
  : list Geofence * GeofenceService :=
  match response with
  | None => ([], s)
  | Some geofences =>
      let active := List.filter gf_isActive geofences in
      (active, {| activeGeofences := active; userStatus := userStatus s |})
  end.

(** [createGeofence]: the failure is logged and thrown again. *)
Definition createGeofence (response : option Geofence) (s : GeofenceService)
  : Completion Geofence * GeofenceService :=
  match response with
  | None => (Throw "Failed to create geofence", s)
  | Some newGeofence =>
      (Normal newGeofence,
       if gf_isActive newGeofence then
         {| activeGeofences := activeGeofences s ++ [newGeofence];
            userStatus := userStatus s |}
       else s)
  end.

(** [findIndex(g => g.id === id)]; [None] stands for [-1]. *)
Definition findIndex (id : string) (gs : list Geofence) : option nat :=
  fst <$> list_find (fun g => gf_id g = id) gs.

(** [updateGeofence] *)
Definition updateGeofence (id : string) (response : option Geofence)
    (s : GeofenceService) : Completion Geofence * GeofenceService :=
  match response with
  | None => (Throw "Failed to update geofence", s)
  | Some updatedGeofence =>
      (Normal updatedGeofence,
       match findIndex id (activeGeofences s) with
       | Some index =>
           if gf_isActive updatedGeofence then
             {| activeGeofences := <[index := updatedGeofence]> (activeGeofences s);
                userStatus := userStatus s |}
           else
             {| activeGeofences := delete index (activeGeofences s);
                userStatus := userStatus s |}
       | None =>
           if gf_isActive updatedGeofence then
             {| activeGeofences := activeGeofences s ++ [updatedGeofence];
                userStatus := userStatus s |}
           else s
       end)
  end.

Definition purgeGeofence (id : string) (status : GeofenceStatus) : GeofenceStatus :=
  {| st_userId := st_userId status;
     currentGeofences :=
       List.filter (fun g => negb (String.eqb (pe_geofenceId g) id))
         (currentGeofences status);
     lastGeofenceExit := lastGeofenceExit status |}.

(** [deleteGeofence]; [ok] is [response.ok]. *)
Definition deleteGeofence (id : string) (ok : bool) (s : GeofenceService)
  : Completion unit * GeofenceService :=
  if negb ok then (Throw "Failed to delete geofence", s)
  else
    (Normal tt,
     {| activeGeofences :=
          List.filter (fun g => negb (String.eqb (gf_id g) id)) (activeGeofences s);
        userStatus := purgeGeofence id <$> userStatus s |}).

(** [getUserGeofenceStatus] *)
Definition getUserGeofenceStatus (userId : string) (s : GeofenceService)
  : option GeofenceStatus :=
  userStatus s !! userId.

(** The calls a client can make on the service, with what the
    environment answers, and the events each call hands back. *)
Inductive Op :=
| OpLoad (response : option (list Geofence))
| OpCreate (response : option Geofence)
| OpUpdate (id : string) (response : option Geofence)
| OpDelete (id : string) (ok : bool)
| OpCheck (now : Date) (genId : nat -> string) (location : LocationData)
    (userId : string).

Definition emitted (c : Completion (list GeofenceEvent)) : list GeofenceEvent :=
  match c with
  | Normal events => events
  | Throw _ => []
  end.

Definition exec (op : Op) (s : GeofenceService)
  : list GeofenceEvent * GeofenceService :=
  match op with
  | OpLoad response => ([], snd (loadGeofences response s))
  | OpCreate response => ([], snd (createGeofence response s))
  | OpUpdate id response => ([], snd (updateGeofence id response s))
  | OpDelete id ok => ([], snd (deleteGeofence id ok s))
  | OpCheck now genId location userId =>
      let '(c, s') := checkGeofenceEntry now genId location userId s in
      (emitted c, s')
  end.

(** Running a sequence of calls, collecting the events. *)
Fixpoint run (ops : list Op) (s : GeofenceService)
  : list GeofenceEvent * GeofenceService :=
  match ops with
  | [] => ([], s)
  | op :: rest =>
      let '(events, s') := exec op s in
      let '(events', s'') := run rest s' in
      (events ++ events', s'')
  end.

End Service.

(** ** Vocabulary for the properties of the service *)

Section ServiceSpec.
Context `{JSRuntime}.

(** The entries that a list of presence entries holds for one zone. *)
Definition entriesOf (id : string) (l : list PresenceEntry) : list PresenceEntry :=
  List.filter (fun e => String.eqb (pe_geofenceId e) id) l.

Definition pushed (now : Date) (location : LocationData) (geofence : Geofence)
    (st : GeofenceStatus) : GeofenceStatus :=
  {| st_userId := st_userId st;
     currentGeofences :=
       currentGeofences st ++
       [{| pe_geofenceId := gf_id geofence;
           pe_entryTime := loc_timestamp location;
           pe_isAuthorized := isAuthorizedAccess now geofence |}];
     lastGeofenceExit := lastGeofenceExit st |}.

Definition left_ (location : LocationData) (geofence : Geofence) (duration : Z)
    (st : GeofenceStatus) : GeofenceStatus :=
  {| st_userId := st_userId st;
     currentGeofences :=
       List.filter (fun g => negb (String.eqb (pe_geofenceId g) (gf_id geofence)))
         (currentGeofences st);
     lastGeofenceExit :=
       Some {| le_geofenceId := gf_id geofence;
               le_exitTime := loc_timestamp location;
               le_duration := duration |} |}.

Definition storedEntry (id : string) (st : GeofenceStatus) : option PresenceEntry :=
  List.find (fun g => String.eqb (pe_geofenceId g) id) (currentGeofences st).

(** The three outcomes of a turn. *)
Inductive Turn (now : Date) (genId : nat -> string) (location : LocationData)
    (userId : string) (g : Geofence) (isInside : bool)
    (events : list GeofenceEvent) (st : GeofenceStatus)
  : list GeofenceEvent -> GeofenceStatus -> Prop :=
| TurnEnter :
    isInside = true -> hasGeofence (gf_id g) st = false ->
    Turn now genId location userId g isInside events st
      (events ++ [enterEvent now (genId (length events)) location userId g])
      (pushed now location g st)
| TurnExit :
    isInside = false -> hasGeofence (gf_id g) st = true ->
    Turn now genId location userId g isInside events st
      (events ++ [exitEvent now (genId (length events)) location userId g
                    (exitDuration location (storedEntry (gf_id g) st))])
      (left_ location g (exitDuration location (storedEntry (gf_id g) st)) st)
| TurnStay :
    isInside = hasGeofence (gf_id g) st ->
    Turn now genId location userId g isInside events st events st.

(** The status [checkGeofenceEntry] starts from for a subject. *)
Definition statusOf (userId : string) (s : GeofenceService) : GeofenceStatus :=
  default (freshStatus userId) (userStatus s !! userId).

(** What the presence state of a subject holds for one zone. *)
Definition entriesFor (id userId : string) (s : GeofenceService)
  : list PresenceEntry :=
  entriesOf id (currentGeofences (statusOf userId s)).

Definition zoneIds (s : GeofenceService) : list string :=
  List.map gf_id (activeGeofences s).

Definition presentIds (st : GeofenceStatus) : list string :=
  List.map pe_geofenceId (currentGeofences st).

(** No subject is recorded twice in the same zone. *)
Definition presenceUnique (s : GeofenceService) : Prop :=
  forall userId st, userStatus s !! userId = Some st -> NoDup (presentIds st).

Definition isEnterOrExit (e : GeofenceEvent) : Prop :=
  ev_eventType e = ENTER \/ ev_eventType e = EXIT.

(** A reading of the clock, and its minutes since midnight. *)
Definition validClock (d : Date) : Prop :=
  (getHours d < 24)%nat /\ (getMinutes d < 60)%nat.

Definition minutesOfDay (d : Date) : nat := (getHours d * 60 + getMinutes d)%nat.

(** The value of a decimal digit. *)
Definition digitOf (c : ascii) : option nat :=
  let n := nat_of_ascii c in
  if ((48 <=? n) && (n <=? 57))%nat then Some (n - 48)%nat else None.

Definition clockMinutes (hours minutes : nat) : option nat :=
  if ((hours <? 24) && (minutes <? 60))%nat
  then Some (hours * 60 + minutes)%nat else None.

(** The time of day that a text denotes, in minutes since midnight: one or
    two digits for the hour, a colon, two digits for the minutes. *)
Definition timeOfDay (text : string) : option nat :=
  match text with
  | String h1 (String h2 (String c (String m1 (String m2 EmptyString)))) =>
      if Ascii.eqb c ":" then
        a ← digitOf h1; b ← digitOf h2; x ← digitOf m1; y ← digitOf m2;
        clockMinutes (10 * a + b) (10 * x + y)
      else None
  | String h (String c (String m1 (String m2 EmptyString))) =>
      if Ascii.eqb c ":" then
        b ← digitOf h; x ← digitOf m1; y ← digitOf m2;
        clockMinutes b (10 * x + y)
      else None
  | _ => None
  end.

(** A text of five characters; a time of day of that length is written
    HH:MM, the hour with its leading zero. *)
Definition zeroPadded (text : string) : Prop := String.length text = 5%nat.

(** The zone restricts access to working hours. *)
Definition restricted (g : Geofence) : option GeofenceWorkingHours :=
  match gf_workingHours g with
  | Some wh => if wh_enabled wh then Some wh else None
  | None => None
  end.

(** Whole minutes from one timestamp to another. *)
Definition wholeMinutes (from to : string) : Z :=
  (Date_getTime to - Date_getTime from) `div` 60000.

(** An event agrees with the presence state [st] that the evaluation of
    [location] started from: an ENTER is for a zone the subject was not
    in, an EXIT is for a zone the subject was in and carries the whole
    minutes since the stored entry time. *)
Definition eventFits (location : LocationData) (st : GeofenceStatus)
    (e : GeofenceEvent) : Prop :=
  match ev_eventType e with
  | ENTER => hasGeofence (ev_geofenceId e) st = false /\ ev_duration e = None
  | EXIT =>
      exists entry,
        storedEntry (ev_geofenceId e) st = Some entry /\
        ev_duration e =
          Some (wholeMinutes (pe_entryTime entry) (loc_timestamp location))
  | DWELL => False
  end.

(** The server hands out every zone id once, and answers an update with
    the zone of the id that was asked for. *)
Definition serverKeepsIds (op : Op) (s : GeofenceService) : Prop :=
  match op with
  | OpLoad (Some geofences) => NoDup (List.map gf_id geofences)
  | OpCreate (Some g) => ~ In (gf_id g) (zoneIds s)
  | OpUpdate id (Some g) => gf_id g = id
  | _ => True
  end.

Fixpoint served (ops : list Op) (s : GeofenceService) : Prop :=
  match ops with
  | [] => True
  | op :: rest => serverKeepsIds op s /\ served rest (snd (exec op s))
  end.


End ServiceSpec.

(** ** The location API ([src/app/api/location/route.ts]) *)

Module Route.

(** The parsed JSON body of [POST]. A field is [None] when the body does
    not carry it (or carries [null]). *)
Record LocationUpdateRequest := {
  req_latitude : option Q;
  req_longitude : option Q;
  req_accuracy : option Q;
  req_timestamp : option string;
  req_source : option LocationSource;
  req_speed : option Q;
  req_heading : option Q;
  req_altitude : option Q
}.

(** [!x] for a number and for a string that may be absent: [undefined],
    [0] and the empty string are falsy. *)
Definition notNumber (x : option Q) : bool :=
  match x with
  | None => true
  | Some q => Qeq_bool q 0
  end.

Definition notString (x : option string) : bool :=
  match x with
  | None => true
  | Some s => String.eqb s ""
  end.

Inductive PostResponse :=
| PostError (status : Z) (error : string)
| PostSuccess (locationId : string) (geofenceEvents : list GeofenceEvent)
    (message : string).

Record DateRange := {
  dr_start : option string;
  dr_end : option string
}.

Record StatsRequest := {
  sr_userId : option string;
  sr_dateRange : option DateRange
}.

Record LocationStats := {
  ls_userId : string;
  ls_dateRange : DateRange;
  totalDistance : Q;
  totalTime : Q;
  averageSpeed : Q;
  locationsRecorded : nat;
  geofenceEvents : nat;
  attendanceEvents : nat
}.

Inductive StatsResponse :=
| StatsError (status : Z) (error : string)
| StatsOk (stats : LocationStats).

Section Handlers.
Context `{JSRuntime}.

Definition toRadians (degrees : Q) : Q := (degrees * (Math_PI / 180))%Q.

(** Haversine distance in kilometres. *)
Definition calculateDistance (location1 location2 : LocationData) : Q :=
  let R := 6371%Q in
  let dLat := toRadians (loc_latitude location2 - loc_latitude location1) in
  let dLon := toRadians (loc_longitude location2 - loc_longitude location1) in
  let a := (Math_sin (dLat / 2) * Math_sin (dLat / 2) +
            Math_cos (toRadians (loc_latitude location1)) *
            Math_cos (toRadians (loc_latitude location2)) *
            Math_sin (dLon / 2) * Math_sin (dLon / 2))%Q in
  let c := (2 * Math_atan2 (Math_sqrt a) (Math_sqrt (1 - a)))%Q in
  (R * c)%Q.

Definition reverseGeocode (latitude longitude : Q) : string :=
  Number_toFixed4 latitude +:+ ", " +:+ Number_toFixed4 longitude.

(** [checkGeofenceEvents]: the demo returns no event. *)
Definition checkGeofenceEvents (location : LocationData) : list GeofenceEvent := [].

(** [slice(-n)] *)
Definition sliceLast {A} (n : nat) (l : list A) : list A :=
  drop (length l - n) l.

(** [POST]; [newId] is what [generateId] returns, [locationData] the
    module-level store. *)
Definition POST (newId : string) (body : LocationUpdateRequest)
    (locationData : list LocationData) : PostResponse * list LocationData :=
  if notNumber (req_latitude body) || notNumber (req_longitude body) ||
     notString (req_timestamp body)
  then (PostError 400 "Latitude, longitude, and timestamp are required", locationData)
  else
    let userId := "1" in
    let latitude := default 0%Q (req_latitude body) in
    let longitude := default 0%Q (req_longitude body) in
    let locationRecord :=
      {| loc_id := newId;
         loc_userId := userId;
         loc_latitude := latitude;
         loc_longitude := longitude;
         loc_accuracy :=
           if notNumber (req_accuracy body) then 10%Q
           else default 0%Q (req_accuracy body);
         loc_timestamp := default "" (req_timestamp body);
         loc_address := Some (reverseGeocode latitude longitude);
         loc_isManual := false;
         loc_source := default GPS (req_source body);
         loc_speed := req_speed body;
         loc_heading := req_heading body;
         loc_altitude := req_altitude body |} in
    let locationData1 := locationData ++ [locationRecord] in
    let userLocations :=
      List.filter (fun l => String.eqb (loc_userId l) userId) locationData1 in
    let locationData2 :=
      if (1000 <? length userLocations)%nat then
        List.filter (fun l => negb (String.eqb (loc_userId l) userId)) locationData1
          ++ sliceLast 1000 userLocations
      else locationData1 in
    let geofenceEvents := checkGeofenceEvents locationRecord in
    (PostSuccess (loc_id locationRecord) geofenceEvents
       "Location updated successfully",
     locationData2).

Definition getTime (l : LocationData) : Z := Date_getTime (loc_timestamp l).

(** [sort((a, b) => time(a) - time(b))]: the sort is stable, so the result
    is the one that insertion from the right computes. *)
Fixpoint insertByTime (x : LocationData) (l : list LocationData) : list LocationData :=
  match l with
  | [] => [x]
  | y :: l' =>
      if (getTime x <=? getTime y)%Z then x :: y :: l'
      else y :: insertByTime x l'
  end.

Fixpoint sortByTime (l : list LocationData) : list LocationData :=
  match l with
  | [] => []
  | x :: l' => insertByTime x (sortByTime l')
  end.

(** The fixes of [userId] within the date range, oldest first. *)
Definition selectLocations (userId : string) (startDate endDate : Z)
    (locationData : list LocationData) : list LocationData :=
  sortByTime
    (List.filter (fun l => (startDate <=? getTime l)%Z && (getTime l <=? endDate)%Z)
       (List.filter (fun l => String.eqb (loc_userId l) userId) locationData)).

(** Hours between two fixes. *)
Definition timeDiffHours (previous current : LocationData) : Q :=
  (inject_Z (getTime current - getTime previous) / 1000 / 3600)%Q.

(** The loop [for (i = 1; i < length; i++)] with its three accumulators;
    [previous] is [userLocations[i - 1]]. *)
Fixpoint statsLoop (previous : LocationData) (rest : list LocationData)
    (totalDistance totalTime : Q) (speeds : list Q) : Q * Q * list Q :=
  match rest with
  | [] => (totalDistance, totalTime, speeds)
  | current :: rest' =>
      let distance := calculateDistance previous current in
      let timeDiff := timeDiffHours previous current in
      statsLoop current rest'
        (totalDistance + distance)%Q
        (totalTime + timeDiff)%Q
        (if Qlt_bool 0 timeDiff then speeds ++ [(distance / timeDiff)%Q] else speeds)
  end.

(** [Math.round(x * 100) / 100] *)
Definition round2 (x : Q) : Q := (inject_Z (Math_round (x * 100)) / 100)%Q.

(** [speeds.reduce((sum, speed) => sum + speed, 0)] *)
Definition sumSpeeds (speeds : list Q) : Q := fold_left Qplus speeds 0%Q.

(** The statistics of [PATCH] for the selected fixes. *)
Definition computeStats (userId : string) (dateRange : DateRange)
    (userLocations : list LocationData) : LocationStats :=
  match userLocations with
  | [] =>
      {| ls_userId := userId; ls_dateRange := dateRange;
         totalDistance := 0; totalTime := 0; averageSpeed := 0;
         locationsRecorded := 0; geofenceEvents := 0; attendanceEvents := 0 |}
  | first :: rest =>
      let '(totalDistance, totalTime, speeds) := statsLoop first rest 0%Q 0%Q [] in
      let averageSpeed :=
        if (0 <? length speeds)%nat
        then (sumSpeeds speeds / inject_Z (Z.of_nat (length speeds)))%Q
        else 0%Q in
      {| ls_userId := userId; ls_dateRange := dateRange;
         totalDistance := round2 totalDistance;
         totalTime := round2 totalTime;
         averageSpeed := round2 averageSpeed;
         locationsRecorded := length userLocations;
         geofenceEvents := 0; attendanceEvents := 0 |}
  end.

(** [PATCH] *)
Definition PATCH (body : StatsRequest) (locationData : list LocationData)
  : StatsResponse :=
  match sr_userId body, sr_dateRange body with
  | Some userId, Some dateRange =>
      if String.eqb userId "" || notString (dr_start dateRange) ||
         notString (dr_end dateRange)
      then StatsError 400 "User ID and date range are required"
      else
        let startDate := Date_getTime (default "" (dr_start dateRange)) in
        let endDate := Date_getTime (default "" (dr_end dateRange)) in
        StatsOk (computeStats userId dateRange
                   (selectLocations userId startDate endDate locationData))
  | _, _ => StatsError 400 "User ID and date range are required"
  end.

(** *** [GET] and [PUT] *)

(** The search parameters of [GET] as [searchParams.get] and [parseInt]
    hand them over. [qp_limit] is [None] when the parameter is absent or
    empty, [Some None] when [parseInt] finds no number (NaN), and
    [Some (Some n)] when it reads [n]. *)
Record QueryParams := {
  qp_userId : option string;
  qp_startDate : option string;
  qp_endDate : option string;
  qp_limit : option (option Z);
  qp_includeAddress : option string
}.

(** [query.limit]: 100 by default; [None] stands for NaN. *)
Definition queryLimit (qp : QueryParams) : option Z :=
  match qp_limit qp with
  | None => Some 100%Z
  | Some parsed => parsed
  end.

(** [x || undefined] on a string that may be absent. *)
Definition orUndefined (x : option string) : option string :=
  if notString x then None else x.

(** [sort((a, b) => time(b) - time(a))], stable. *)
Fixpoint insertByTimeDesc (x : LocationData) (l : list LocationData)
  : list LocationData :=
  match l with
  | [] => [x]
  | y :: l' =>
      if (getTime y <=? getTime x)%Z then x :: y :: l'
      else y :: insertByTimeDesc x l'
  end.

Fixpoint sortByTimeDesc (l : list LocationData) : list LocationData :=
  match l with
  | [] => []
  | x :: l' => insertByTimeDesc x (sortByTimeDesc l')
  end.

(** [slice(0, n)]: a negative [n] counts from the end. *)
Definition sliceTo {A} (n : Z) (l : list A) : list A :=
  if (0 <=? n)%Z then take (Z.to_nat n) l
  else take (Z.to_nat (Z.of_nat (length l) + n)) l.

(** [({ address, ...location }) => location] *)
Definition withoutAddress (l : LocationData) : LocationData :=
  {| loc_id := loc_id l;
     loc_userId := loc_userId l;
     loc_latitude := loc_latitude l;
     loc_longitude := loc_longitude l;
     loc_accuracy := loc_accuracy l;
     loc_timestamp := loc_timestamp l;
     loc_address := None;
     loc_isManual := loc_isManual l;
     loc_source := loc_source l;
     loc_speed := loc_speed l;
     loc_heading := loc_heading l;
     loc_altitude := loc_altitude l |}.

Definition byUser (userId : option string) (l : list LocationData)
  : list LocationData :=
  match userId with
  | Some u => List.filter (fun x => String.eqb (loc_userId x) u) l
  | None => l
  end.

Definition fromDate (startDate : option string) (l : list LocationData)
  : list LocationData :=
  match startDate with
  | Some d => List.filter (fun x => (Date_getTime d <=? getTime x)%Z) l
  | None => l
  end.

Definition untilDate (endDate : option string) (l : list LocationData)
  : list LocationData :=
  match endDate with
  | Some d => List.filter (fun x => (getTime x <=? Date_getTime d)%Z) l
  | None => l
  end.

Definition applyLimit (limit : option Z) (l : list LocationData)
  : list LocationData :=
  match limit with
  | Some n => if (n =? 0)%Z then l else sliceTo n l
  | None => l
  end.

(** [GET]: the locations of the answer and its [total]. *)
Definition GET (qp : QueryParams) (locationData : list LocationData)
  : list LocationData * nat :=
  let userId := orUndefined (qp_userId qp) in
  let startDate := orUndefined (qp_startDate qp) in
  let endDate := orUndefined (qp_endDate qp) in
  let limit := queryLimit qp in
  let includeAddress :=
    match qp_includeAddress qp with
    | Some v => String.eqb v "true"
    | None => false
    end in
  let filtered := untilDate endDate (fromDate startDate (byUser userId locationData)) in
  let sorted := sortByTimeDesc filtered in
  let limited := applyLimit limit sorted in
  let result :=
    if negb includeAddress then List.map withoutAddress limited else limited in
  (result, length result).

Record LocationHistory := {
  lh_userId : string;
  lh_locations : list LocationData;
  lh_dateRange : DateRange;
  lh_totalDistance : Q;
  lh_timeActive : Z
}.

Inductive HistoryResponse :=
| HistoryError (status : Z) (error : string)
| HistoryOk (history : LocationHistory).

(** The loop [totalDistance += calculateDistance(l[i - 1], l[i])]. *)
Fixpoint distanceLoop (previous : LocationData) (rest : list LocationData)
    (totalDistance : Q) : Q :=
  match rest with
  | [] => totalDistance
  | current :: rest' =>
      distanceLoop current rest'
        (totalDistance + calculateDistance previous current)%Q
  end.

(** Milliseconds from the first to the last fix. *)
Definition timeActiveMs (userLocations : list LocationData) : Z :=
  if (1 <? length userLocations)%nat then
    match last userLocations, head userLocations with
    | Some lastFix, Some firstFix => getTime lastFix - getTime firstFix
    | _, _ => 0
    end
  else 0.

Definition computeHistory (userId : string) (dateRange : DateRange)
    (userLocations : list LocationData) : LocationHistory :=
  let totalDistance :=
    match userLocations with
    | [] => 0%Q
    | first :: rest => distanceLoop first rest 0%Q
    end in
  let timeActive := timeActiveMs userLocations in
  {| lh_userId := userId;
     lh_locations := userLocations;
     lh_dateRange := dateRange;
     lh_totalDistance := round2 totalDistance;
     lh_timeActive := Math_floor (inject_Z timeActive / 1000 / 60)%Q |}.

(** [PUT] *)
Definition PUT (body : StatsRequest) (locationData : list LocationData)
  : HistoryResponse :=
  match sr_userId body, sr_dateRange body with
  | Some userId, Some dateRange =>
      if String.eqb userId "" || notString (dr_start dateRange) ||
         notString (dr_end dateRange)
      then HistoryError 400 "User ID and date range are required"
      else
        let startDate := Date_getTime (default "" (dr_start dateRange)) in
        let endDate := Date_getTime (default "" (dr_end dateRange)) in
        HistoryOk (computeHistory userId dateRange
                     (selectLocations userId startDate endDate locationData))
  | _, _ => HistoryError 400 "User ID and date range are required"
  end.

End Handlers.

(** *** The summary as the specification words it *)

Section Summary.
Context `{JSRuntime}.

(** Consecutive pairs of a fix list. *)
Fixpoint consecutivePairs (l : list LocationData) : list (LocationData * LocationData) :=
  match l with
  | a :: (b :: _) as l' => (a, b) :: consecutivePairs l'
  | _ => []
  end.

Definition positiveElapsed (p : LocationData * LocationData) : bool :=
  (getTime (fst p) <? getTime (snd p))%Z.

Definition instantaneousSpeed (p : LocationData * LocationData) : Q :=
  (calculateDistance (fst p) (snd p) / timeDiffHours (fst p) (snd p))%Q.

Definition Qsum (l : list Q) : Q := fold_right Qplus 0%Q l.

Definition arithmeticMean (l : list Q) : Q :=
  match l with
  | [] => 0%Q
  | _ => (Qsum l / inject_Z (Z.of_nat (length l)))%Q
  end.

(** Mean of the instantaneous speeds over the pairs with positive elapsed
    time. *)
Definition meanSpeed (fixes : list LocationData) : Q :=
  arithmeticMean
    (List.map instantaneousSpeed (List.filter positiveElapsed (consecutivePairs fixes))).

Definition pathLength (fixes : list LocationData) : Q :=
  Qsum (List.map (fun p => calculateDistance (fst p) (snd p)) (consecutivePairs fixes)).

Definition elapsedHours (fixes : list LocationData) : Q :=
  Qsum (List.map (fun p => timeDiffHours (fst p) (snd p)) (consecutivePairs fixes)).

(** Oldest first. *)
Definition chronological (fixes : list LocationData) : Prop :=
  Sorted (fun a b => getTime a <= getTime b) fixes.


(** A record is what a query asks for. *)
Definition matchesQuery (qp : QueryParams) (l : LocationData) : bool :=
  match orUndefined (qp_userId qp) with
  | Some u => String.eqb (loc_userId l) u
  | None => true
  end &&
  match orUndefined (qp_startDate qp) with
  | Some d => (Date_getTime d <=? getTime l)%Z
  | None => true
  end &&
  match orUndefined (qp_endDate qp) with
  | Some d => (getTime l <=? Date_getTime d)%Z
  | None => true
  end.

(** A record is of a subject and within two instants. *)
Definition selected (userId : string) (startDate endDate : Z) (l : LocationData)
  : bool :=
  String.eqb (loc_userId l) userId &&
  ((startDate <=? getTime l)%Z && (getTime l <=? endDate)%Z).

(** Newest first. *)
Definition newestFirst (fixes : list LocationData) : Prop :=
  Sorted (fun a b => getTime b <= getTime a) fixes.

(** A record as the answer to a query shows it: with its address when the
    query says [includeAddress=true], without it otherwise. *)
Definition shown (qp : QueryParams) (l : LocationData) : LocationData :=
  if decide (qp_includeAddress qp = Some "true") then l else withoutAddress l.

(** The records of the demo user, and the others. *)
Definition ofDemoUser (l : LocationData) : bool := String.eqb (loc_userId l) "1".

End Summary.

End Route.

(** ** The statistics over the numbers of the engine

    [PATCH] computes its figures with the numbers of JavaScript, IEEE 754
    doubles, and a double rounds where a rational does not. What follows
    embeds the computation of lines 241-273 over any implementation of
    those numbers: the operations are the ones the source applies, in the
    order in which it applies them, and nothing is assumed of them. *)

Module Numeric.

Class Numbers := {
  number : Type;
  (** the number that a decimal literal, or a number of a JSON text,
      denotes *)
  literal : Q -> number;
  add : number -> number -> number;
  sub : number -> number -> number;
  mul : number -> number -> number;
  div : number -> number -> number;
  (** [a > b] *)
  gt : number -> number -> bool;
  Math_round : number -> number;
  Math_PI : number;
  Math_sin : number -> number;
  Math_cos : number -> number;
  Math_sqrt : number -> number;
  Math_atan2 : number -> number -> number;
  (** [new Date(timestamp).getTime()] *)
  Date_getTime : string -> number
}.

Declare Scope num_scope.
Delimit Scope num_scope with num.
Infix "+" := add : num_scope.
Infix "-" := sub : num_scope.
Infix "*" := mul : num_scope.
Infix "/" := div : num_scope.

Record LocationStats `{Numbers} := {
  ls_userId : string;
  ls_dateRange : Route.DateRange;
  totalDistance : number;
  totalTime : number;
  averageSpeed : number;
  locationsRecorded : nat;
  geofenceEvents : nat;
  attendanceEvents : nat
}.

Section Computation.
Context `{Numbers}.

(** An integer literal of the source. *)
Definition int (n : Z) : number := literal (inject_Z n).

(** [array.length] *)
Definition lengthOf {A} (l : list A) : number := int (Z.of_nat (length l)).

Definition toRadians (degrees : number) : number :=
  (degrees * (Math_PI / int 180))%num.

(** Haversine distance in kilometres. *)
Definition calculateDistance (location1 location2 : LocationData) : number :=
  let R := int 6371 in
  let dLat :=
    toRadians (literal (loc_latitude location2) - literal (loc_latitude location1))%num in
  let dLon :=
    toRadians (literal (loc_longitude location2) - literal (loc_longitude location1))%num in
  let a := (Math_sin (dLat / int 2) * Math_sin (dLat / int 2) +
            Math_cos (toRadians (literal (loc_latitude location1))) *
            Math_cos (toRadians (literal (loc_latitude location2))) *
            Math_sin (dLon / int 2) * Math_sin (dLon / int 2))%num in
  let c := (int 2 * Math_atan2 (Math_sqrt a) (Math_sqrt (int 1 - a)))%num in
  (R * c)%num.

(** [new Date(l.timestamp).getTime()] *)
Definition getTime (l : LocationData) : number := Date_getTime (loc_timestamp l).

(** Hours between two fixes. *)
Definition timeDiffHours (previous current : LocationData) : number :=
  ((getTime current - getTime previous) / int 1000 / int 3600)%num.

(** The loop [for (i = 1; i < length; i++)] with its three accumulators;
    [previous] is [userLocations[i - 1]]. *)
Fixpoint statsLoop (previous : LocationData) (rest : list LocationData)
    (totalDistance totalTime : number) (speeds : list number)
  : number * number * list number :=
  match rest with
  | [] => (totalDistance, totalTime, speeds)
  | current :: rest' =>
      let distance := calculateDistance previous current in
      let timeDiff := timeDiffHours previous current in
      statsLoop current rest'
        (totalDistance + distance)%num
        (totalTime + timeDiff)%num
        (if gt timeDiff (int 0) then speeds ++ [(distance / timeDiff)%num] else speeds)
  end.

(** [Math.round(x * 100) / 100] *)
Definition round2 (x : number) : number := (Math_round (x * int 100) / int 100)%num.

(** [speeds.reduce((sum, speed) => sum + speed, 0)] *)
Definition sumSpeeds (speeds : list number) : number := fold_left add speeds (int 0).

(** The statistics of [PATCH] for the selected fixes. *)
Definition computeStats (userId : string) (dateRange : Route.DateRange)
    (userLocations : list LocationData) : LocationStats :=
  match userLocations with
  | [] =>
      {| ls_userId := userId; ls_dateRange := dateRange;
         totalDistance := int 0; totalTime := int 0; averageSpeed := int 0;
         locationsRecorded := 0; geofenceEvents := 0; attendanceEvents := 0 |}
  | first :: rest =>
      let '(totalDistance, totalTime, speeds) :=
        statsLoop first rest (int 0) (int 0) [] in
      let averageSpeed :=
        if (0 <? length speeds)%nat
        then (sumSpeeds speeds / lengthOf speeds)%num
        else int 0 in
      {| ls_userId := userId; ls_dateRange := dateRange;
         totalDistance := round2 totalDistance;
         totalTime := round2 totalTime;
         averageSpeed := round2 averageSpeed;
         locationsRecorded := length userLocations;
         geofenceEvents := 0; attendanceEvents := 0 |}
  end.

(** *** The summary as the specification words it *)

(** The distance of a pair of consecutive fixes, its elapsed hours, and
    its instantaneous speed. *)
Definition pairDistance (p : LocationData * LocationData) : number :=
  calculateDistance (fst p) (snd p).

Definition elapsedHours (p : LocationData * LocationData) : number :=
  ((Date_getTime (loc_timestamp (snd p)) - Date_getTime (loc_timestamp (fst p)))
   / int 1000 / int 3600)%num.

Definition positiveElapsed (p : LocationData * LocationData) : bool :=
  gt (elapsedHours p) (int 0).

Definition instantaneousSpeed (p : LocationData * LocationData) : number :=
  (pairDistance p / elapsedHours p)%num.

(** The terms added up one after the other, from 0. *)
Definition total (terms : list number) : number := fold_left add terms (int 0).

Definition arithmeticMean (terms : list number) : number :=
  match terms with
  | [] => int 0
  | _ => (total terms / lengthOf terms)%num
  end.

(** The speeds that are collected: those of the consecutive pairs with
    positive elapsed time. *)
Definition collectedSpeeds (fixes : list LocationData) : list number :=
  List.map instantaneousSpeed
    (List.filter positiveElapsed (Route.consecutivePairs fixes)).

(** Two decimal places: the hundredths that [Math.round] gives, over a
    hundred. *)
Definition toTwoPlaces (x : number) : number :=
  (Math_round (x * int 100) / int 100)%num.

(** Total distance over total time, which the average speed is not. *)
Definition overallRatio (fixes : list LocationData) : number :=
  (total (List.map pairDistance (Route.consecutivePairs fixes)) /
   total (List.map elapsedHours (Route.consecutivePairs fixes)))%num.

End Computation.

End Numeric.

(** The rationals of the other sections as an implementation of the
    numbers. *)
Definition rationalNumbers `{JSRuntime} : Numeric.Numbers :=
  {| Numeric.number := Q;
     Numeric.literal := fun q => q;
     Numeric.add := Qplus;
     Numeric.sub := Qminus;
     Numeric.mul := Qmult;
     Numeric.div := Qdiv;
     Numeric.gt := fun a b => Qlt_bool b a;
     Numeric.Math_round := fun x => inject_Z (Math_round x);
     Numeric.Math_PI := Math_PI;
     Numeric.Math_sin := Math_sin;
     Numeric.Math_cos := Math_cos;
     Numeric.Math_sqrt := Math_sqrt;
     Numeric.Math_atan2 := Math_atan2;
     Numeric.Date_getTime := fun timestamp => inject_Z (Date_getTime timestamp) |}.


(** ** Further vocabulary for the service *)

Section ServiceSpecMore.
Context `{JSRuntime}.

(** The rectangle between two parallels and two meridians, as a polygon:
    south-west, south-east, north-east, north-west. *)
Definition rectangle (south north west east : Q) : list Point :=
  [ {| pt_latitude := south; pt_longitude := west |};
    {| pt_latitude := south; pt_longitude := east |};
    {| pt_latitude := north; pt_longitude := east |};
    {| pt_latitude := north; pt_longitude := west |} ].

(** The first cached zone with a given id. *)
Definition cachedZone (id : string) (s : GeofenceService) : option Geofence :=
  List.find (fun g => String.eqb (gf_id g) id) (activeGeofences s).

(** Every cached zone can be tested against the fix without exception;
    [inside] gives the answers. *)
Definition answers (location : LocationData) (inside : Geofence -> bool)
    (gs : list Geofence) : Prop :=
  Forall (fun g => isLocationInsideGeofence location g = Normal (inside g)) gs.

(** The last-exit record that an EXIT event leaves. *)
Definition exitRecord (e : GeofenceEvent) : LastExit :=
  {| le_geofenceId := ev_geofenceId e;
     le_exitTime := ev_timestamp e;
     le_duration := default 0 (ev_duration e) |}.

(** The record of the last EXIT among some events, [before] if none. *)
Definition lastExitAfter (before : option LastExit) (events : list GeofenceEvent)
  : option LastExit :=
  fold_left
    (fun acc e => if decide (ev_eventType e = EXIT) then Some (exitRecord e) else acc)
    events before.

(** A presence state refers to a zone: in one of its entries, or in its
    last-exit record. *)
Definition refersTo (id : string) (st : GeofenceStatus) : Prop :=
  In id (presentIds st) \/ le_geofenceId <$> lastGeofenceExit st = Some id.

(** Every status is filed under the subject it names. *)
Definition statusKeyed (s : GeofenceService) : Prop :=
  forall userId st, userStatus s !! userId = Some st -> st_userId st = userId.

(** Only active zones are cached. *)
Definition cacheActive (s : GeofenceService) : Prop :=
  Forall (fun g => gf_isActive g = true) (activeGeofences s).

End ServiceSpecMore.

(** ** The browser-side location service ([LocationService])

    The class keeps a watch handle, an interval handle, the tracking flag
    and the last fix. The browser is environment: whether geolocation is
    there, the handles that [watchPosition] and [setInterval] return, the
    answer of the server to an update, and the item [offlineLocations] of
    [localStorage], which holds the list that [JSON.stringify] wrote (an
    item that is no JSON is not represented). *)

Module LocationService.

Inductive DistanceUnit := meters | kilometers | miles.

Record DistanceCalculation := {
  dc_fromLocation : LocationData;
  dc_toLocation : LocationData;
  dc_distance : Q;
  dc_unit : DistanceUnit
}.

Inductive LocationStatus := ACTIVE | IDLE | OFFLINE | UNKNOWN.

Record State := {
  watchId : option Z;
  isTracking : bool;
  lastKnownLocation : option LocationData;
  updateInterval : option Z
}.

(** [new LocationService()] *)
Definition initial : State :=
  {| watchId := None; isTracking := false;
     lastKnownLocation := None; updateInterval := None |}.

(** The calls made on the browser. *)
Inductive BrowserCall :=
| ClearWatch (id : Z)
| ClearInterval (handle : Z).

(** [position.coords] *)
Record Coordinates := {
  co_latitude : Q;
  co_longitude : Q;
  co_accuracy : Q;
  co_speed : option Q;
  co_heading : option Q;
  co_altitude : option Q
}.

(** [x || undefined] on a number that may be [null]. *)
Definition numberOrUndefined (x : option Q) : option Q :=
  if Route.notNumber x then None else x.

Section Methods.
Context `{JSRuntime}.

Definition toRadians (degrees : Q) : Q := (degrees * (Math_PI / 180))%Q.

(** [calculateDistance(location1, location2, unit)] *)
Definition calculateDistance (location1 location2 : LocationData)
    (unit : DistanceUnit) : DistanceCalculation :=
  let R := match unit with miles => 3959%Q | _ => 6371%Q end in
  let dLat := toRadians (loc_latitude location2 - loc_latitude location1) in
  let dLon := toRadians (loc_longitude location2 - loc_longitude location1) in
  let a := (Math_sin (dLat / 2) * Math_sin (dLat / 2) +
            Math_cos (toRadians (loc_latitude location1)) *
            Math_cos (toRadians (loc_latitude location2)) *
            Math_sin (dLon / 2) * Math_sin (dLon / 2))%Q in
  let c := (2 * Math_atan2 (Math_sqrt a) (Math_sqrt (1 - a)))%Q in
  let distance := (R * c)%Q in
  let distance :=
    match unit with meters => (distance * 1000)%Q | _ => distance end in
  {| dc_fromLocation := location1;
     dc_toLocation := location2;
     dc_distance := (inject_Z (Math_round (distance * 100)) / 100)%Q;
     dc_unit := unit |}.

(** [startTracking]: [geolocation] tells whether [navigator.geolocation]
    is there, [watch] and [interval] are the handles the browser returns. *)
Definition startTracking (geolocation : bool) (watch interval : Z) (s : State)
  : Completion unit * State :=
  if isTracking s then (Throw "Location tracking is already active", s)
  else if negb geolocation then (Throw "Geolocation not supported", s)
  else
    (Normal tt,
     {| watchId := Some watch;
        isTracking := true;
        lastKnownLocation := lastKnownLocation s;
        updateInterval := Some interval |}).

(** [stopTracking], with the calls it makes on the browser. *)
Definition stopTracking (s : State) : list BrowserCall * State :=
  let calls1 :=
    match watchId s with
    | Some id => [ClearWatch id]
    | None => []
    end in
  let '(calls2, interval) :=
    match updateInterval s with
    | Some handle =>
        if (handle =? 0)%Z then ([], Some handle) else ([ClearInterval handle], None)
    | None => ([], None)
    end in
  (calls1 ++ calls2,
   {| watchId := None;
      isTracking := false;
      lastKnownLocation := lastKnownLocation s;
      updateInterval := interval |}).

(** The position callback of [startTracking]: the fix it builds is kept
    as the last known location and handed to the callback. *)
Definition onPosition (newId now : string) (coords : Coordinates) (s : State)
  : LocationData * State :=
  let locationData :=
    {| loc_id := newId;
       loc_userId := "current-user";
       loc_latitude := co_latitude coords;
       loc_longitude := co_longitude coords;
       loc_accuracy := co_accuracy coords;
       loc_timestamp := now;
       loc_address := None;
       loc_isManual := false;
       loc_source := GPS;
       loc_speed := numberOrUndefined (co_speed coords);
       loc_heading := numberOrUndefined (co_heading coords);
       loc_altitude := numberOrUndefined (co_altitude coords) |} in
  (locationData,
   {| watchId := watchId s;
      isTracking := isTracking s;
      lastKnownLocation := Some locationData;
      updateInterval := updateInterval s |}).

(** [getTrackingStatus]: [supported] is ['geolocation' in navigator],
    [now] is [Date.now()]. *)
Definition getTrackingStatus (supported : bool) (now : Z) (s : State)
  : LocationStatus :=
  if negb supported then UNKNOWN
  else if isTracking s then ACTIVE
  else
    match lastKnownLocation s with
    | Some l =>
        let timeDiff := now - Date_getTime (loc_timestamp l) in
        if (timeDiff <? 300000)%Z then IDLE else OFFLINE
    | None => OFFLINE
    end.

(** The request that [sendLocationUpdate] posts. *)
Definition updateRequest (location : LocationData) : Route.LocationUpdateRequest :=
  {| Route.req_latitude := Some (loc_latitude location);
     Route.req_longitude := Some (loc_longitude location);
     Route.req_accuracy := Some (loc_accuracy location);
     Route.req_timestamp := Some (loc_timestamp location);
     Route.req_source := Some (loc_source location);
     Route.req_speed := loc_speed location;
     Route.req_heading := loc_heading location;
     Route.req_altitude := loc_altitude location |}.

(** [storeOfflineLocation] on the item [offlineLocations]. *)
Definition storeOfflineLocation (location : LocationData)
    (storage : option (list LocationData)) : option (list LocationData) :=
  Some (default [] storage ++ [location]).

(** [sendLocationUpdate]: [ok] tells whether the request went through
    with [response.ok]; otherwise the location is kept for later. *)
Definition sendLocationUpdate (ok : bool) (location : LocationData)
    (storage : option (list LocationData)) : option (list LocationData) :=
  if ok then storage else storeOfflineLocation location storage.

(** The loop of [syncOfflineLocations]; [oks k] answers the [k]-th send. *)
Fixpoint sendAll (oks : nat -> bool) (k : nat) (locations : list LocationData)
    (storage : option (list LocationData)) : option (list LocationData) :=
  match locations with
  | [] => storage
  | location :: rest =>
      sendAll oks (S k) rest (sendLocationUpdate (oks k) location storage)
  end.

(** [syncOfflineLocations] *)
Definition syncOfflineLocations (oks : nat -> bool)
    (storage : option (list LocationData)) : option (list LocationData) :=
  let offlineLocations := default [] storage in
  match offlineLocations with
  | [] => storage
  | _ =>
      let _ := sendAll oks 0 offlineLocations storage in
      None
  end.

(** The demo server behind [/api/location]: the answer of [Route.POST] is
    [ok] when it is no error. *)
Definition postOk (response : Route.PostResponse) : bool :=
  match response with
  | Route.PostSuccess _ _ _ => true
  | Route.PostError _ _ => false
  end.

(** The locations of a queue whose send fails, the first send being the
    [k]-th. *)
Fixpoint failedSends (oks : nat -> bool) (k : nat) (locations : list LocationData)
  : list LocationData :=
  match locations with
  | [] => []
  | location :: rest =>
      if oks k then failedSends oks (S k) rest
      else location :: failedSends oks (S k) rest
  end.

End Methods.

End LocationService.

(** ** The authentication API (second part of [route.ts], types of
    [src/types/user.ts])

    [Date.now()] is read three times while a session is built; [clock k]
    is the [k]-th reading. The encoding of the access token
    ([Buffer.from(JSON.stringify(payload)).toString('base64')]) and
    [toISOString] are parameters. *)

Module Auth.

Inductive UserRole := ADMIN | MANAGER | EMPLOYEE | RoleOther.

Record DemoUser := {
  du_id : string;
  du_email : string;
  du_password : string;
  du_name : string;
  du_role : UserRole;
  du_companyId : string;
  du_isActive : bool;
  du_createdAt : string;
  du_updatedAt : string
}.

(** [User], without the optional fields that a session never sets. *)
Record User := {
  u_id : string;
  u_email : string;
  u_name : string;
  u_role : UserRole;
  u_companyId : string;
  u_createdAt : string;
  u_updatedAt : string;
  u_isActive : bool
}.

Record DayHours := { dh_start : string; dh_end : string; dh_enabled : bool }.

Record WorkingHours := {
  monday : DayHours;
  tuesday : DayHours;
  wednesday : DayHours;
  thursday : DayHours;
  friday : DayHours;
  saturday : DayHours;
  sunday : DayHours
}.

Record PrivacySettings := {
  requireConsent : bool;
  allowDataExport : bool;
  allowDataDeletion : bool;
  showLocationHistory : bool;
  shareLocationWithTeam : bool
}.

Record CompanySettings := {
  trackingEnabled : bool;
  workingHours : WorkingHours;
  geofencingEnabled : bool;
  attendanceTracking : bool;
  dataRetentionDays : Z;
  privacySettings : PrivacySettings
}.

Record Company := {
  co_id : string;
  co_name : string;
  co_address : string;
  co_timezone : string;
  co_settings : CompanySettings;
  co_createdAt : string;
  co_updatedAt : string
}.

Record Permission := { resource : string; actions : list string }.

Record Session := {
  se_user : User;
  se_company : Company;
  se_permissions : list Permission;
  se_accessToken : string;
  se_expiresAt : string
}.

Record LoginRequest := {
  lr_email : option string;
  lr_password : option string
}.

Inductive LoginResponse :=
| LoginError (status : Z) (error : string)
| LoginOk (message : string) (user : User) (company : Company) (cookie : Session).

Definition DEMO_USERS : list DemoUser :=
  [ {| du_id := "1";
       du_email := "admin@company.com";
       du_password := "admin123";
       du_name := "John Admin";
       du_role := ADMIN;
       du_companyId := "1";
       du_isActive := true;
       du_createdAt := "2024-01-01T00:00:00Z";
       du_updatedAt := "2024-01-01T00:00:00Z" |};
    {| du_id := "2";
       du_email := "manager@company.com";
       du_password := "manager123";
       du_name := "Jane Manager";
       du_role := MANAGER;
       du_companyId := "1";
       du_isActive := true;
       du_createdAt := "2024-01-01T00:00:00Z";
       du_updatedAt := "2024-01-01T00:00:00Z" |} ].

Definition officeHours (enabled : bool) : DayHours :=
  {| dh_start := "09:00"; dh_end := "17:00"; dh_enabled := enabled |}.

Definition DEMO_COMPANY : Company :=
  {| co_id := "1";
     co_name := "Acme Corporation";
     co_address := "New York, NY";
     co_timezone := "America/New_York";
     co_settings :=
       {| trackingEnabled := true;
          workingHours :=
            {| monday := officeHours true;
               tuesday := officeHours true;
               wednesday := officeHours true;
               thursday := officeHours true;
               friday := officeHours true;
               saturday := officeHours false;
               sunday := officeHours false |};
          geofencingEnabled := true;
          attendanceTracking := true;
          dataRetentionDays := 90;
          privacySettings :=
            {| requireConsent := true;
               allowDataExport := true;
               allowDataDeletion := true;
               showLocationHistory := true;
               shareLocationWithTeam := false |} |};
     co_createdAt := "2024-01-01T00:00:00Z";
     co_updatedAt := "2024-01-01T00:00:00Z" |}.

Definition basePermissions : list Permission :=
  [ {| resource := "profile"; actions := ["read"; "update"] |};
    {| resource := "location"; actions := ["read"] |} ].

Definition getPermissionsByRole (role : UserRole) : list Permission :=
  match role with
  | ADMIN =>
      basePermissions ++
      [ {| resource := "users"; actions := ["create"; "read"; "update"; "delete"] |};
        {| resource := "company"; actions := ["read"; "update"] |};
        {| resource := "geofences"; actions := ["create"; "read"; "update"; "delete"] |};
        {| resource := "reports"; actions := ["read"; "export"] |};
        {| resource := "settings"; actions := ["read"; "update"] |} ]
  | MANAGER =>
      basePermissions ++
      [ {| resource := "users"; actions := ["read"; "update"] |};
        {| resource := "geofences"; actions := ["read"; "update"] |};
        {| resource := "reports"; actions := ["read"; "export"] |} ]
  | EMPLOYEE =>
      basePermissions ++
      [ {| resource := "privacy"; actions := ["read"; "update"] |};
        {| resource := "consent"; actions := ["read"; "update"] |} ]
  | RoleOther => basePermissions
  end.

Section Login.
Variable base64Json : string -> Z -> Z -> string.
Variable toISOString : Z -> string.

Definition day : Z := 24 * 60 * 60 * 1000.

(** [generateAccessToken]; the clock is read for [iat], then for [exp]. *)
Definition generateAccessToken (clock : nat -> Z) (userId : string) : string :=
  base64Json userId (clock 0%nat) (clock 1%nat + day).

(** [POST] of the authentication API. *)
Definition POST (clock : nat -> Z) (body : LoginRequest) : LoginResponse :=
  if Route.notString (lr_email body) || Route.notString (lr_password body)
  then LoginError 400 "Email and password are required"
  else
    let email := default "" (lr_email body) in
    let password := default "" (lr_password body) in
    match List.find (fun u => String.eqb (du_email u) email) DEMO_USERS with
    | None => LoginError 401 "Invalid credentials"
    | Some user =>
        if negb (String.eqb (du_password user) password)
        then LoginError 401 "Invalid credentials"
        else if negb (du_isActive user)
        then LoginError 403 "Account is inactive"
        else
          let sessionUser :=
            {| u_id := du_id user;
               u_email := du_email user;
               u_name := du_name user;
               u_role := du_role user;
               u_companyId := du_companyId user;
               u_createdAt := du_createdAt user;
               u_updatedAt := du_updatedAt user;
               u_isActive := du_isActive user |} in
          let session :=
            {| se_user := sessionUser;
               se_company := DEMO_COMPANY;
               se_permissions := getPermissionsByRole (du_role user);
               se_accessToken := generateAccessToken clock (du_id user);
               se_expiresAt := toISOString (clock 2%nat + day) |} in
          LoginOk "Login successful" (se_user session) (se_company session) session
    end.

End Login.

(** The pairs of email and password that the demo knows. *)
Definition demoCredentials : list (string * string) :=
  [ ("admin@company.com", "admin123"); ("manager@company.com", "manager123") ].

(** A permission grants what another grants: the same resource, and each
    of its actions. *)
Definition grantsAll (q p : Permission) : Prop :=
  resource q = resource p /\ Forall (fun a => In a (actions q)) (actions p).

End Auth.

(** ** Sample data

    A rational stand-in for the runtime, coarse on the transcendental
    functions (small angles: [sin x] is [x], [cos x] is [1], and the
    angle of the haversine term is taken for the term itself), exact on
    the dates of the first day of the epoch and on [toFixed(4)]. The
    theorems below hold for every runtime; this one runs the examples. *)

Module Sample.

Definition digitValue (c : ascii) : Z := Z.of_nat (nat_of_ascii c) - 48.

Definition twoDigits (s : string) (i : nat) : Z :=
  match String.get i s, String.get (S i) s with
  | Some a, Some b => 10 * digitValue a + digitValue b
  | _, _ => 0
  end.

(** The instant of ["1970-01-01THH:MM:SSZ"]. *)
Definition getTime (s : string) : Z :=
  if String.prefix "1970-01-01T" s
  then ((twoDigits s 11 * 60 + twoDigits s 14) * 60 + twoDigits s 17) * 1000
  else 0.

Definition pad4 (n : Z) : string :=
  pretty (n / 1000 mod 10) +:+ pretty (n / 100 mod 10) +:+
  pretty (n / 10 mod 10) +:+ pretty (n mod 10).

Definition toFixed4 (x : Q) : string :=
  let n := Qfloor (Qabs x * 10000 + (1 # 2)) in
  (if Qlt_bool x 0 then "-" else "") +:+
  pretty (n / 10000) +:+ "." +:+ pad4 (n mod 10000).

Definition runtime : JSRuntime :=
  {| Math_PI := 355 # 113;
     Math_sin := fun x => x;
     Math_cos := fun _ => 1%Q;
     Math_sqrt := fun x => Qabs x;
     Math_atan2 := fun y _ => y;
     Date_getTime := getTime;
     Number_toFixed4 := toFixed4 |}.

Definition point (lat lon : Z) : Point :=
  {| pt_latitude := inject_Z lat; pt_longitude := inject_Z lon |}.

Definition weekdays : GeofenceWorkingHours :=
  {| wh_enabled := true;
     wh_schedule :=
       <["mon" := {| ds_start := "09:00"; ds_end := "17:00"; ds_active := true |}]>
       (<["sat" := {| ds_start := "09:00"; ds_end := "17:00"; ds_active := false |}]>
        ∅) |}.

(** The square (0,0), (0,10), (10,10), (10,0). *)
Definition square : Geofence :=
  {| gf_id := "zone-1";
     gf_companyId := "1";
     gf_name := "Main Office";
     gf_type := WORKPLACE;
     gf_shape := polygon;
     gf_coordinates :=
       {| center := None;
          points := Some [point 0 0; point 0 10; point 10 10; point 10 0] |};
     gf_radius := None;
     gf_isActive := true;
     gf_workingHours := Some weekdays |}.

Definition closedSquare : Geofence :=
  {| gf_id := "zone-1";
     gf_companyId := "1";
     gf_name := "Main Office";
     gf_type := WORKPLACE;
     gf_shape := polygon;
     gf_coordinates := gf_coordinates square;
     gf_radius := None;
     gf_isActive := false;
     gf_workingHours := Some weekdays |}.

Definition fixAt (lat lon : Z) (timestamp : string) : LocationData :=
  {| loc_id := "fix";
     loc_userId := "1";
     loc_latitude := inject_Z lat;
     loc_longitude := inject_Z lon;
     loc_accuracy := 10;
     loc_timestamp := timestamp;
     loc_address := None;
     loc_isManual := false;
     loc_source := GPS;
     loc_speed := None;
     loc_heading := None;
     loc_altitude := None |}.

Definition fix1 : LocationData := fixAt 5 5 "1970-01-01T00:00:00Z".
Definition fix2 : LocationData := fixAt 6 4 "1970-01-01T00:01:00Z".
Definition fix3 : LocationData := fixAt 15 15 "1970-01-01T00:02:05Z".

Definition monday10 : Date := {| getDay := Mon; getHours := 10; getMinutes := 30 |}.

Definition genId (k : nat) : string := "event-" +:+ pretty k.

Definition service : GeofenceService :=
  {| activeGeofences := [square]; userStatus := ∅ |}.

(** The subject entered the square at midnight. *)
Definition occupiedService : GeofenceService :=
  {| activeGeofences := [square];
     userStatus :=
       <["1" := {| st_userId := "1";
                   currentGeofences :=
                     [{| pe_geofenceId := "zone-1";
                         pe_entryTime := "1970-01-01T00:00:00Z";
                         pe_isAuthorized := true |}];
                   lastGeofenceExit := None |}]> ∅ |}.

(** The subject is known, and in no zone. *)
Definition resetService : GeofenceService :=
  {| activeGeofences := [square];
     userStatus := <["1" := freshStatus "1"]> ∅ |}.

(** A fix on the equator, with its three required fields. *)
Definition equatorFix : Route.LocationUpdateRequest :=
  {| Route.req_latitude := Some 0%Q;
     Route.req_longitude := Some (-784678 # 10000);
     Route.req_accuracy := Some 10%Q;
     Route.req_timestamp := Some "2024-01-15T10:30:00Z";
     Route.req_source := Some GPS;
     Route.req_speed := None;
     Route.req_heading := None;
     Route.req_altitude := None |}.

(** A fix off the equator and off the prime meridian. *)
Definition quitoFix : Route.LocationUpdateRequest :=
  {| Route.req_latitude := Some (-2 # 10);
     Route.req_longitude := Some (-784678 # 10000);
     Route.req_accuracy := Some 10%Q;
     Route.req_timestamp := Some "2024-01-15T10:30:00Z";
     Route.req_source := Some GPS;
     Route.req_speed := None;
     Route.req_heading := None;
     Route.req_altitude := None |}.

(** One degree in an hour, then two degrees in half an hour. *)
Definition track : list LocationData :=
  [fixAt 0 0 "1970-01-01T00:00:00Z";
   fixAt 0 1 "1970-01-01T01:00:00Z";
   fixAt 0 3 "1970-01-01T01:30:00Z"].

Definition wholeDay : Route.DateRange :=
  {| Route.dr_start := Some "1970-01-01T00:00:00Z";
     Route.dr_end := Some "1970-01-01T23:59:59Z" |}.

(** The service under the sample runtime, on a Monday at 10:30. *)
Definition inside := @isLocationInsideGeofence runtime.
Definition check := @checkGeofenceEntry runtime monday10 genId.

End Sample.

(** ** Further sample data *)

Module Cases.

(** A circle whose centre is missing. *)
Definition broken : Geofence :=
  {| gf_id := "zone-2";
     gf_companyId := "1";
     gf_name := "Depot";
     gf_type := CLIENT_SITE;
     gf_shape := circle;
     gf_coordinates := {| center := None; points := None |};
     gf_radius := Some 100%Q;
     gf_isActive := true;
     gf_workingHours := None |}.

Definition disc (id : string) (radius : option Q) : Geofence :=
  {| gf_id := id;
     gf_companyId := "1";
     gf_name := "Yard";
     gf_type := CUSTOM;
     gf_shape := circle;
     gf_coordinates := {| center := Some (Sample.point 5 5); points := None |};
     gf_radius := radius;
     gf_isActive := true;
     gf_workingHours := None |}.

(** The square renamed, as an update would answer it. *)
Definition renamedSquare : Geofence :=
  {| gf_id := "zone-1";
     gf_companyId := "1";
     gf_name := "Head Office";
     gf_type := WORKPLACE;
     gf_shape := polygon;
     gf_coordinates := gf_coordinates Sample.square;
     gf_radius := None;
     gf_isActive := true;
     gf_workingHours := None |}.

(** The square, then the broken circle; the subject is known. *)
Definition knownService : GeofenceService :=
  {| activeGeofences := [Sample.square; broken];
     userStatus := <["1" := freshStatus "1"]> ∅ |}.

(** The broken circle alone; no subject is known. *)
Definition unknownService : GeofenceService :=
  {| activeGeofences := [broken]; userStatus := ∅ |}.

(** The square and a disc; two subjects, the second one in the disc. *)
Definition twoZones : GeofenceService :=
  {| activeGeofences := [Sample.square; disc "zone-3" (Some 100%Q)];
     userStatus :=
       <["7" := {| st_userId := "7";
                   currentGeofences :=
                     [{| pe_geofenceId := "zone-3";
                         pe_entryTime := "1970-01-01T00:00:00Z";
                         pe_isAuthorized := true |}];
                   lastGeofenceExit := None |}]> ∅ |}.

Definition insideTwoZones (g : Geofence) : bool := String.eqb (gf_id g) "zone-1".

(** A fix in a corner of the square, away from the disc. *)
Definition cornerFix : LocationData := Sample.fixAt 1 1 "1970-01-01T00:01:00Z".

(** A fix far from the square and from the disc. *)
Definition farFix : LocationData := Sample.fixAt 40 40 "1970-01-01T00:02:05Z".

(** A store with the track of the demo user and a record of another. *)
Definition otherRecord : LocationData :=
  {| loc_id := "9";
     loc_userId := "2";
     loc_latitude := 40;
     loc_longitude := -73;
     loc_accuracy := 15;
     loc_timestamp := "1970-01-01T00:30:00Z";
     loc_address := Some "Client Site A";
     loc_isManual := false;
     loc_source := GPS;
     loc_speed := None;
     loc_heading := None;
     loc_altitude := None |}.

Definition store : list LocationData := otherRecord :: Sample.track.

Definition query (limit : option (option Z)) : Route.QueryParams :=
  {| Route.qp_userId := Some "1";
     Route.qp_startDate := None;
     Route.qp_endDate := Some "1970-01-01T01:00:00Z";
     Route.qp_limit := limit;
     Route.qp_includeAddress := None |}.

(** The answers of a server that takes every other update. *)
Definition everyOther (k : nat) : bool := Nat.even k.

Definition queue : list LocationData := [Sample.fix1; Sample.fix2; Sample.fix3].

Definition token (userId : string) (iat exp : Z) : string :=
  userId +:+ "." +:+ pretty iat +:+ "." +:+ pretty exp.

(** Working hours written without the leading zero. *)
Definition unpaddedHours : GeofenceWorkingHours :=
  {| wh_enabled := true;
     wh_schedule :=
       <["mon" := {| ds_start := "9:00"; ds_end := "17:00"; ds_active := true |}]> ∅ |}.

Definition unpaddedSquare : Geofence :=
  {| gf_id := "zone-1";
     gf_companyId := "1";
     gf_name := "Main Office";
     gf_type := WORKPLACE;
     gf_shape := polygon;
     gf_coordinates := gf_coordinates Sample.square;
     gf_radius := None;
     gf_isActive := true;
     gf_workingHours := Some unpaddedHours |}.

(** The subject entered the square and left it; then the square was
    deleted. *)
Definition afterDeletion : GeofenceService :=
  snd (@run Sample.runtime
         [OpCheck Sample.monday10 Sample.genId Sample.fix1 "1";
          OpCheck Sample.monday10 Sample.genId Sample.fix3 "1";
          OpDelete "zone-1" true]
         Sample.service).

(** The server answered a creation with the zone that was loaded before;
    then the subject entered the square. *)
Definition twiceCached : GeofenceService :=
  snd (@run Sample.runtime
         [OpLoad (Some [Sample.square]);
          OpCreate (Some Sample.square);
          OpCheck Sample.monday10 Sample.genId Sample.fix1 "1"]
         newGeofenceService).

(** The square switched off in [twiceCached]. *)
Definition switchedOff : GeofenceService :=
  snd (updateGeofence "zone-1" (Some Sample.closedSquare) twiceCached).

End Cases.

(** ** IEEE 754 doubles

    The numbers of the engine themselves, on the primitive binary64
    numbers of Rocq: the four operations, the comparison and the square
    root are those of IEEE 754. A literal is the quotient of its numerator
    by its denominator, which is the double nearest to it when both are
    below 2^53. [Math.round] is computed for every double. [Math.sin],
    [Math.cos] and [Math.atan2] are given where the examples need them, at
    0 and at a quarter turn, where every engine returns these values; NaN
    stands for any other argument. The timestamps are those of the first
    day of the epoch. *)

Module Binary64.

Fixpoint ofPositive (p : positive) : float :=
  match p with
  | xH => 1%float
  | xO q => (2 * ofPositive q)%float
  | xI q => (2 * ofPositive q + 1)%float
  end.

Definition ofZ (z : Z) : float :=
  match z with
  | Z0 => 0%float
  | Zpos p => ofPositive p
  | Zneg p => (- ofPositive p)%float
  end.

Definition literal (q : Q) : float := (ofZ (Qnum q) / ofPositive (Qden q))%float.

Definition two52 : float := 0x1p52%float.

(** [Math.floor] below 2^52: the nearest integer, one less when that is
    above. *)
Definition floor (x : float) : float :=
  let r := if (x <? 0)%float then (x - two52 + two52)%float
           else (x + two52 - two52)%float in
  if (x <? r)%float then (r - 1)%float else r.

(** [Math.round]: halves go up; from 2^52 on, and on NaN, the number
    itself. *)
Definition Math_round (x : float) : float :=
  if (abs x <? two52)%float
  then let f := floor x in
       if (x - f <? 0.5)%float then f else (f + 1)%float
  else x.

Definition Math_PI : float := 0x1.921fb54442d18p+1%float.

Definition halfPI : float := (Math_PI / 2)%float.

Definition Math_sin (x : float) : float :=
  if (x =? 0)%float then x
  else if (x =? halfPI)%float then 1%float
  else if (x =? - halfPI)%float then (-1)%float
  else nan.

Definition Math_cos (x : float) : float :=
  if (x =? 0)%float then 1%float else nan.

Definition Math_atan2 (y x : float) : float :=
  if (y =? 0)%float && (0 <? x)%float then y
  else if (0 <? y)%float && (x =? 0)%float then halfPI
  else nan.

Definition Date_getTime (timestamp : string) : float := ofZ (Sample.getTime timestamp).

Definition numbers : Numeric.Numbers :=
  {| Numeric.number := float;
     Numeric.literal := literal;
     Numeric.add := PrimFloat.add;
     Numeric.sub := PrimFloat.sub;
     Numeric.mul := PrimFloat.mul;
     Numeric.div := PrimFloat.div;
     Numeric.gt := fun a b => PrimFloat.ltb b a;
     Numeric.Math_round := Math_round;
     Numeric.Math_PI := Math_PI;
     Numeric.Math_sin := Math_sin;
     Numeric.Math_cos := Math_cos;
     Numeric.Math_sqrt := PrimFloat.sqrt;
     Numeric.Math_atan2 := Math_atan2;
     Numeric.Date_getTime := Date_getTime |}.

(** Two fixes at the same place, an hour and 18 seconds apart. *)
Definition hourAnd18 : list LocationData :=
  [Sample.fixAt 0 0 "1970-01-01T00:00:00Z"; Sample.fixAt 0 0 "1970-01-01T01:00:18Z"].

(** Half way round the equator in 20 hours, and back in 3. *)
Definition roundTrip : list LocationData :=
  [Sample.fixAt 0 0 "1970-01-01T00:00:00Z";
   Sample.fixAt 0 180 "1970-01-01T20:00:00Z";
   Sample.fixAt 0 0 "1970-01-01T23:00:00Z"].

End Binary64.


(** * Properties of the presence tracker *)

Section ServiceFacts.
Context `{JSRuntime}.

Lemma hasGeofence_entriesOf id st :
  hasGeofence id st =
  match entriesOf id (currentGeofences st) with [] => false | _ => true end.
Proof.
  unfold hasGeofence, entriesOf.
  induction (currentGeofences st) as [|e l IH]; simpl; [done|].
  destruct (String.eqb (pe_geofenceId e) id); simpl; done.
Qed.

Lemma find_entriesOf id l :
  List.find (fun e => String.eqb (pe_geofenceId e) id) l = head (entriesOf id l).
Proof.
  unfold entriesOf. induction l as [|e l IH]; simpl; [done|].
  destruct (String.eqb (pe_geofenceId e) id); simpl; done.
Qed.

Lemma entriesOf_app id l1 l2 :
  entriesOf id (l1 ++ l2) = entriesOf id l1 ++ entriesOf id l2.
Proof. unfold entriesOf. apply List.filter_app. Qed.

Lemma entriesOf_purge_ne id id' l :
  id' <> id ->
  entriesOf id' (List.filter (fun e => negb (String.eqb (pe_geofenceId e) id)) l)
  = entriesOf id' l.
Proof.
  intros Hne. unfold entriesOf. induction l as [|e l IH]; simpl; [done|].
  destruct (String.eqb (pe_geofenceId e) id) eqn:E1; simpl.
  - apply String.eqb_eq in E1.
    destruct (String.eqb (pe_geofenceId e) id') eqn:E2; [|done].
    apply String.eqb_eq in E2. congruence.
  - rewrite IH. done.
Qed.

Lemma entriesOf_purge_eq id l :
  entriesOf id (List.filter (fun e => negb (String.eqb (pe_geofenceId e) id)) l) = [].
Proof.
  unfold entriesOf. induction l as [|e l IH]; simpl; [done|].
  destruct (String.eqb (pe_geofenceId e) id) eqn:E1; simpl; [done|].
  rewrite E1. done.
Qed.

Lemma hasGeofence_false_notin id st :
  hasGeofence id st = false ->
  ~ In id (List.map pe_geofenceId (currentGeofences st)).
Proof.
  unfold hasGeofence. intros Hex Hin.
  apply List.in_map_iff in Hin as (e & He & Hin).
  assert (existsb (fun g => String.eqb (pe_geofenceId g) id) (currentGeofences st) = true)
    as Ht.
  { apply List.existsb_exists. exists e. split; [done|]. by apply String.eqb_eq. }
  congruence.
Qed.

(** ** One turn of the loop *)

Lemma diffGeofence_Turn now genId location userId g isInside events st :
  Turn now genId location userId g isInside events st
    (fst (diffGeofence now genId location userId g isInside events st))
    (snd (diffGeofence now genId location userId g isInside events st)).
Proof.
  unfold diffGeofence.
  destruct isInside, (hasGeofence (gf_id g) st) eqn:Hw; simpl.
  - by apply TurnStay.
  - by apply TurnEnter.
  - by apply TurnExit.
  - by apply TurnStay.
Qed.

(** An invariant of the turns is an invariant of the loop, however the
    loop ends. *)
Lemma forGeofences_invariant (P : list GeofenceEvent -> GeofenceStatus -> Prop)
    now genId location userId gs :
  (forall g isInside events st events' st',
      In g gs -> P events st ->
      Turn now genId location userId g isInside events st events' st' ->
      P events' st') ->
  forall events st c st',
    P events st ->
    forGeofences now genId location userId gs events st = (c, st') ->
    exists events', P events' st' /\ (c = Normal events' \/ exists e, c = Throw e).
Proof.
  induction gs as [|g gs IH]; intros Hstep events st c st' HP Hrun; simpl in Hrun.
  - inversion Hrun; subst. exists events. auto.
  - destruct (isLocationInsideGeofence location g) as [isInside|e] eqn:Hin.
    + pose proof (diffGeofence_Turn now genId location userId g isInside events st) as HT.
      destruct (diffGeofence now genId location userId g isInside events st)
        as [events1 st1]; simpl in HT.
      eapply IH; [| |exact Hrun].
      * intros g0 b ev0 s0 ev1 s1 Hg0. apply Hstep. by right.
      * eapply Hstep; [by left|exact HP|exact HT].
    + inversion Hrun; subst. exists events. split; [done|]. right. by exists e.
Qed.

End ServiceFacts.

(** * Uniqueness of presence entries *)

Section PresenceUnique.
Context `{JSRuntime}.

Lemma NoDup_map_filter {A B} (f : A -> B) (p : A -> bool) (l : list A) :
  NoDup (List.map f l) -> NoDup (List.map f (List.filter p l)).
Proof.
  induction l as [|a l IH]; simpl; intros Hnd; [done|].
  apply NoDup_cons in Hnd as [Hnotin Hnd].
  destruct (p a); simpl; [|by apply IH].
  apply NoDup_cons. split; [|by apply IH].
  intros Hin. apply Hnotin.
  apply list_elem_of_In in Hin. apply list_elem_of_In.
  apply List.in_map_iff in Hin as (x & Hx & Hin).
  apply List.in_map_iff. exists x. split; [done|].
  apply List.filter_In in Hin. tauto.
Qed.

Lemma Turn_presentIds_NoDup now genId location userId g b events st events' st' :
  Turn now genId location userId g b events st events' st' ->
  NoDup (presentIds st) -> NoDup (presentIds st').
Proof.
  intros HT Hnd. destruct HT as [_ Hw|_ _|_]; [| |done].
  - unfold presentIds, pushed; simpl. rewrite List.map_app. simpl.
    apply NoDup_app. split; [done|]. split.
    + intros x Hx Hx'. apply list_elem_of_singleton in Hx'. subst x.
      apply hasGeofence_false_notin in Hw. apply Hw. by apply list_elem_of_In.
    + apply NoDup_singleton.
  - unfold presentIds, left_; simpl. by apply NoDup_map_filter.
Qed.

Lemma forGeofences_presentIds_NoDup now genId location userId gs events st c st' :
  NoDup (presentIds st) ->
  forGeofences now genId location userId gs events st = (c, st') ->
  NoDup (presentIds st').
Proof.
  intros Hnd Hrun.
  destruct (forGeofences_invariant (fun _ st0 => NoDup (presentIds st0))
              now genId location userId gs) with (events := events) (st := st)
              (c := c) (st' := st') as (ev & Hres & _); [|done|done|done].
  intros g b ev0 s0 ev1 s1 _ Hs HT. by eapply Turn_presentIds_NoDup.
Qed.

Lemma statusOf_presentIds_NoDup userId s :
  presenceUnique s -> NoDup (presentIds (statusOf userId s)).
Proof.
  intros Hs. unfold statusOf.
  destruct (userStatus s !! userId) as [st|] eqn:E; simpl.
  - by eapply Hs.
  - apply NoDup_nil_2.
Qed.

Lemma checkGeofenceEntry_presenceUnique now genId location userId s :
  presenceUnique s ->
  presenceUnique (snd (checkGeofenceEntry now genId location userId s)).
Proof.
  intros Hs. unfold checkGeofenceEntry.
  pose proof (statusOf_presentIds_NoDup userId s Hs) as Hnd. unfold statusOf in Hnd.
  destruct (forGeofences now genId location userId (activeGeofences s) []
              (default (freshStatus userId) (userStatus s !! userId)))
    as [c st'] eqn:Hrun.
  pose proof (forGeofences_presentIds_NoDup _ _ _ _ _ _ _ _ _ Hnd Hrun) as Hnd'.
  assert (presenceUnique
            {| activeGeofences := activeGeofences s;
               userStatus := <[userId := st']> (userStatus s) |}) as Hins.
  { intros u st; simpl. rewrite lookup_insert.
    case_decide; [intros [= <-]; done|]. apply Hs. }
  destruct c as [events|e]; simpl; [exact Hins|].
  destruct (userStatus s !! userId); [exact Hins|].
  intros u st; simpl. apply Hs.
Qed.

Lemma deleteGeofence_presenceUnique id ok s :
  presenceUnique s -> presenceUnique (snd (deleteGeofence id ok s)).
Proof.
  intros Hs. unfold deleteGeofence. destruct ok; simpl; [|done].
  intros u st; simpl. rewrite lookup_fmap.
  destruct (userStatus s !! u) as [st0|] eqn:E; simpl; [|done].
  intros [= <-]. unfold presentIds, purgeGeofence; simpl.
  apply NoDup_map_filter. by eapply Hs.
Qed.

Lemma exec_presenceUnique op s :
  presenceUnique s -> presenceUnique (snd (exec op s)).
Proof.
  intros Hs. destruct op as [r|r|id r|id ok|now genId location userId]; simpl.
  - destruct r; simpl; done.
  - destruct r as [g|]; simpl; [|done]. destruct (gf_isActive g); done.
  - destruct r as [g|]; simpl; [|done].
    destruct (findIndex id (activeGeofences s)), (gf_isActive g); done.
  - by apply deleteGeofence_presenceUnique.
  - pose proof (checkGeofenceEntry_presenceUnique now genId location userId s Hs) as Hc.
    destruct (checkGeofenceEntry now genId location userId s); done.
Qed.

Lemma run_presenceUnique ops s :
  presenceUnique s -> presenceUnique (snd (run ops s)).
Proof.
  revert s. induction ops as [|op ops IH]; intros s Hs; simpl; [done|].
  pose proof (exec_presenceUnique op s Hs) as Hop.
  destruct (exec op s) as [events s1]; simpl in Hop.
  specialize (IH s1 Hop). destruct (run ops s1) as [events' s2]; done.
Qed.

(** C3. In every state that a sequence of calls on a new service reaches
    (evaluations of fixes and deletions of zones, and loads, creations and
    updates as well, completed or interrupted), the list of current
    geofences of every subject holds each zone id at most once. *)
Theorem presence_entries_unique :
  forall ops : list Op, presenceUnique (snd (run ops newGeofenceService)).
Proof.
  intros ops. apply run_presenceUnique.
  intros u st. unfold newGeofenceService; simpl. by rewrite lookup_empty.
Qed.

End PresenceUnique.

(** * The events of one evaluation *)

Section Events.
Context `{JSRuntime}.

Lemma Turn_isEnterOrExit now genId location userId g b events st events' st' :
  Turn now genId location userId g b events st events' st' ->
  Forall isEnterOrExit events -> Forall isEnterOrExit events'.
Proof.
  intros HT Hev. destruct HT; [| |done].
  - apply Forall_app. split; [done|]. apply Forall_singleton. by left.
  - apply Forall_app. split; [done|]. apply Forall_singleton. by right.
Qed.

(** C9. Whatever the fix, the zone set and the presence state, every event
    that [checkGeofenceEntry] returns has type ENTER or EXIT: the
    containment diff never emits DWELL. *)
Theorem checkGeofenceEntry_never_dwell :
  forall now genId location userId (s : GeofenceService),
    Forall (fun e => isEnterOrExit e /\ ev_eventType e <> DWELL)
      (emitted (fst (checkGeofenceEntry now genId location userId s))).
Proof.
  intros now genId location userId s. unfold checkGeofenceEntry.
  destruct (forGeofences now genId location userId (activeGeofences s) []
              (default (freshStatus userId) (userStatus s !! userId)))
    as [c st'] eqn:Hrun.
  destruct (forGeofences_invariant (fun evs _ => Forall isEnterOrExit evs)
              now genId location userId (activeGeofences s))
    with (events := @nil GeofenceEvent)
         (st := default (freshStatus userId) (userStatus s !! userId))
         (c := c) (st' := st') as (ev & Hres & Hc); [|done|done|].
  { intros g b ev0 s0 ev1 s1 _ Hs HT. by eapply Turn_isEnterOrExit. }
  destruct c as [events|e]; simpl; [|done].
  destruct Hc as [[= ->]|[e [=]]].
  eapply Forall_impl; [exact Hres|].
  intros e [He|He]; (split; [by (left + right)|by rewrite He]).
Qed.

End Events.

(** * Deleting a zone *)

Section Deletion.
Context `{JSRuntime}.

Lemma statusOf_purge id userId s :
  currentGeofences (statusOf userId (snd (deleteGeofence id true s)))
  = List.filter (fun g => negb (String.eqb (pe_geofenceId g) id))
      (currentGeofences (statusOf userId s)).
Proof.
  unfold statusOf; simpl. rewrite lookup_fmap.
  destruct (userStatus s !! userId); simpl; done.
Qed.

(** C7. A successful [deleteGeofence id] leaves no zone with that id in the
    cache of active zones and keeps the other zones; in the presence state
    of every subject it leaves no entry for that id, keeps the entries of
    every other id and the last-exit record as they were, and the call
    hands back no event. *)
Theorem deleteGeofence_purges :
  forall (id : string) (s : GeofenceService),
    fst (deleteGeofence id true s) = Normal tt /\
    ~ In id (zoneIds (snd (deleteGeofence id true s))) /\
    (forall g, In g (activeGeofences (snd (deleteGeofence id true s))) <->
               In g (activeGeofences s) /\ gf_id g <> id) /\
    (forall userId, entriesFor id userId (snd (deleteGeofence id true s)) = []) /\
    (forall userId st', userStatus (snd (deleteGeofence id true s)) !! userId = Some st' ->
                        ~ In id (presentIds st')) /\
    (forall userId id', id' <> id ->
        entriesFor id' userId (snd (deleteGeofence id true s)) = entriesFor id' userId s) /\
    (forall userId,
        lastGeofenceExit <$> userStatus (snd (deleteGeofence id true s)) !! userId
        = lastGeofenceExit <$> userStatus s !! userId) /\
    fst (exec (OpDelete id true) s) = [].
Proof.
  intros id s. split; [done|]. split; [|split; [|split; [|split; [|split; [|split]]]]].
  - unfold zoneIds; simpl. intros Hin.
    apply List.in_map_iff in Hin as (g & Hg & Hin).
    apply List.filter_In in Hin as [_ Hne].
    apply negb_true_iff in Hne. apply String.eqb_neq in Hne. done.
  - intros g; simpl. rewrite List.filter_In, negb_true_iff, String.eqb_neq. done.
  - intros userId. unfold entriesFor. rewrite statusOf_purge.
    apply entriesOf_purge_eq.
  - intros userId st'; simpl. rewrite lookup_fmap.
    destruct (userStatus s !! userId) as [st|]; simpl; [|done].
    intros [= <-]. unfold presentIds, purgeGeofence; simpl. intros Hin.
    apply List.in_map_iff in Hin as (e & He & Hin).
    apply List.filter_In in Hin as [_ Hne].
    apply negb_true_iff in Hne. apply String.eqb_neq in Hne. done.
  - intros userId id' Hne. unfold entriesFor. rewrite statusOf_purge.
    by apply entriesOf_purge_ne.
  - intros userId; simpl. rewrite lookup_fmap.
    destruct (userStatus s !! userId); simpl; done.
  - done.
Qed.

End Deletion.

(** * Deactivating a zone *)

Section Deactivation.
Context `{JSRuntime}.

Lemma findIndex_cons id g gs :
  findIndex id (g :: gs) =
  if decide (gf_id g = id) then Some 0%nat else S <$> findIndex id gs.
Proof.
  unfold findIndex; simpl. case_decide; [done|].
  destruct (list_find (fun g0 => gf_id g0 = id) gs) as [[i x]|]; done.
Qed.

Lemma findIndex_None id gs :
  findIndex id gs = None -> ~ In id (List.map gf_id gs).
Proof.
  induction gs as [|g gs IH]; [by intros _ []|].
  rewrite findIndex_cons. case_decide; [done|].
  destruct (findIndex id gs); [done|]. intros _ [Hg|Hin]; [done|by apply IH].
Qed.


Lemma In_delete {A} (x : A) i l : In x (delete i l) -> In x l.
Proof.
  intros Hin. apply list_elem_of_In. apply list_elem_of_In in Hin.
  by eapply list_elem_of_delete_inv.
Qed.



Lemma Turn_other_entries id now genId location userId g b events st events' st' :
  gf_id g <> id ->
  Turn now genId location userId g b events st events' st' ->
  entriesOf id (currentGeofences st') = entriesOf id (currentGeofences st).
Proof.
  intros Hne HT. destruct HT; [| |done]; simpl.
  - rewrite entriesOf_app. unfold entriesOf at 2; simpl.
    apply String.eqb_neq in Hne. rewrite Hne. apply List.app_nil_r.
  - rewrite entriesOf_purge_ne; [done|]. congruence.
Qed.






(** *** The ids of the cached zones stay distinct *)

Lemma NoDup_map_delete {A B} (f : A -> B) i (l : list A) :
  NoDup (List.map f l) -> NoDup (List.map f (delete i l)).
Proof.
  revert i. induction l as [|a l IH]; intros i Hnd; [done|].
  simpl in Hnd. apply NoDup_cons in Hnd as [Ha Hnd].
  destruct i as [|i]; simpl; [done|].
  apply NoDup_cons. split; [|by apply IH].
  intros Hin. apply Ha. apply list_elem_of_In. apply list_elem_of_In in Hin.
  apply List.in_map_iff in Hin as (x & Hx & Hin).
  apply List.in_map_iff. exists x. split; [done|]. by eapply In_delete.
Qed.

Lemma map_insert_findIndex id g gs index :
  findIndex id gs = Some index -> gf_id g = id ->
  List.map gf_id (<[index := g]> gs) = List.map gf_id gs.
Proof.
  revert index. induction gs as [|g0 gs IH]; intros index; [done|].
  rewrite findIndex_cons. case_decide as Hid.
  - intros [= <-] Hg; simpl. congruence.
  - destruct (findIndex id gs) as [i|]; [|done].
    intros [= <-] Hg; simpl. f_equal. by apply IH.
Qed.

Lemma NoDup_snoc_ids id gs g :
  ~ In id (List.map gf_id gs) -> gf_id g = id -> NoDup (List.map gf_id gs) ->
  NoDup (List.map gf_id (gs ++ [g])).
Proof.
  intros Hout Hg Hnd. rewrite List.map_app; simpl. apply NoDup_app.
  split; [done|]. split; [|apply NoDup_singleton].
  intros x Hx Hx'. apply list_elem_of_singleton in Hx'. subst x.
  apply Hout. rewrite <- Hg. by apply list_elem_of_In.
Qed.

Lemma exec_zoneIds_NoDup op s :
  serverKeepsIds op s -> NoDup (zoneIds s) -> NoDup (zoneIds (snd (exec op s))).
Proof.
  intros Hop Hnd.
  destruct op as [r|r|id r|id ok|now genId location userId]; simpl.
  - destruct r as [gs|]; simpl; [|done]. by apply NoDup_map_filter.
  - destruct r as [g|]; simpl; [|done]. destruct (gf_isActive g); [|done].
    by eapply NoDup_snoc_ids.
  - destruct r as [g|]; simpl; [|done]. simpl in Hop.
    destruct (findIndex id (activeGeofences s)) as [index|] eqn:Hfind,
             (gf_isActive g); try done; unfold zoneIds; simpl.
    + by rewrite (map_insert_findIndex id).
    + by apply NoDup_map_delete.
    + eapply NoDup_snoc_ids; [|exact Hop|exact Hnd]. by apply findIndex_None.
  - destruct ok; simpl; [|done]. by apply NoDup_map_filter.
  - unfold checkGeofenceEntry.
    destruct (forGeofences now genId location userId (activeGeofences s) []
                (default (freshStatus userId) (userStatus s !! userId)))
      as [[events|e] st']; simpl; [done|].
    by destruct (userStatus s !! userId).
Qed.

(** From a new service, with such a server, the cached ids are distinct. *)
Lemma run_zoneIds_NoDup ops s :
  served ops s -> NoDup (zoneIds s) -> NoDup (zoneIds (snd (run ops s))).
Proof.
  revert s. induction ops as [|op ops IH]; intros s Hops Hnd; simpl; [done|].
  destruct Hops as [Hop Hops].
  pose proof (exec_zoneIds_NoDup op s Hop Hnd) as Hnd1.
  destruct (exec op s) as [events s1]; simpl in *.
  specialize (IH s1 Hops Hnd1). by destruct (run ops s1).
Qed.


End Deactivation.

(** * Entries, exits and durations *)

Section Pairing.
Context `{JSRuntime}.

Lemma Qfloor_minutes (d : Z) :
  Math_floor (inject_Z d / 1000 / 60)%Q = d `div` 60000.
Proof.
  unfold Math_floor.
  rewrite (Qfloor_comp _ (d # 60000)); [done|].
  unfold Qeq, Qdiv, Qmult, Qinv, inject_Z; simpl. lia.
Qed.

Lemma exitDuration_Some location entry :
  exitDuration location (Some entry)
  = wholeMinutes (pe_entryTime entry) (loc_timestamp location).
Proof. unfold exitDuration, wholeMinutes. apply Qfloor_minutes. Qed.

Lemma storedEntry_is_Some id st :
  hasGeofence id st = true -> exists entry, storedEntry id st = Some entry.
Proof.
  unfold storedEntry. rewrite hasGeofence_entriesOf, find_entriesOf.
  destruct (entriesOf id (currentGeofences st)) as [|e l]; [done|].
  intros _. by exists e.
Qed.

Lemma hasGeofence_same_entries id st st' :
  entriesOf id (currentGeofences st') = entriesOf id (currentGeofences st) ->
  hasGeofence id st' = hasGeofence id st /\ storedEntry id st' = storedEntry id st.
Proof.
  intros Heq. unfold storedEntry.
  rewrite !hasGeofence_entriesOf, !find_entriesOf, Heq. done.
Qed.

Lemma eventFits_same_entries location st st' e :
  entriesOf (ev_geofenceId e) (currentGeofences st')
  = entriesOf (ev_geofenceId e) (currentGeofences st) ->
  eventFits location st' e -> eventFits location st e.
Proof.
  intros Heq. apply hasGeofence_same_entries in Heq as [Hh Hs].
  unfold eventFits. destruct (ev_eventType e); [|by rewrite Hs|done].
  by rewrite Hh.
Qed.

(** With distinct zone ids, every event of a completed loop fits the
    status the loop started from. *)
Lemma forGeofences_eventFits now genId location userId gs :
  NoDup (List.map gf_id gs) ->
  forall events st events' st',
    forGeofences now genId location userId gs events st = (Normal events', st') ->
    exists new,
      events' = events ++ new /\
      Forall (fun e => In (ev_geofenceId e) (List.map gf_id gs) /\
                       eventFits location st e) new.
Proof.
  induction gs as [|g gs IH]; intros Hnd events st events' st' Hrun; simpl in Hrun.
  - inversion Hrun; subst. exists []. by rewrite List.app_nil_r.
  - simpl in Hnd. apply NoDup_cons in Hnd as [Hg Hnd].
    destruct (isLocationInsideGeofence location g) as [b|] eqn:Hb; [|done].
    pose proof (diffGeofence_Turn now genId location userId g b events st) as HT.
    destruct (diffGeofence now genId location userId g b events st) as [events1 st1].
    simpl in HT.
    destruct (IH Hnd _ _ _ _ Hrun) as (new & -> & Hnew).
    assert (Forall (fun e => In (ev_geofenceId e) (List.map gf_id (g :: gs)) /\
                             eventFits location st e) new) as Hnew'.
    { eapply Forall_impl; [exact Hnew|]. intros e [Hin Hfit]. split; [by right|].
      assert (gf_id g <> ev_geofenceId e) as Hne.
      { intros Heq. apply Hg. rewrite Heq. by apply list_elem_of_In. }
      eapply eventFits_same_entries; [|exact Hfit].
      by eapply Turn_other_entries. }
    destruct HT as [_ Hw|_ Hw|_].
    + eexists. split; [by rewrite <- List.app_assoc|].
      apply Forall_cons. split; [|done]. split; [by left|].
      unfold eventFits; simpl. done.
    + eexists. split; [by rewrite <- List.app_assoc|].
      apply Forall_cons. split; [|done]. split; [by left|].
      unfold eventFits; simpl.
      destruct (storedEntry_is_Some _ _ Hw) as [entry Hentry].
      exists entry. rewrite Hentry. by rewrite exitDuration_Some.
    + by exists new.
Qed.

Lemma checkGeofenceEntry_eventFits now genId location userId s :
  NoDup (zoneIds s) ->
  Forall (fun e => In (ev_geofenceId e) (zoneIds s) /\
                   eventFits location (statusOf userId s) e)
    (emitted (fst (checkGeofenceEntry now genId location userId s))).
Proof.
  intros Hnd. unfold checkGeofenceEntry.
  destruct (forGeofences now genId location userId (activeGeofences s) []
              (default (freshStatus userId) (userStatus s !! userId)))
    as [[events|e] st'] eqn:Hrun; simpl; [|done].
  destruct (forGeofences_eventFits _ _ _ _ _ Hnd _ _ _ _ Hrun) as (new & -> & Hnew).
  exact Hnew.
Qed.

End Pairing.

(** * The scenario inside, inside, outside *)

Section Scenario.
Context `{JSRuntime}.

Lemma checkGeofenceEntry_single now genId location userId g b s :
  activeGeofences s = [g] ->
  isLocationInsideGeofence location g = Normal b ->
  checkGeofenceEntry now genId location userId s =
  (Normal (fst (diffGeofence now genId location userId g b [] (statusOf userId s))),
   {| activeGeofences := [g];
      userStatus :=
        <[userId := snd (diffGeofence now genId location userId g b []
                           (statusOf userId s))]> (userStatus s) |}).
Proof.
  intros Hg Hb. unfold checkGeofenceEntry, statusOf. rewrite Hg; simpl. rewrite Hb.
  destruct (diffGeofence now genId location userId g b []
              (default (freshStatus userId) (userStatus s !! userId))); done.
Qed.

Lemma statusOf_insert userId st (s : GeofenceService) gs :
  statusOf userId {| activeGeofences := gs;
                     userStatus := <[userId := st]> (userStatus s) |} = st.
Proof. unfold statusOf; simpl. by rewrite lookup_insert_eq. Qed.

Lemma hasGeofence_pushed now location g st :
  hasGeofence (gf_id g) (pushed now location g st) = true.
Proof.
  unfold hasGeofence, pushed; simpl. rewrite List.existsb_app; simpl.
  rewrite String.eqb_refl. by rewrite orb_true_r.
Qed.

Lemma storedEntry_pushed now location g st :
  hasGeofence (gf_id g) st = false ->
  storedEntry (gf_id g) (pushed now location g st) =
  Some {| pe_geofenceId := gf_id g;
          pe_entryTime := loc_timestamp location;
          pe_isAuthorized := isAuthorizedAccess now g |}.
Proof.
  unfold storedEntry. rewrite hasGeofence_entriesOf, find_entriesOf. simpl.
  rewrite entriesOf_app.
  destruct (entriesOf (gf_id g) (currentGeofences st)); [|done].
  intros _. unfold entriesOf; simpl. by rewrite String.eqb_refl.
Qed.

Lemma hasGeofence_left location g d st :
  hasGeofence (gf_id g) (left_ location g d st) = false.
Proof. rewrite hasGeofence_entriesOf. simpl. by rewrite entriesOf_purge_eq. Qed.

Lemma diffGeofence_enter now genId location userId g events st :
  hasGeofence (gf_id g) st = false ->
  diffGeofence now genId location userId g true events st =
  (events ++ [enterEvent now (genId (length events)) location userId g],
   pushed now location g st).
Proof. intros Hw. unfold diffGeofence. rewrite Hw. done. Qed.

Lemma diffGeofence_stay now genId location userId g events st :
  diffGeofence now genId location userId g (hasGeofence (gf_id g) st) events st =
  (events, st).
Proof. unfold diffGeofence. by destruct (hasGeofence (gf_id g) st). Qed.

Lemma diffGeofence_exit now genId location userId g events st :
  hasGeofence (gf_id g) st = true ->
  diffGeofence now genId location userId g false events st =
  (events ++ [exitEvent now (genId (length events)) location userId g
                (exitDuration location (storedEntry (gf_id g) st))],
   left_ location g (exitDuration location (storedEntry (gf_id g) st)) st).
Proof. intros Hw. unfold diffGeofence. rewrite Hw. done. Qed.

(** C1. With a single active zone and a subject that is not in it, the
    fixes inside, inside, outside yield one ENTER on the first fix, no
    event on the second and one EXIT on the third, after which the
    subject is no longer in the zone; and whatever the state and the fix,
    an ENTER is emitted only if the subject was not in the zone and an
    EXIT only if the subject was in it. *)
Theorem entry_exit_pairing :
  forall (g : Geofence) (s : GeofenceService) (userId : string)
         (fix1 fix2 fix3 : LocationData) (now1 now2 now3 : Date)
         (genId1 genId2 genId3 : nat -> string),
    activeGeofences s = [g] ->
    hasGeofence (gf_id g) (statusOf userId s) = false ->
    isLocationInsideGeofence fix1 g = Normal true ->
    isLocationInsideGeofence fix2 g = Normal true ->
    isLocationInsideGeofence fix3 g = Normal false ->
    let r1 := checkGeofenceEntry now1 genId1 fix1 userId s in
    let r2 := checkGeofenceEntry now2 genId2 fix2 userId (snd r1) in
    let r3 := checkGeofenceEntry now3 genId3 fix3 userId (snd r2) in
    fst r1 = Normal [enterEvent now1 (genId1 0%nat) fix1 userId g] /\
    fst r2 = Normal [] /\
    fst r3 = Normal [exitEvent now3 (genId3 0%nat) fix3 userId g
                       (wholeMinutes (loc_timestamp fix1) (loc_timestamp fix3))] /\
    hasGeofence (gf_id g) (statusOf userId (snd r3)) = false /\
    forall (s0 : GeofenceService) now genId location u,
      activeGeofences s0 = [g] ->
      Forall (fun e =>
                (ev_eventType e = ENTER ->
                 hasGeofence (ev_geofenceId e) (statusOf u s0) = false) /\
                (ev_eventType e = EXIT ->
                 hasGeofence (ev_geofenceId e) (statusOf u s0) = true))
        (emitted (fst (checkGeofenceEntry now genId location u s0))).
Proof.
  intros g s userId fix1 fix2 fix3 now1 now2 now3 genId1 genId2 genId3
    Hg Hout Hin1 Hin2 Hin3 r1 r2 r3.
  set (s1 := {| activeGeofences := [g];
                userStatus :=
                  <[userId := pushed now1 fix1 g (statusOf userId s)]>
                    (userStatus s) |}).
  set (d := wholeMinutes (loc_timestamp fix1) (loc_timestamp fix3)).
  set (s3 := {| activeGeofences := [g];
                userStatus :=
                  <[userId := left_ fix3 g d (pushed now1 fix1 g (statusOf userId s))]>
                    (userStatus s) |}).
  assert (r1 = (Normal [enterEvent now1 (genId1 0%nat) fix1 userId g], s1)) as E1.
  { unfold r1. rewrite (checkGeofenceEntry_single _ _ _ _ g true s Hg Hin1).
    by rewrite diffGeofence_enter. }
  assert (statusOf userId s1 = pushed now1 fix1 g (statusOf userId s)) as Hs1.
  { apply statusOf_insert. }
  assert (r2 = (Normal [], s1)) as E2.
  { unfold r2. rewrite E1; simpl.
    rewrite (checkGeofenceEntry_single now2 genId2 fix2 userId g true s1 eq_refl Hin2).
    rewrite Hs1.
    pose proof (diffGeofence_stay now2 genId2 fix2 userId g []
                  (pushed now1 fix1 g (statusOf userId s))) as Hstay.
    rewrite hasGeofence_pushed in Hstay. rewrite Hstay; simpl.
    unfold s1; simpl. by rewrite insert_insert_eq. }
  assert (r3 = (Normal [exitEvent now3 (genId3 0%nat) fix3 userId g d], s3)) as E3.
  { unfold r3. rewrite E2; simpl.
    rewrite (checkGeofenceEntry_single now3 genId3 fix3 userId g false s1 eq_refl Hin3).
    rewrite Hs1.
    rewrite (diffGeofence_exit _ _ _ _ _ _ _ (hasGeofence_pushed now1 fix1 g _)).
    rewrite (storedEntry_pushed _ _ _ _ Hout), exitDuration_Some; simpl.
    unfold s3, s1; simpl. by rewrite insert_insert_eq. }
  rewrite E1, E2, E3; simpl.
  split; [done|]. split; [done|]. split; [done|]. split.
  { unfold s3. rewrite statusOf_insert. apply hasGeofence_left. }
  intros s0 now genId location u Hg0.
  eapply Forall_impl.
  { apply checkGeofenceEntry_eventFits. unfold zoneIds. rewrite Hg0; simpl.
    apply NoDup_singleton. }
  intros e [_ Hfit]. unfold eventFits in Hfit. split; intros Hty; rewrite Hty in Hfit.
  - tauto.
  - destruct Hfit as (entry & Hentry & _). unfold storedEntry in Hentry.
    rewrite hasGeofence_entriesOf. rewrite find_entriesOf in Hentry.
    by destruct (entriesOf (ev_geofenceId e) (currentGeofences (statusOf u s0))).
Qed.

End Scenario.

(** * The duration of an exit *)

Section ExitDuration.
Context `{JSRuntime}.

Lemma forGeofences_extends now genId location userId gs events st events' st' :
  forGeofences now genId location userId gs events st = (Normal events', st') ->
  exists new, events' = events ++ new.
Proof.
  revert events st. induction gs as [|g gs IH]; intros events st Hrun; simpl in Hrun.
  - inversion Hrun; subst. exists []. by rewrite List.app_nil_r.
  - destruct (isLocationInsideGeofence location g) as [b|]; [|done].
    pose proof (diffGeofence_Turn now genId location userId g b events st) as HT.
    destruct (diffGeofence now genId location userId g b events st) as [events1 st1].
    simpl in HT. destruct (IH _ _ Hrun) as [new ->].
    destruct HT; [| |by exists new]; eexists; by rewrite <- List.app_assoc.
Qed.

(** With distinct zone ids, the exit from a zone that the subject was in
    is emitted when the loop completes. *)
Lemma forGeofences_exit_emitted now genId location userId gs g :
  NoDup (List.map gf_id gs) -> In g gs ->
  isLocationInsideGeofence location g = Normal false ->
  forall events st events' st',
    hasGeofence (gf_id g) st = true ->
    forGeofences now genId location userId gs events st = (Normal events', st') ->
    exists e, In e events' /\ ev_eventType e = EXIT /\ ev_geofenceId e = gf_id g /\
              ev_duration e = Some (exitDuration location (storedEntry (gf_id g) st)).
Proof.
  intros Hnd Hin Hout.
  induction gs as [|g0 gs IH]; intros events st events' st' Hw Hrun; [done|].
  simpl in Hnd. apply NoDup_cons in Hnd as [Hg0 Hnd]. simpl in Hrun.
  destruct Hin as [->|Hin].
  - rewrite Hout in Hrun.
    rewrite (diffGeofence_exit _ _ _ _ _ _ _ Hw) in Hrun.
    destruct (forGeofences_extends _ _ _ _ _ _ _ _ _ Hrun) as [new ->].
    exists (exitEvent now (genId (length events)) location userId g
              (exitDuration location (storedEntry (gf_id g) st))).
    split; [|done]. rewrite List.in_app_iff. left.
    rewrite List.in_app_iff. right. by left.
  - destruct (isLocationInsideGeofence location g0) as [b|]; [|done].
    pose proof (diffGeofence_Turn now genId location userId g0 b events st) as HT.
    destruct (diffGeofence now genId location userId g0 b events st) as [events1 st1].
    simpl in HT.
    assert (gf_id g0 <> gf_id g) as Hne.
    { intros Heq. apply Hg0. rewrite Heq. apply list_elem_of_In.
      apply List.in_map_iff. by exists g. }
    pose proof (Turn_other_entries (gf_id g) _ _ _ _ _ _ _ _ _ _ Hne HT) as Hsame.
    apply hasGeofence_same_entries in Hsame as [Hh Hs].
    rewrite <- Hs. eapply (IH Hnd Hin); [|exact Hrun]. by rewrite Hh.
Qed.

(** C2, as amended. With distinct zone ids in the cache, every EXIT event
    of an evaluation is for a zone with a stored entry and carries the
    whole minutes from the stored entry time to the timestamp of the fix
    (2 for an entry at 0 s and an exit at 125 s); a completed evaluation
    emits that EXIT for every cached zone that the subject was in and that
    does not contain the fix; and for a zone without a stored entry no
    EXIT is emitted. *)
Theorem exit_duration_whole_minutes :
  forall now genId location userId (s : GeofenceService),
    NoDup (zoneIds s) ->
    Forall (fun e =>
              ev_eventType e = EXIT ->
              exists entry,
                storedEntry (ev_geofenceId e) (statusOf userId s) = Some entry /\
                ev_duration e =
                  Some (wholeMinutes (pe_entryTime entry) (loc_timestamp location)))
      (emitted (fst (checkGeofenceEntry now genId location userId s))) /\
    (forall g entry events,
        fst (checkGeofenceEntry now genId location userId s) = Normal events ->
        In g (activeGeofences s) ->
        isLocationInsideGeofence location g = Normal false ->
        storedEntry (gf_id g) (statusOf userId s) = Some entry ->
        exists e, In e events /\ ev_eventType e = EXIT /\
                  ev_geofenceId e = gf_id g /\
                  ev_duration e =
                    Some (wholeMinutes (pe_entryTime entry) (loc_timestamp location))) /\
    (forall id,
        storedEntry id (statusOf userId s) = None ->
        Forall (fun e => ev_geofenceId e = id -> ev_eventType e <> EXIT)
          (emitted (fst (checkGeofenceEntry now genId location userId s)))) /\
    (forall from to,
        Date_getTime from = 0 -> Date_getTime to = 125000 ->
        wholeMinutes from to = 2).
Proof.
  intros now genId location userId s Hnd.
  pose proof (checkGeofenceEntry_eventFits now genId location userId s Hnd) as Hfit.
  split; [|split; [|split]].
  - eapply Forall_impl; [exact Hfit|].
    intros e [_ He] Hty. unfold eventFits in He. by rewrite Hty in He.
  - intros g entry events Hres Hin Hout Hentry.
    unfold checkGeofenceEntry in Hres. fold (statusOf userId s) in Hres.
    destruct (forGeofences now genId location userId (activeGeofences s) []
                (statusOf userId s)) as [[events0|e0] st'] eqn:Hrun; [|done].
    simpl in Hres. injection Hres as ->.
    assert (hasGeofence (gf_id g) (statusOf userId s) = true) as Hw.
    { unfold storedEntry in Hentry. rewrite find_entriesOf in Hentry.
      rewrite hasGeofence_entriesOf.
      by destruct (entriesOf (gf_id g) (currentGeofences (statusOf userId s))). }
    destruct (forGeofences_exit_emitted _ _ _ _ _ _ Hnd Hin Hout _ _ _ _ Hw Hrun)
      as (e & He & Hty & Hid & Hd).
    exists e. rewrite Hentry, exitDuration_Some in Hd. done.
  - intros id Hnone. eapply Forall_impl; [exact Hfit|].
    intros e [_ He] Hid Hty. unfold eventFits in He. rewrite Hty, Hid in He.
    destruct He as (entry & Hentry & _). congruence.
  - intros from to Hfrom Hto. unfold wholeMinutes. rewrite Hfrom, Hto. done.
Qed.

End ExitDuration.

(** * Worked examples on the sample data *)

(** The scenario of C1 on the square: one ENTER, nothing, one EXIT after
    two whole minutes. *)
Lemma entry_exit_pairing_witness :
  (Sample.inside Sample.fix1 Sample.square = Normal true /\
   Sample.inside Sample.fix2 Sample.square = Normal true /\
   Sample.inside Sample.fix3 Sample.square = Normal false) /\
  List.map ev_eventType
    (emitted (fst (Sample.check Sample.fix1 "1" Sample.service))) = [ENTER] /\
  emitted (fst (Sample.check Sample.fix2 "1"
                  (snd (Sample.check Sample.fix1 "1" Sample.service)))) = [] /\
  List.map (fun e => (ev_eventType e, ev_duration e))
    (emitted (fst (Sample.check Sample.fix3 "1"
                     (snd (Sample.check Sample.fix2 "1"
                             (snd (Sample.check Sample.fix1 "1" Sample.service)))))))
  = [(EXIT, Some 2)].
Proof.
  split; [by vm_compute|].
  pose proof (@entry_exit_pairing Sample.runtime Sample.square Sample.service "1"
                Sample.fix1 Sample.fix2 Sample.fix3
                Sample.monday10 Sample.monday10 Sample.monday10
                Sample.genId Sample.genId Sample.genId
                eq_refl
                ltac:(vm_compute; reflexivity) ltac:(vm_compute; reflexivity)
                ltac:(vm_compute; reflexivity) ltac:(vm_compute; reflexivity)) as Hw.
  cbv zeta in Hw. destruct Hw as (E1 & E2 & E3 & _).
  unfold Sample.check. rewrite E3, E2, E1. by vm_compute.
Defined.

(** C2 as first stated fails where the subject has no entry for the zone:
    the fix is outside the square, the reset state holds no entry, and no
    EXIT event (with duration 0 or other) comes out. *)
Lemma exit_without_entry_counterexample :
  ~ (storedEntry "zone-1" (statusOf "1" Sample.resetService) = None ->
     Sample.inside Sample.fix3 Sample.square = Normal false ->
     exists e,
       In e (emitted (fst (Sample.check Sample.fix3 "1" Sample.resetService))) /\
       ev_eventType e = EXIT).
Proof.
  intros Hclaim.
  destruct (Hclaim eq_refl ltac:(vm_compute; reflexivity)) as (e & Hin & _).
  vm_compute in Hin. exact Hin.
Qed.

(** C2 as amended, on the square: the subject entered at 0 s and is
    outside at 125 s; the EXIT carries 2 minutes. *)
Lemma exit_duration_whole_minutes_witness :
  NoDup (zoneIds Sample.occupiedService) /\
  exists e,
    In e (emitted (fst (Sample.check Sample.fix3 "1" Sample.occupiedService))) /\
    ev_eventType e = EXIT /\ ev_geofenceId e = "zone-1" /\ ev_duration e = Some 2.
Proof.
  assert (NoDup (zoneIds Sample.occupiedService)) as Hnd.
  { apply (NoDup_singleton "zone-1"). }
  split; [exact Hnd|].
  destruct (@exit_duration_whole_minutes Sample.runtime Sample.monday10 Sample.genId
              Sample.fix3 "1" Sample.occupiedService Hnd) as (_ & Hemit & _ & Hex).
  destruct (Hemit Sample.square
              {| pe_geofenceId := "zone-1";
                 pe_entryTime := "1970-01-01T00:00:00Z";
                 pe_isAuthorized := true |}
              (emitted (fst (Sample.check Sample.fix3 "1" Sample.occupiedService)))
              ltac:(vm_compute; reflexivity) ltac:(left; reflexivity)
              ltac:(vm_compute; reflexivity) ltac:(vm_compute; reflexivity))
    as (e & Hin & Hty & Hid & Hd).
  exists e. split; [exact Hin|]. split; [exact Hty|]. split; [exact Hid|].
  rewrite Hd. apply (f_equal Some).
  apply (Hex "1970-01-01T00:00:00Z" "1970-01-01T00:02:05Z"); vm_compute; reflexivity.
Defined.



(** The same run in full: the zone is cached once after the update, and
    the evaluation of the fix outside hands over one event, the EXIT of the
    zone. *)
Lemma updateGeofence_duplicate_exit :
  zoneIds Cases.twiceCached = ["zone-1"; "zone-1"] /\
  zoneIds Cases.switchedOff = ["zone-1"] /\
  List.map (fun e => (ev_eventType e, ev_geofenceId e))
    (emitted (fst (Sample.check Sample.fix3 "1" Cases.switchedOff)))
  = [(EXIT, "zone-1")].
Proof. repeat split; by vm_compute. Qed.

(** * Authorization *)

Section Authorization.

Lemma isAuthorizedAccess_isWithinWorkingHours now g :
  isAuthorizedAccess now g = isWithinWorkingHours now g.
Proof. unfold isAuthorizedAccess. by destruct (isWithinWorkingHours now g). Qed.

Lemma isWithinWorkingHours_unrestricted now g :
  restricted g = None -> isWithinWorkingHours now g = true.
Proof.
  unfold restricted, isWithinWorkingHours.
  destruct (gf_workingHours g) as [wh|]; [|done]. by destruct (wh_enabled wh).
Qed.

Lemma isWithinWorkingHours_restricted now g wh :
  restricted g = Some wh ->
  isWithinWorkingHours now g =
  match wh_schedule wh !! weekdayShort now with
  | Some day =>
      ds_active day && String.leb (ds_start day) (timeHHMM now)
      && String.leb (timeHHMM now) (ds_end day)
  | None => false
  end.
Proof.
  unfold restricted, isWithinWorkingHours.
  destruct (gf_workingHours g) as [wh'|]; [|done].
  destruct (wh_enabled wh') eqn:Hen; [|done]. intros [= <-]. simpl.
  destruct (wh_schedule wh' !! weekdayShort now) as [day|]; [|done].
  by destruct (ds_active day).
Qed.

Lemma digit_compare a b :
  (a < 10)%nat -> (b < 10)%nat ->
  Ascii.compare (digit a) (digit b) = Nat.compare a b.
Proof.
  intros Ha Hb.
  do 10 (destruct a as [|a]; [do 10 (destruct b as [|b]; [reflexivity|]); lia|]).
  lia.
Qed.

Lemma digit_mod n : digit n = digit (n mod 10).
Proof. unfold digit. by rewrite Nat.Div0.mod_mod. Qed.

Lemma pad2_compare m n :
  (m < 100)%nat -> (n < 100)%nat ->
  String.compare (pad2 m) (pad2 n) = Nat.compare m n.
Proof.
  intros Hm Hn. unfold pad2. cbn [String.compare].
  rewrite (digit_mod m), (digit_mod n).
  rewrite !digit_compare by
    (try apply Nat.mod_upper_bound; try apply Nat.Div0.div_lt_upper_bound; lia).
  pose proof (Nat.div_mod_eq m 10) as Em. pose proof (Nat.div_mod_eq n 10) as En.
  pose proof (Nat.mod_upper_bound m 10 ltac:(lia)) as Bm.
  pose proof (Nat.mod_upper_bound n 10 ltac:(lia)) as Bn.
  generalize dependent (m mod 10)%nat. generalize dependent (n mod 10)%nat.
  generalize dependent (m / 10)%nat. generalize dependent (n / 10)%nat.
  intros qn qm rn En Bn rm Em Bm.
  destruct (Nat.compare_spec qm qn); destruct (Nat.compare_spec rm rn);
    symmetry; first [apply Nat.compare_eq_iff|apply Nat.compare_lt_iff
                    |apply Nat.compare_gt_iff]; lia.
Qed.

Lemma compare_append a b x y :
  String.length a = String.length b ->
  String.compare (a +:+ x) (b +:+ y) =
  match String.compare a b with
  | Eq => String.compare x y
  | c => c
  end.
Proof.
  revert b. induction a as [|c a IH]; intros [|d b] Hlen;
    simpl in Hlen; try lia; [done|].
  change (String c a +:+ x) with (String c (a +:+ x)).
  change (String d b +:+ y) with (String d (b +:+ y)).
  cbn [String.compare].
  destruct (Ascii.compare c d); [|done|done].
  apply IH. lia.
Qed.

(** On zero-padded times the order of strings is the order of the day. *)
Lemma timeHHMM_leb a b :
  (getHours a < 100)%nat -> (getMinutes a < 60)%nat ->
  (getHours b < 100)%nat -> (getMinutes b < 60)%nat ->
  String.leb (timeHHMM a) (timeHHMM b) = (minutesOfDay a <=? minutesOfDay b)%nat.
Proof.
  intros Ha Ha' Hb Hb'. unfold minutesOfDay, timeHHMM, String.leb.
  rewrite compare_append by reflexivity.
  rewrite (compare_append ":" ":") by reflexivity.
  rewrite !pad2_compare by lia. cbn [String.compare Ascii.compare].
  assert (Ascii.compare ":" ":" = Eq) as -> by reflexivity.
  destruct (Nat.compare_spec (getHours a) (getHours b));
    destruct (Nat.compare_spec (getMinutes a) (getMinutes b));
    symmetry; first [apply Nat.leb_le; lia|apply Nat.leb_gt; lia].
Qed.

Lemma digitOf_digit c n : digitOf c = Some n -> (n < 10)%nat /\ c = digit n.
Proof.
  unfold digitOf, digit.
  destruct (Nat.leb_spec 48 (nat_of_ascii c)); [|done].
  destruct (Nat.leb_spec (nat_of_ascii c) 57); [|done].
  cbn [andb]. intros [= <-]. split; [lia|].
  rewrite Nat.mod_small by lia.
  replace (48 + (nat_of_ascii c - 48))%nat with (nat_of_ascii c) by lia.
  by rewrite ascii_nat_embedding.
Qed.

Lemma pad2_digits a b :
  (a < 10)%nat -> (b < 10)%nat ->
  pad2 (10 * a + b) = String (digit a) (String (digit b) EmptyString).
Proof.
  intros Ha Hb. unfold pad2.
  replace ((10 * a + b) / 10)%nat with a by (apply Nat.div_unique with b; lia).
  rewrite (digit_mod (10 * a + b)).
  replace ((10 * a + b) mod 10)%nat with b
    by (apply Nat.mod_unique with a; lia).
  done.
Qed.

(** A time of day written with five characters is the text that the clock
    shows at that time. *)
Lemma timeOfDay_zeroPadded text t :
  zeroPadded text -> timeOfDay text = Some t ->
  exists reading,
    validClock reading /\ text = timeHHMM reading /\ t = minutesOfDay reading.
Proof.
  unfold zeroPadded. intros Hlen.
  destruct text as [|h1 [|h2 [|c [|m1 [|m2 [|? ?]]]]]]; try discriminate Hlen.
  clear Hlen. cbn [timeOfDay].
  destruct (Ascii.eqb_spec c ":"%char) as [->|]; [|done].
  destruct (digitOf h1) as [a|] eqn:Ea; [|done].
  destruct (digitOf h2) as [b|] eqn:Eb; [|done].
  destruct (digitOf m1) as [x|] eqn:Ex; [|done].
  destruct (digitOf m2) as [y|] eqn:Ey; [|done].
  cbn [mbind option_bind]. unfold clockMinutes.
  destruct (Nat.ltb_spec (10 * a + b) 24); [|done].
  destruct (Nat.ltb_spec (10 * x + y) 60); [|done].
  cbn [andb]. intros [= <-].
  apply digitOf_digit in Ea as [Ha ->]. apply digitOf_digit in Eb as [Hb ->].
  apply digitOf_digit in Ex as [Hx ->]. apply digitOf_digit in Ey as [Hy ->].
  exists {| getDay := Sun; getHours := 10 * a + b; getMinutes := 10 * x + y |}.
  split; [by split|]. split; [|done].
  unfold timeHHMM; cbn [getHours getMinutes]. by rewrite !pad2_digits.
Qed.

(** C4. At every reading of the clock the authorization check answers true
    for a zone without an enabled working-hours restriction. For a
    restricted zone it answers false when the schedule has no entry under
    the short name of the day of the week, or an entry that is not active;
    and when the start and the end of the entry are times of day written
    HH:MM, it answers true exactly when the entry is active and the time
    of day is between them, both bounds included. *)
Theorem authorization_window :
  forall (weekday : Weekday) (hours minutes : nat) (g : Geofence),
    (hours < 24)%nat -> (minutes < 60)%nat ->
    let now := {| getDay := weekday; getHours := hours; getMinutes := minutes |} in
    let key := match weekday with
               | Sun => "sun" | Mon => "mon" | Tue => "tue" | Wed => "wed"
               | Thu => "thu" | Fri => "fri" | Sat => "sat"
               end in
    (restricted g = None -> isAuthorizedAccess now g = true) /\
    (forall wh, restricted g = Some wh ->
       (wh_schedule wh !! key = None -> isAuthorizedAccess now g = false) /\
       (forall day, wh_schedule wh !! key = Some day ->
          (ds_active day = false -> isAuthorizedAccess now g = false) /\
          (forall opening closing,
             zeroPadded (ds_start day) -> timeOfDay (ds_start day) = Some opening ->
             zeroPadded (ds_end day) -> timeOfDay (ds_end day) = Some closing ->
             (isAuthorizedAccess now g = true <->
              ds_active day = true /\
              (opening <= hours * 60 + minutes <= closing)%nat)))).
Proof.
  intros weekday hours minutes g Hh Hm now key.
  assert (weekdayShort now = key) as Hkey by (by destruct weekday).
  rewrite isAuthorizedAccess_isWithinWorkingHours.
  split; [apply isWithinWorkingHours_unrestricted|].
  intros wh Hwh. rewrite (isWithinWorkingHours_restricted now g wh Hwh), Hkey.
  split; [by intros ->|].
  intros day ->. split; [by intros ->|].
  intros opening closing Hps Hs Hpe He.
  destruct (timeOfDay_zeroPadded _ _ Hps Hs) as (o & [Ho Ho'] & -> & ->).
  destruct (timeOfDay_zeroPadded _ _ Hpe He) as (c & [Hc Hc'] & -> & ->).
  rewrite !timeHHMM_leb by (unfold now; cbn [getHours getMinutes]; lia).
  rewrite !andb_true_iff, !Nat.leb_le.
  change (minutesOfDay now) with (hours * 60 + minutes)%nat. tauto.
Qed.

End Authorization.

(** * Validation of a location update *)

Section Validation.
Context `{JSRuntime}.

Lemma POST_rejects_iff newId body locationData :
  (exists error, fst (Route.POST newId body locationData) = Route.PostError 400 error) <->
  Route.notNumber (Route.req_latitude body) = true \/
  Route.notNumber (Route.req_longitude body) = true \/
  Route.notString (Route.req_timestamp body) = true.
Proof.
  unfold Route.POST.
  destruct (Route.notNumber (Route.req_latitude body)),
           (Route.notNumber (Route.req_longitude body)),
           (Route.notString (Route.req_timestamp body)); simpl;
    (split; [intros [error Herr]; (done || auto) | intros Hor; (by eexists) || idtac]).
  destruct Hor as [|[|]]; done.
Qed.

(** C8, at the failing input. The update carries a latitude, a longitude
    and a timestamp; the latitude is 0, and [POST] answers 400 with the
    message that the three fields are required, the store untouched. *)
Theorem POST_rejects_zero_latitude :
  forall (newId : string) (locationData : list LocationData),
    Route.req_latitude Sample.equatorFix = Some 0%Q /\
    is_Some (Route.req_longitude Sample.equatorFix) /\
    is_Some (Route.req_timestamp Sample.equatorFix) /\
    Route.POST newId Sample.equatorFix locationData
    = (Route.PostError 400 "Latitude, longitude, and timestamp are required",
       locationData).
Proof. intros newId locationData. repeat split; by eexists. Qed.

(** The same update half a degree further south is accepted. *)
Lemma POST_accepts_nonzero newId locationData :
  fst (Route.POST newId Sample.quitoFix locationData)
  = Route.PostSuccess newId [] "Location updated successfully".
Proof. reflexivity. Qed.

End Validation.

(** * Trajectory statistics *)

Section Statistics.
Context `{JSRuntime}.
Import Route.

Local Open Scope Q_scope.

Lemma timeDiff_positive previous current :
  Qlt_bool 0 (timeDiffHours previous current) = positiveElapsed (previous, current).
Proof.
  unfold Qlt_bool, positiveElapsed, timeDiffHours; simpl.
  set (d := (getTime current - getTime previous)%Z).
  assert (Qle_bool (inject_Z d / 1000 / 3600) 0 = (d <=? 0)%Z) as ->.
  { apply eq_true_iff_eq. rewrite Qle_bool_iff, Z.leb_le.
    unfold Qle, Qdiv, Qmult, Qinv, inject_Z; simpl. lia. }
  unfold d. destruct (Z.leb_spec (getTime current - getTime previous) 0);
    destruct (Z.ltb_spec (getTime previous) (getTime current)); simpl; lia.
Qed.


(** The accumulators of the loop against the sums over consecutive pairs. *)
Lemma statsLoop_spec previous rest d t speeds :
  let '(d', t', speeds') := statsLoop previous rest d t speeds in
  d' == d + pathLength (previous :: rest) /\
  t' == t + elapsedHours (previous :: rest) /\
  speeds' = (speeds ++ List.map instantaneousSpeed
                         (List.filter positiveElapsed
                            (consecutivePairs (previous :: rest))))%list.
Proof.
  revert previous d t speeds.
  induction rest as [|current rest IH]; intros previous d t speeds.
  - simpl. unfold pathLength, elapsedHours; simpl.
    split; [ring|]. split; [ring|]. by rewrite List.app_nil_r.
  - cbn [statsLoop].
    specialize (IH current (d + calculateDistance previous current)
                  (t + timeDiffHours previous current)
                  (if Qlt_bool 0 (timeDiffHours previous current)
                   then (speeds ++ [calculateDistance previous current
                                    / timeDiffHours previous current])%list
                   else speeds)).
    destruct (statsLoop current rest _ _ _) as [[d' t'] speeds'].
    destruct IH as (Hd & Ht & Hs).
    change (consecutivePairs (previous :: current :: rest))
      with ((previous, current) :: consecutivePairs (current :: rest)).
    split; [|split].
    + rewrite Hd. unfold pathLength; simpl. ring.
    + rewrite Ht. unfold elapsedHours; simpl. ring.
    + rewrite Hs, timeDiff_positive. cbn [List.filter].
      destruct (positiveElapsed (previous, current)); [|done].
      cbn [List.map]. by rewrite <- List.app_assoc.
Qed.

Lemma sumSpeeds_Qsum speeds : sumSpeeds speeds == Qsum speeds.
Proof.
  unfold sumSpeeds.
  assert (forall a, fold_left Qplus speeds a == a + Qsum speeds) as Hgen.
  { induction speeds as [|x l IH]; intros a; simpl; [ring|].
    rewrite IH. ring. }
  rewrite Hgen. ring.
Qed.

Lemma round2_comp x y : x == y -> round2 x = round2 y.
Proof.
  intros Heq. unfold round2, Math_round.
  rewrite (Qfloor_comp (x * 100 + (1 # 2)) (y * 100 + (1 # 2))); [done|].
  by rewrite Heq.
Qed.

(** The figures of [computeStats] before rounding. *)
Lemma computeStats_figures userId dateRange first rest :
  let stats := computeStats userId dateRange (first :: rest) in
  totalDistance stats = round2 (pathLength (first :: rest)) /\
  totalTime stats = round2 (elapsedHours (first :: rest)) /\
  averageSpeed stats = round2 (meanSpeed (first :: rest)).
Proof.
  unfold computeStats.
  pose proof (statsLoop_spec first rest 0 0 []) as Hloop.
  destruct (statsLoop first rest 0 0 []) as [[d t] speeds].
  destruct Hloop as (Hd & Ht & Hs). cbn [List.app] in Hs. cbn zeta. simpl.
  split; [|split].
  - apply round2_comp. rewrite Hd. ring.
  - apply round2_comp. rewrite Ht. ring.
  - apply round2_comp. unfold meanSpeed. rewrite <- Hs.
    destruct speeds as [|x l]; [reflexivity|].
    cbn [length Nat.ltb Nat.leb arithmeticMean].
    by rewrite sumSpeeds_Qsum.
Qed.

End Statistics.

(** * The statistics on the numbers of the engine *)

Section Figures.
Context `{Numeric.Numbers}.
Import Numeric.

(** The accumulators of the loop: the pair distances and the elapsed hours
    added up in the order of the fixes, and the speeds of the pairs with
    positive elapsed time appended in that order. *)
Lemma statsLoop_sums previous rest d t speeds :
  statsLoop previous rest d t speeds
  = (fold_left add (List.map pairDistance (Route.consecutivePairs (previous :: rest))) d,
     fold_left add (List.map elapsedHours (Route.consecutivePairs (previous :: rest))) t,
     speeds ++ collectedSpeeds (previous :: rest)).
Proof.
  revert previous d t speeds.
  induction rest as [|current rest IH]; intros previous d t speeds.
  - unfold collectedSpeeds. simpl. by rewrite List.app_nil_r.
  - cbn [statsLoop]. rewrite IH. unfold collectedSpeeds.
    change (Route.consecutivePairs (previous :: current :: rest))
      with ((previous, current) :: Route.consecutivePairs (current :: rest)).
    cbn [List.map fold_left List.filter].
    change (positiveElapsed (previous, current))
      with (gt (timeDiffHours previous current) (int 0)).
    f_equal.
    destruct (gt (timeDiffHours previous current) (int 0)); [|done].
    by rewrite <- List.app_assoc.
Qed.

(** C5. On every implementation of the numbers of the engine, IEEE 754
    doubles among them, and for every list of at least one fix (the
    chronologically sorted lists of two fixes or more among them): the
    average speed of the summary is the arithmetic mean of the
    instantaneous speeds, pair distance over elapsed hours, of exactly the
    consecutive pairs whose elapsed time is positive, and 0 when there is
    no such pair; the distance is the sum of the pair distances and the
    time the sum of the elapsed hours, added up in the order of the fixes;
    each of the three is returned to two decimal places, as
    [Math.round(x * 100) / 100]. *)
Theorem averageSpeed_is_mean_of_speeds :
  forall (userId : string) (dateRange : Route.DateRange)
         (first : LocationData) (rest : list LocationData),
    let fixes := first :: rest in
    let pairs := Route.consecutivePairs fixes in
    let stats := computeStats userId dateRange fixes in
    averageSpeed stats = toTwoPlaces (arithmeticMean (collectedSpeeds fixes)) /\
    totalDistance stats = toTwoPlaces (total (List.map pairDistance pairs)) /\
    totalTime stats = toTwoPlaces (total (List.map elapsedHours pairs)) /\
    locationsRecorded stats = length fixes.
Proof.
  intros userId dateRange first rest fixes pairs stats.
  unfold stats, computeStats, fixes. rewrite statsLoop_sums. cbn [List.app].
  cbn [averageSpeed totalDistance totalTime locationsRecorded].
  repeat split.
  unfold arithmeticMean.
  by destruct (collectedSpeeds (first :: rest)).
Qed.

End Figures.

(** Over the rationals the figures are those of [Route.computeStats]: the
    two embeddings are the same program. *)

Section Rationals.
Context `{JSRuntime}.
Local Open Scope Q_scope.

Lemma Qlt_bool_comp a b a' b' : a == a' -> b == b' -> Qlt_bool a b = Qlt_bool a' b'.
Proof.
  intros Ha Hb. unfold Qlt_bool. f_equal.
  apply eq_true_iff_eq. rewrite !Qle_bool_iff. by rewrite Ha, Hb.
Qed.

Lemma calculateDistance_rational a b :
  @Numeric.calculateDistance rationalNumbers a b = Route.calculateDistance a b.
Proof. reflexivity. Qed.

Lemma timeDiffHours_rational a b :
  @Numeric.timeDiffHours rationalNumbers a b == Route.timeDiffHours a b.
Proof.
  unfold Numeric.timeDiffHours, Route.timeDiffHours, Numeric.getTime, Route.getTime.
  cbn. unfold Zminus. rewrite inject_Z_plus, inject_Z_opp. reflexivity.
Qed.

Lemma statsLoop_rational previous rest :
  forall (d t : Q) (speeds : list Q) (d' t' : @Numeric.number rationalNumbers)
         (speeds' : list (@Numeric.number rationalNumbers)),
    d == d' -> t == t' -> Forall2 Qeq speeds speeds' ->
    let '(a, b, c) := Route.statsLoop previous rest d t speeds in
    let '(a', b', c') := @Numeric.statsLoop rationalNumbers previous rest d' t' speeds' in
    a == a' /\ b == b' /\ Forall2 Qeq c c'.
Proof.
  revert previous.
  induction rest as [|current rest IH]; intros previous d t speeds d' t' speeds' Hd Ht Hs.
  - done.
  - cbn [Route.statsLoop Numeric.statsLoop].
    rewrite calculateDistance_rational.
    pose proof (timeDiffHours_rational previous current) as Htd.
    apply IH.
    + cbn. by rewrite Hd.
    + cbn. by rewrite Ht, Htd.
    + change (Numeric.gt ?x (Numeric.int 0)) with (Qlt_bool 0 x).
      rewrite (Qlt_bool_comp 0 _ 0 _ (Qeq_refl 0) Htd).
      destruct (Qlt_bool 0 (Route.timeDiffHours previous current)); [|done].
      apply Forall2_app; [done|]. constructor; [|constructor].
      cbn. by rewrite Htd.
Qed.

Lemma fold_left_Qplus_comp l l' :
  Forall2 Qeq l l' -> forall a a', a == a' ->
  fold_left Qplus l a == fold_left Qplus l' a'.
Proof.
  induction 1 as [|x y l l' Hxy Hl IH]; intros a a' Ha; [done|].
  simpl. apply IH. by rewrite Ha, Hxy.
Qed.

Lemma computeStats_rational userId dateRange fixes :
  Route.totalDistance (Route.computeStats userId dateRange fixes)
  = Numeric.totalDistance (@Numeric.computeStats rationalNumbers userId dateRange fixes) /\
  Route.totalTime (Route.computeStats userId dateRange fixes)
  = Numeric.totalTime (@Numeric.computeStats rationalNumbers userId dateRange fixes) /\
  Route.averageSpeed (Route.computeStats userId dateRange fixes)
  = Numeric.averageSpeed (@Numeric.computeStats rationalNumbers userId dateRange fixes) /\
  Route.locationsRecorded (Route.computeStats userId dateRange fixes)
  = Numeric.locationsRecorded (@Numeric.computeStats rationalNumbers userId dateRange fixes).
Proof.
  destruct fixes as [|first rest]; [done|].
  unfold Route.computeStats, Numeric.computeStats.
  pose proof (statsLoop_rational first rest 0 0 []
                (Numeric.int 0) (Numeric.int 0) []
                (Qeq_refl 0) (Qeq_refl 0) (List.Forall2_nil _)) as Hloop.
  revert Hloop.
  destruct (Route.statsLoop first rest 0 0 []) as [[d t] speeds].
  destruct (Numeric.statsLoop first rest (Numeric.int 0) (Numeric.int 0) [])
    as [[d' t'] speeds'].
  intros (Hd & Ht & Hs). cbn -[Route.round2 Numeric.round2].
  pose proof (Forall2_length _ _ _ Hs) as Hlen.
  repeat split.
  - by apply round2_comp.
  - by apply round2_comp.
  - apply round2_comp. rewrite <- Hlen.
    destruct (length speeds); [reflexivity|].
    unfold Route.sumSpeeds, Numeric.sumSpeeds.
    change (Numeric.int 0) with 0. change Numeric.add with Qplus.
    by rewrite (fold_left_Qplus_comp _ _ Hs 0 0 (Qeq_refl 0)).
Qed.
End Rationals.

(** On doubles, half way round the equator in 20 hours and back in 3: the
    two pairs have positive elapsed time, their speeds are those of half
    the equator in 20 hours and in 3, and the average speed is 3836.22
    km/h, their mean, where total distance over total time rounds to
    1740.44. *)
Lemma averageSpeed_is_not_the_overall_ratio :
  length (@Numeric.collectedSpeeds Binary64.numbers Binary64.roundTrip) = 2%nat /\
  Numeric.averageSpeed
    (@Numeric.computeStats Binary64.numbers "1" Sample.wholeDay Binary64.roundTrip)
  = Binary64.literal (383622 # 100) /\
  @Numeric.toTwoPlaces Binary64.numbers
    (@Numeric.overallRatio Binary64.numbers Binary64.roundTrip)
  = Binary64.literal (174044 # 100).
Proof. repeat split; vm_compute; reflexivity. Qed.

(** On doubles an hour and 18 seconds is 1.0049999999999999 hours and is
    returned as 1; over the rationals it is 1.005 and rounds to 1.01. The
    figures of the rational embedding are those of the program up to such
    roundings. *)
Lemma totalTime_of_an_hour_and_18_seconds :
  Numeric.totalTime
    (@Numeric.computeStats Binary64.numbers "1" Sample.wholeDay Binary64.hourAnd18)
  = Binary64.literal 1 /\
  (Route.totalTime
     (@Route.computeStats Sample.runtime "1" Sample.wholeDay Binary64.hourAnd18)
   == 101 # 100)%Q.
Proof. split; vm_compute; reflexivity. Qed.

(** * Zero and non-negative summaries *)

Section Summaries.
Context `{JSRuntime}.
Import Route.

Local Open Scope Q_scope.

Lemma insertByTime_chronological x l :
  chronological l -> chronological (insertByTime x l).
Proof.
  unfold chronological. induction l as [|y l IH]; intros Hl; simpl.
  - by repeat constructor.
  - destruct (Z.leb_spec (getTime x) (getTime y)) as [Hle|Hgt].
    + constructor; [done|]. by constructor.
    + apply Sorted_inv in Hl as [Hl Hy]. constructor; [by apply IH|].
      destruct l as [|z l]; simpl.
      * constructor. lia.
      * destruct (Z.leb_spec (getTime x) (getTime z)); constructor; [lia|].
        by apply HdRel_inv in Hy.
Qed.

(** The fixes that [PATCH] summarizes are in chronological order. *)
Lemma selectLocations_chronological userId startDate endDate locationData :
  chronological (selectLocations userId startDate endDate locationData).
Proof.
  unfold selectLocations.
  induction (List.filter _ (List.filter _ locationData)) as [|x l IH]; simpl.
  - constructor.
  - by apply insertByTime_chronological.
Qed.





Section Nonnegative.
Hypothesis Math_sqrt_nonneg : forall x, 0 <= Math_sqrt x.
Hypothesis Math_atan2_nonneg : forall y x, 0 <= y -> 0 <= Math_atan2 y x.





End Nonnegative.



End Summaries.


(** C4 on the sample zone, restricted to Mondays from 09:00 to 17:00: at
    10:30 on a Monday the schedule entry is active and the time is within
    its bounds, so access is authorized. *)
Lemma authorization_window_witness :
  ((10 < 24)%nat /\ (30 < 60)%nat) /\
  restricted Sample.square = Some Sample.weekdays /\
  isAuthorizedAccess Sample.monday10 Sample.square = true.
Proof.
  assert (10 < 24)%nat as Hh by lia. assert (30 < 60)%nat as Hm by lia.
  split; [by split|]. split; [reflexivity|].
  destruct (authorization_window Mon 10 30 Sample.square Hh Hm) as [_ Hrestricted].
  destruct (Hrestricted Sample.weekdays eq_refl) as [_ Hday].
  destruct (Hday {| ds_start := "09:00"; ds_end := "17:00"; ds_active := true |}
              eq_refl) as [_ Hiff].
  apply (Hiff 540%nat 1020%nat); try reflexivity.
  split; [reflexivity|]. lia.
Defined.

(** C4 as first stated fails where a bound is written without its leading
    zero: the schedule opens at 9:00 and closes at 17:00 on Mondays, it is
    10:30 on a Monday, and access is refused, because the code compares
    the texts and ["10:30"] comes before ["9:00"]. *)
Lemma authorization_window_counterexample :
  ~ (forall day opening closing,
       wh_schedule Cases.unpaddedHours !! "mon" = Some day ->
       timeOfDay (ds_start day) = Some opening ->
       timeOfDay (ds_end day) = Some closing ->
       (isAuthorizedAccess Sample.monday10 Cases.unpaddedSquare = true <->
        ds_active day = true /\ (opening <= 10 * 60 + 30 <= closing)%nat)).
Proof.
  intros Hclaim.
  destruct (Hclaim {| ds_start := "9:00"; ds_end := "17:00"; ds_active := true |}
              540%nat 1020%nat eq_refl eq_refl eq_refl) as [_ Hback].
  assert (isAuthorizedAccess Sample.monday10 Cases.unpaddedSquare = true) as Hyes.
  { apply Hback. split; [reflexivity|]. lia. }
  vm_compute in Hyes. discriminate Hyes.
Qed.

(** C7 on the sample service: the square is deleted while the subject is
    in it; no zone and no entry of that id is left, and the entries of
    another id are what they were. *)
Lemma deleteGeofence_purges_witness :
  "zone-2" <> "zone-1" /\
  zoneIds (snd (deleteGeofence "zone-1" true Sample.occupiedService)) = [] /\
  entriesFor "zone-1" "1" (snd (deleteGeofence "zone-1" true Sample.occupiedService))
  = [] /\
  entriesFor "zone-2" "1" (snd (deleteGeofence "zone-1" true Sample.occupiedService))
  = entriesFor "zone-2" "1" Sample.occupiedService.
Proof.
  assert ("zone-2" <> "zone-1") as Hne by discriminate.
  destruct (@deleteGeofence_purges Sample.runtime "zone-1" Sample.occupiedService)
    as (_ & _ & _ & Hgone & _ & Hother & _).
  split; [exact Hne|]. split; [reflexivity|].
  split; [apply Hgone|]. apply (Hother "1" "zone-2" Hne).
Defined.

(** C7 as first stated fails on the last-exit record: the subject entered
    the square and left it, the square is deleted, and the presence state
    of the subject still names the square as the zone last left. *)
Lemma deleteGeofence_purges_counterexample :
  ~ (forall userId st,
       userStatus Cases.afterDeletion !! userId = Some st ->
       ~ refersTo "zone-1" st).
Proof.
  intros Hclaim.
  apply (Hclaim "1"
           {| st_userId := "1";
              currentGeofences := [];
              lastGeofenceExit :=
                Some {| le_geofenceId := "zone-1";
                        le_exitTime := "1970-01-01T00:02:05Z";
                        le_duration := 2 |} |}).
  - by vm_compute.
  - right. reflexivity.
Qed.

(** * Geometry of the zones *)

Section Geometry.
Context `{JSRuntime}.

Lemma Qle_bool_false a b : Qle_bool a b = false <-> (b < a)%Q.
Proof.
  rewrite <- not_true_iff_false, Qle_bool_iff. split.
  - apply Qnot_le_lt.
  - apply Qlt_not_le.
Qed.

Lemma Qlt_bool_iff a b : Qlt_bool a b = true <-> (a < b)%Q.
Proof. unfold Qlt_bool. rewrite negb_true_iff. apply Qle_bool_false. Qed.

Lemma Qgt_bool_iff a b : Qgt_bool a b = true <-> (b < a)%Q.
Proof. unfold Qgt_bool. rewrite negb_true_iff. apply Qle_bool_false. Qed.

(** An edge along a meridian: the ray is cut when the latitude lies
    between the ends, the lower one included, and the point is to the
    west. *)
Lemma crosses_meridian x y lat1 lat2 lon :
  crosses x y {| pt_latitude := lat1; pt_longitude := lon |}
              {| pt_latitude := lat2; pt_longitude := lon |}
  = negb (Bool.eqb (Qgt_bool lat1 y) (Qgt_bool lat2 y)) && Qlt_bool x lon.
Proof.
  unfold crosses; simpl. f_equal. unfold Qlt_bool. f_equal.
  apply Qleb_comp; [|reflexivity]. unfold Qdiv. ring.
Qed.

(** An edge along a parallel never cuts the ray. *)
Lemma crosses_parallel x y lat lon1 lon2 :
  crosses x y {| pt_latitude := lat; pt_longitude := lon1 |}
              {| pt_latitude := lat; pt_longitude := lon2 |} = false.
Proof. unfold crosses; simpl. by rewrite Bool.eqb_reflx. Qed.

(** A rectangle contains the points of the half-open box: the south and
    west sides belong to it, the north and east sides do not. *)
Theorem rectangle_contains :
  forall south north west east lat lon : Q,
    (south < north)%Q -> (west < east)%Q ->
    (isPointInPolygon lat lon (rectangle south north west east) = true <->
     (south <= lat)%Q /\ (lat < north)%Q /\ (west <= lon)%Q /\ (lon < east)%Q).
Proof.
  intros south north west east lat lon Hsn Hwe.
  unfold isPointInPolygon, rectangle. cbn [last rayCast].
  rewrite (crosses_meridian lon lat south north west).
  rewrite (crosses_parallel lon lat south east west).
  rewrite (crosses_meridian lon lat north south east).
  rewrite (crosses_parallel lon lat north west east).
  unfold Qgt_bool, Qlt_bool.
  destruct (Qle_bool south lat) eqn:E1; destruct (Qle_bool north lat) eqn:E2;
    destruct (Qle_bool west lon) eqn:E3; destruct (Qle_bool east lon) eqn:E4;
    try apply Qle_bool_iff in E1; try apply Qle_bool_iff in E2;
    try apply Qle_bool_iff in E3; try apply Qle_bool_iff in E4;
    try apply Qle_bool_false in E1; try apply Qle_bool_false in E2;
    try apply Qle_bool_false in E3; try apply Qle_bool_false in E4;
    simpl; (split; [first [discriminate | intros _; lra] | first [reflexivity | lra]]).
Qed.

Lemma rayCast_xorb x y pj ps b :
  rayCast x y pj ps b = xorb b (rayCast x y pj ps false).
Proof.
  revert pj b. induction ps as [|pi ps IH]; intros pj b; simpl.
  - by destruct b.
  - destruct (crosses x y pi pj); simpl; [|apply IH].
    rewrite (IH pi (negb b)), (IH pi true).
    by destruct b, (rayCast x y pi ps false).
Qed.

Lemma rayCast_snoc x y pj ps p b :
  rayCast x y pj (ps ++ [p]) b
  = xorb (rayCast x y pj ps b) (crosses x y p (default pj (last ps))).
Proof.
  revert pj b. induction ps as [|pi ps IH]; intros pj b; simpl.
  - by destruct (crosses x y p pj), b.
  - rewrite IH. f_equal. f_equal.
    destruct ps as [|pi' ps]; [done|]. rewrite last_cons_cons.
    destruct (last (pi' :: ps)) eqn:E; [done|]. by apply last_None in E.
Qed.

Lemma isPointInPolygon_rotate1 lat lon p ps :
  isPointInPolygon lat lon (ps ++ [p]) = isPointInPolygon lat lon (p :: ps).
Proof.
  destruct ps as [|q ps]; [done|].
  unfold isPointInPolygon. rewrite last_snoc.
  rewrite rayCast_snoc.
  assert (exists z, last (p :: q :: ps) = Some z /\ last (q :: ps) = Some z)
    as (z & -> & ->).
  { rewrite last_cons_cons. destruct (last (q :: ps)) eqn:E; [by eexists|].
    by apply last_None in E. }
  simpl default.
  change (rayCast lon lat z (p :: q :: ps) false)
    with (rayCast lon lat p (q :: ps)
            (if crosses lon lat p z then negb false else false)).
  rewrite (rayCast_xorb lon lat p (q :: ps) (if crosses lon lat p z then _ else _)).
  by destruct (crosses lon lat p z), (rayCast lon lat p (q :: ps) false).
Qed.

(** The ray casting does not depend on the vertex the polygon starts
    with: turning the list of vertices round keeps the answer. *)
Theorem isPointInPolygon_rotation :
  forall (lat lon : Q) (front back : list Point),
    isPointInPolygon lat lon (back ++ front) = isPointInPolygon lat lon (front ++ back).
Proof.
  intros lat lon front. induction front as [|p front IH]; intros back.
  - by rewrite List.app_nil_r.
  - rewrite (List.app_assoc back [p] front : back ++ p :: front = (back ++ [p]) ++ front).
    rewrite IH. rewrite List.app_assoc. apply isPointInPolygon_rotate1.
Qed.

(** Zones that contain nothing: a circle without a radius, a polygon of
    fewer than two vertices, a shape that is neither. *)
Lemma isLocationInsideGeofence_degenerate location g :
  (gf_shape g = circle /\ is_Some (center (gf_coordinates g)) /\ gf_radius g = None) \/
  (gf_shape g = polygon /\
   exists ps, points (gf_coordinates g) = Some ps /\ (length ps <= 1)%nat) \/
  gf_shape g = ShapeOther ->
  isLocationInsideGeofence location g = Normal false.
Proof.
  unfold isLocationInsideGeofence.
  intros [(-> & [c ->] & ->)|[(-> & ps & -> & Hlen)| ->]]; [done| |done].
  destruct ps as [|p [|q ps]]; [done| |simpl in Hlen; lia].
  change (isPointInPolygon (loc_latitude location) (loc_longitude location) [p])
    with (if crosses (loc_longitude location) (loc_latitude location) p p
          then negb false else false).
  unfold crosses. by rewrite Bool.eqb_reflx.
Qed.

End Geometry.

(** * One evaluation, seen from a client *)

Section Evaluation.
Context `{JSRuntime}.

Lemma checkGeofenceEntry_activeGeofences now genId location userId s :
  activeGeofences (snd (checkGeofenceEntry now genId location userId s))
  = activeGeofences s.
Proof.
  unfold checkGeofenceEntry.
  by destruct (forGeofences now genId location userId (activeGeofences s) []
                 (default (freshStatus userId) (userStatus s !! userId)))
    as [[events|e] st'].
Qed.

(** An evaluation for one subject leaves the cache of zones and the
    presence state of every other subject as they were, whether it
    completes or throws. *)
Theorem checkGeofenceEntry_frame :
  forall now genId location userId (s : GeofenceService),
    activeGeofences (snd (checkGeofenceEntry now genId location userId s))
    = activeGeofences s /\
    forall other,
      other <> userId ->
      userStatus (snd (checkGeofenceEntry now genId location userId s)) !! other
      = userStatus s !! other.
Proof.
  intros now genId location userId s. unfold checkGeofenceEntry.
  destruct (forGeofences now genId location userId (activeGeofences s) []
              (default (freshStatus userId) (userStatus s !! userId)))
    as [[events|e] st']; simpl.
  - split; [done|]. intros other Hne. by rewrite lookup_insert_ne.
  - split; [done|]. intros other Hne.
    destruct (userStatus s !! userId); [by rewrite lookup_insert_ne|done].
Qed.

(** When the evaluation throws for a subject the service has never seen,
    nothing is kept: the service is as before. *)
Theorem checkGeofenceEntry_throw_unknown_subject :
  forall now genId location userId (s : GeofenceService) e,
    userStatus s !! userId = None ->
    fst (checkGeofenceEntry now genId location userId s) = Throw e ->
    snd (checkGeofenceEntry now genId location userId s) = s.
Proof.
  intros now genId location userId s e Hnone. unfold checkGeofenceEntry.
  rewrite Hnone.
  destruct (forGeofences now genId location userId (activeGeofences s) []
              (default (freshStatus userId) None)) as [[events|e'] st']; simpl; [done|].
  intros _. by destruct s.
Qed.

(** When a zone that cannot be tested follows a zone that the known
    subject has just entered, the evaluation throws, the ENTER event is
    not handed over, and the entry is recorded all the same. *)
Theorem checkGeofenceEntry_throw_keeps_entry :
  forall now genId location userId (s : GeofenceService) st entered broken rest e,
    activeGeofences s = entered :: broken :: rest ->
    userStatus s !! userId = Some st ->
    hasGeofence (gf_id entered) st = false ->
    isLocationInsideGeofence location entered = Normal true ->
    isLocationInsideGeofence location broken = Throw e ->
    checkGeofenceEntry now genId location userId s
    = (Throw e,
       {| activeGeofences := activeGeofences s;
          userStatus := <[userId := pushed now location entered st]> (userStatus s) |}).
Proof.
  intros now genId location userId s st entered broken rest e Hgs Hst Hout Hin Hbad.
  unfold checkGeofenceEntry. rewrite Hgs, Hst; simpl. rewrite Hin.
  rewrite (diffGeofence_enter _ _ _ _ _ _ _ Hout). by rewrite Hbad.
Qed.

(** A turn settles the presence in its own zone. *)
Lemma Turn_settles now genId location userId g b events st events' st' :
  Turn now genId location userId g b events st events' st' ->
  hasGeofence (gf_id g) st' = b.
Proof.
  intros HT. destruct HT as [-> _| -> _| ->]; [| |done].
  - apply hasGeofence_pushed.
  - apply hasGeofence_left.
Qed.

Lemma forGeofences_settles now genId location userId inside gs :
  NoDup (List.map gf_id gs) -> answers location inside gs ->
  forall events st,
    exists events' st',
      forGeofences now genId location userId gs events st = (Normal events', st') /\
      (forall g, In g gs -> hasGeofence (gf_id g) st' = inside g) /\
      (forall id, ~ In id (List.map gf_id gs) ->
                  entriesOf id (currentGeofences st')
                  = entriesOf id (currentGeofences st)).
Proof.
  induction gs as [|g gs IH]; intros Hnd Hans events st.
  - exists events, st. by repeat split.
  - simpl in Hnd. apply NoDup_cons in Hnd as [Hg Hnd].
    apply Forall_cons in Hans as [Hin Hans].
    simpl. rewrite Hin.
    pose proof (diffGeofence_Turn now genId location userId g (inside g) events st)
      as HT.
    destruct (diffGeofence now genId location userId g (inside g) events st)
      as [events1 st1]. simpl in HT.
    destruct (IH Hnd Hans events1 st1) as (events' & st' & Hrun & Hall & Hother).
    exists events', st'. split; [done|]. split.
    + intros g0 [<-|Hg0]; [|by apply Hall].
      assert (~ In (gf_id g) (List.map gf_id gs)) as Hg'.
      { intros Hin'. apply Hg. by apply list_elem_of_In. }
      destruct (hasGeofence_same_entries (gf_id g) st1 st' (Hother _ Hg')) as [-> _].
      by eapply Turn_settles.
    + intros id Hid. rewrite Hother; [|intros Hin'; apply Hid; by right].
      eapply Turn_other_entries; [|exact HT]. intros Heq. apply Hid. by left.
Qed.

Lemma checkGeofenceEntry_settles now genId location userId s inside :
  NoDup (zoneIds s) ->
  answers location inside (activeGeofences s) ->
  (exists events,
      fst (checkGeofenceEntry now genId location userId s) = Normal events) /\
  forall g,
    In g (activeGeofences s) ->
    hasGeofence (gf_id g)
      (statusOf userId (snd (checkGeofenceEntry now genId location userId s)))
    = inside g.
Proof.
  intros Hnd Hans.
  destruct (forGeofences_settles now genId location userId inside _ Hnd Hans []
              (statusOf userId s)) as (events & st' & Hrun & Hall & _).
  unfold checkGeofenceEntry. fold (statusOf userId s). rewrite Hrun; simpl.
  split; [by exists events|]. intros g Hg.
  rewrite statusOf_insert. by apply Hall.
Qed.

(** After an evaluation over zones with distinct ids that can all be
    tested, the subject is recorded in a cached zone exactly when the zone
    contains the fix. *)
Theorem presence_reflects_containment :
  forall now genId location userId (s : GeofenceService) inside,
    NoDup (zoneIds s) ->
    answers location inside (activeGeofences s) ->
    (exists events,
        fst (checkGeofenceEntry now genId location userId s) = Normal events) /\
    forall g,
      In g (activeGeofences s) ->
      hasGeofence (gf_id g)
        (statusOf userId (snd (checkGeofenceEntry now genId location userId s)))
      = inside g.
Proof. intros. by apply checkGeofenceEntry_settles. Qed.

Lemma forGeofences_nothing_new now genId location userId inside gs events st :
  answers location inside gs ->
  (forall g, In g gs -> hasGeofence (gf_id g) st = inside g) ->
  forGeofences now genId location userId gs events st = (Normal events, st).
Proof.
  induction gs as [|g gs IH]; intros Hans Hall; [done|].
  apply Forall_cons in Hans as [Hin Hans]. simpl. rewrite Hin.
  rewrite <- (Hall g) by (by left). rewrite diffGeofence_stay.
  apply IH; [done|]. intros g0 Hg0. apply Hall. by right.
Qed.

(** Evaluating the same fix again, at any later time, emits no event and
    leaves the service as the first evaluation left it. *)
Theorem checkGeofenceEntry_idempotent :
  forall now genId now' genId' location userId (s : GeofenceService) inside,
    NoDup (zoneIds s) ->
    answers location inside (activeGeofences s) ->
    checkGeofenceEntry now' genId' location userId
      (snd (checkGeofenceEntry now genId location userId s))
    = (Normal [], snd (checkGeofenceEntry now genId location userId s)).
Proof.
  intros now genId now' genId' location userId s inside Hnd Hans.
  destruct (checkGeofenceEntry_settles now genId location userId s inside Hnd Hans)
    as [_ Hall].
  pose proof (checkGeofenceEntry_activeGeofences now genId location userId s) as Hgs.
  set (s1 := snd (checkGeofenceEntry now genId location userId s)) in *.
  assert (is_Some (userStatus s1 !! userId)) as [st1 Hst1].
  { unfold s1, checkGeofenceEntry.
    destruct (forGeofences_settles now genId location userId inside _ Hnd Hans []
                (default (freshStatus userId) (userStatus s !! userId)))
      as (events & st' & Hrun & _). rewrite Hrun; simpl.
    rewrite lookup_insert_eq. by eexists. }
  unfold checkGeofenceEntry at 1. rewrite Hst1; simpl.
  rewrite (forGeofences_nothing_new now' genId' location userId inside
             (activeGeofences s1) [] st1).
  - f_equal. rewrite insert_id by done. by destruct s1.
  - by rewrite Hgs.
  - intros g Hg. rewrite Hgs in Hg. specialize (Hall g Hg).
    unfold statusOf in Hall. by rewrite Hst1 in Hall.
Qed.

(** The loop over the cache appends its events in the order of the cache. *)
Lemma forGeofences_order now genId location userId gs :
  forall events st events' st',
    forGeofences now genId location userId gs events st = (Normal events', st') ->
    exists new,
      events' = events ++ new /\
      List.map ev_geofenceId new `sublist_of` List.map gf_id gs.
Proof.
  induction gs as [|g gs IH]; intros events st events' st' Hrun; simpl in Hrun.
  - inversion Hrun; subst. exists []. by rewrite List.app_nil_r.
  - destruct (isLocationInsideGeofence location g) as [b|]; [|done].
    pose proof (diffGeofence_Turn now genId location userId g b events st) as HT.
    destruct (diffGeofence now genId location userId g b events st) as [events1 st1].
    simpl in HT. destruct (IH _ _ _ _ Hrun) as (new & -> & Hsub).
    destruct HT.
    + eexists. split; [by rewrite <- List.app_assoc|]. simpl. by apply sublist_skip.
    + eexists. split; [by rewrite <- List.app_assoc|]. simpl. by apply sublist_skip.
    + exists new. split; [done|]. simpl. by apply sublist_cons.
Qed.

(** The events of an evaluation follow the order of the cache, with at
    most one event for each cached zone: their zone ids are a sublist of
    the cached ids, so there are never more events than cached zones. *)
Theorem events_follow_cache_order :
  forall now genId location userId (s : GeofenceService),
    List.map ev_geofenceId
      (emitted (fst (checkGeofenceEntry now genId location userId s)))
      `sublist_of` zoneIds s /\
    (length (emitted (fst (checkGeofenceEntry now genId location userId s)))
     <= length (activeGeofences s))%nat.
Proof.
  intros now genId location userId s.
  assert (List.map ev_geofenceId
            (emitted (fst (checkGeofenceEntry now genId location userId s)))
            `sublist_of` zoneIds s) as Hsub.
  { unfold checkGeofenceEntry.
    destruct (forGeofences now genId location userId (activeGeofences s) []
                (default (freshStatus userId) (userStatus s !! userId)))
      as [[events|e] st'] eqn:Hrun; simpl; [|apply sublist_nil_l].
    destruct (forGeofences_order _ _ _ _ _ _ _ _ _ Hrun) as (new & -> & Hsub).
    exact Hsub. }
  split; [exact Hsub|].
  apply sublist_length in Hsub. unfold zoneIds in Hsub.
  by rewrite !List.length_map in Hsub.
Qed.

Lemma lastExitAfter_app before events1 events2 :
  lastExitAfter before (events1 ++ events2)
  = lastExitAfter (lastExitAfter before events1) events2.
Proof. unfold lastExitAfter. apply List.fold_left_app. Qed.

Lemma forGeofences_lastExit now genId location userId gs :
  forall events st events' st',
    forGeofences now genId location userId gs events st = (Normal events', st') ->
    exists new,
      events' = events ++ new /\
      lastGeofenceExit st' = lastExitAfter (lastGeofenceExit st) new.
Proof.
  induction gs as [|g gs IH]; intros events st events' st' Hrun; simpl in Hrun.
  - inversion Hrun; subst. exists []. by rewrite List.app_nil_r.
  - destruct (isLocationInsideGeofence location g) as [b|]; [|done].
    pose proof (diffGeofence_Turn now genId location userId g b events st) as HT.
    destruct (diffGeofence now genId location userId g b events st) as [events1 st1].
    simpl in HT. destruct (IH _ _ _ _ Hrun) as (new & -> & Hlast).
    destruct HT.
    + eexists. split; [by rewrite <- List.app_assoc|]. by rewrite Hlast.
    + eexists. split; [by rewrite <- List.app_assoc|]. by rewrite Hlast.
    + by exists new.
Qed.

(** The last-exit record of the subject after a completed evaluation is
    that of the last EXIT event handed over, zone, time and duration; it
    is the former record when no EXIT is handed over. *)
Theorem lastGeofenceExit_tracks_events :
  forall now genId location userId (s : GeofenceService) events,
    fst (checkGeofenceEntry now genId location userId s) = Normal events ->
    lastGeofenceExit
      (statusOf userId (snd (checkGeofenceEntry now genId location userId s)))
    = lastExitAfter (lastGeofenceExit (statusOf userId s)) events.
Proof.
  intros now genId location userId s events. unfold checkGeofenceEntry.
  fold (statusOf userId s).
  destruct (forGeofences now genId location userId (activeGeofences s) []
              (statusOf userId s)) as [[events0|e] st'] eqn:Hrun; simpl; [|done].
  intros [= ->]. rewrite statusOf_insert.
  destruct (forGeofences_lastExit _ _ _ _ _ _ _ _ _ Hrun) as (new & Heq & Hlast).
  simpl in Heq. by subst new.
Qed.

End Evaluation.

(** * The cache of zones *)

Section Registry.
Context `{JSRuntime}.

Lemma Forall_list_insert {A} (P : A -> Prop) i x (l : list A) :
  Forall P l -> P x -> Forall P (<[i := x]> l).
Proof.
  revert i. induction l as [|a l IH]; intros i Hl Hx; [done|].
  apply Forall_cons in Hl as [Ha Hl].
  destruct i as [|i]; simpl; apply Forall_cons; split; auto.
Qed.

Lemma Forall_list_delete {A} (P : A -> Prop) i (l : list A) :
  Forall P l -> Forall P (delete i l).
Proof.
  revert i. induction l as [|a l IH]; intros i Hl; [done|].
  apply Forall_cons in Hl as [Ha Hl].
  destruct i as [|i]; simpl; [done|]. apply Forall_cons. split; auto.
Qed.

Lemma exec_cacheActive op s : cacheActive s -> cacheActive (snd (exec op s)).
Proof.
  unfold cacheActive. intros Hs.
  destruct op as [r|r|id r|id ok|now genId location userId]; simpl.
  - destruct r as [gs|]; simpl; [|done].
    apply List.Forall_forall. intros g Hg. by apply List.filter_In in Hg as [_ Hg].
  - destruct r as [g|]; simpl; [|done]. destruct (gf_isActive g) eqn:Hg; [|done].
    simpl. apply Forall_app. split; [done|]. by apply Forall_singleton.
  - destruct r as [g|]; simpl; [|done].
    destruct (findIndex id (activeGeofences s)) as [index|],
             (gf_isActive g) eqn:Hg; simpl; try done.
    + by apply Forall_list_insert.
    + by apply Forall_list_delete.
    + apply Forall_app. split; [done|]. by apply Forall_singleton.
  - destruct ok; simpl; [|done].
    apply List.Forall_forall. intros g Hg. apply List.filter_In in Hg as [Hg _].
    rewrite List.Forall_forall in Hs. by apply Hs.
  - pose proof (checkGeofenceEntry_activeGeofences now genId location userId s) as Hgs.
    destruct (checkGeofenceEntry now genId location userId s) as [c s']; simpl in *.
    by rewrite Hgs.
Qed.

(** Whatever the server answers, the cache of a service holds active zones
    only: an inactive zone is never tested against a fix. *)
Theorem cache_holds_active_zones :
  forall ops : list Op, cacheActive (snd (run ops newGeofenceService)).
Proof.
  intros ops.
  assert (forall s, cacheActive s -> cacheActive (snd (run ops s))) as Hgen.
  { induction ops as [|op ops IH]; intros s Hs; simpl; [done|].
    pose proof (exec_cacheActive op s Hs) as Hop.
    destruct (exec op s) as [events s1]; simpl in Hop.
    specialize (IH s1 Hop). by destruct (run ops s1). }
  apply Hgen. apply Forall_nil_2.
Qed.

Lemma find_zone_insert id id' g gs index :
  findIndex id gs = Some index -> gf_id g = id ->
  List.find (fun z => String.eqb (gf_id z) id') (<[index := g]> gs)
  = if String.eqb id id' then Some g
    else List.find (fun z => String.eqb (gf_id z) id') gs.
Proof.
  revert index. induction gs as [|g0 gs IH]; intros index; [done|].
  rewrite findIndex_cons. case_decide as Hid.
  - intros [= <-] Hg; simpl. rewrite Hg, Hid.
    by destruct (String.eqb id id').
  - destruct (findIndex id gs) as [i|] eqn:Hi; [|done].
    intros [= <-] Hg; simpl.
    destruct (String.eqb (gf_id g0) id') eqn:E0.
    + apply String.eqb_eq in E0. subst id'.
      assert (String.eqb id (gf_id g0) = false) as ->; [|done].
      apply String.eqb_neq. congruence.
    + by apply IH.
Qed.

Lemma find_zone_snoc id id' g gs :
  findIndex id gs = None -> gf_id g = id ->
  List.find (fun z => String.eqb (gf_id z) id') (gs ++ [g])
  = if String.eqb id id' then Some g
    else List.find (fun z => String.eqb (gf_id z) id') gs.
Proof.
  intros Hnone Hg. apply findIndex_None in Hnone.
  induction gs as [|g0 gs IH]; simpl.
  - rewrite Hg. by destruct (String.eqb id id').
  - destruct (String.eqb (gf_id g0) id') eqn:E0.
    + apply String.eqb_eq in E0. subst id'.
      assert (String.eqb id (gf_id g0) = false) as ->; [|done].
      apply String.eqb_neq. intros ->. apply Hnone. by left.
    + apply IH. intros Hin. apply Hnone. by right.
Qed.

(** After [updateGeofence] is answered with an active zone of the id that
    was asked for, looking that id up in the cache gives the zone of the
    answer, and every other id gives what it gave before. *)
Theorem updateGeofence_then_lookup :
  forall (id : string) (updated : Geofence) (s : GeofenceService),
    gf_isActive updated = true ->
    gf_id updated = id ->
    cachedZone id (snd (updateGeofence id (Some updated) s)) = Some updated /\
    forall id', id' <> id ->
      cachedZone id' (snd (updateGeofence id (Some updated) s)) = cachedZone id' s.
Proof.
  intros id updated s Hact Hid.
  assert (forall id',
             cachedZone id' (snd (updateGeofence id (Some updated) s))
             = if String.eqb id id' then Some updated else cachedZone id' s) as Hlook.
  { intros id'. unfold cachedZone, updateGeofence; simpl. rewrite Hact.
    destruct (findIndex id (activeGeofences s)) as [index|] eqn:Hfind; simpl.
    - by apply find_zone_insert.
    - by apply find_zone_snoc. }
  split.
  - by rewrite Hlook, String.eqb_refl.
  - intros id' Hne. rewrite Hlook.
    assert (String.eqb id id' = false) as ->; [|done].
    apply String.eqb_neq. congruence.
Qed.

Lemma filter_filter_comm {A} (p q : A -> bool) (l : list A) :
  List.filter p (List.filter q l) = List.filter q (List.filter p l).
Proof.
  induction l as [|a l IH]; [done|]. simpl.
  destruct (p a) eqn:Hp, (q a) eqn:Hq; simpl; rewrite ?Hp, ?Hq, IH; done.
Qed.

Lemma filter_filter_same {A} (p : A -> bool) (l : list A) :
  List.filter p (List.filter p l) = List.filter p l.
Proof.
  induction l as [|a l IH]; [done|]. simpl.
  destruct (p a) eqn:Hp; simpl; rewrite ?Hp, IH; done.
Qed.

Lemma purgeGeofence_comm id1 id2 st :
  purgeGeofence id1 (purgeGeofence id2 st) = purgeGeofence id2 (purgeGeofence id1 st).
Proof. unfold purgeGeofence; simpl. f_equal. apply filter_filter_comm. Qed.

(** Deletions commute, and deleting a zone twice is deleting it once. *)
Theorem deleteGeofence_composes :
  forall (id1 id2 : string) (s : GeofenceService),
    snd (deleteGeofence id1 true (snd (deleteGeofence id2 true s)))
    = snd (deleteGeofence id2 true (snd (deleteGeofence id1 true s))) /\
    snd (deleteGeofence id1 true (snd (deleteGeofence id1 true s)))
    = snd (deleteGeofence id1 true s).
Proof.
  intros id1 id2 s. unfold deleteGeofence; simpl. split; f_equal.
  - apply filter_filter_comm.
  - rewrite <- !map_fmap_compose. apply map_fmap_ext.
    intros u st _. apply purgeGeofence_comm.
  - apply filter_filter_same.
  - rewrite <- map_fmap_compose. apply map_fmap_ext.
    intros u st _. unfold purgeGeofence; simpl. f_equal. apply filter_filter_same.
Qed.

End Registry.

(** * Histories and statistics *)

Section Histories.
Context `{JSRuntime}.
Import Route.

Local Open Scope Q_scope.

Lemma insertByTime_Permutation x l : Permutation (insertByTime x l) (x :: l).
Proof.
  induction l as [|y l IH]; simpl; [done|].
  destruct (getTime x <=? getTime y)%Z; [done|].
  rewrite IH. apply perm_swap.
Qed.

Lemma sortByTime_Permutation l : Permutation (sortByTime l) l.
Proof.
  induction l as [|x l IH]; simpl; [done|].
  rewrite insertByTime_Permutation. by constructor.
Qed.

Lemma filter_filter_andb {A} (p q : A -> bool) (l : list A) :
  List.filter q (List.filter p l) = List.filter (fun x => p x && q x) l.
Proof.
  induction l as [|a l IH]; [done|]. simpl.
  destruct (p a); simpl; [|done]. destruct (q a); by rewrite IH.
Qed.

(** The fixes that [PUT] and [PATCH] work on are the records of the
    subject within the range, each once, oldest first. *)
Theorem selectLocations_sorts_the_selection :
  forall (userId : string) (startDate endDate : Z) (locationData : list LocationData),
    chronological (selectLocations userId startDate endDate locationData) /\
    Permutation (selectLocations userId startDate endDate locationData)
      (List.filter (selected userId startDate endDate) locationData) /\
    forall dateRange,
      locationsRecorded
        (computeStats userId dateRange
           (selectLocations userId startDate endDate locationData))
      = length (List.filter (selected userId startDate endDate) locationData).
Proof.
  intros userId startDate endDate locationData.
  assert (Permutation (selectLocations userId startDate endDate locationData)
            (List.filter (selected userId startDate endDate) locationData)) as Hperm.
  { unfold selectLocations. rewrite sortByTime_Permutation.
    by rewrite filter_filter_andb. }
  split; [apply selectLocations_chronological|]. split; [exact Hperm|].
  intros dateRange. rewrite <- (Permutation_length Hperm).
  destruct (selectLocations userId startDate endDate locationData) as [|first rest];
    [done|].
  unfold computeStats. by destruct (statsLoop first rest 0 0 []) as [[d t] speeds].
Qed.

Lemma last_cons_default {A} (b : A) rest d :
  List.last (b :: rest) d = List.last rest b.
Proof.
  revert b d. induction rest as [|c rest IH]; intros b d; [done|].
  change (List.last (b :: c :: rest) d) with (List.last (c :: rest) d).
  by rewrite !IH.
Qed.

Lemma last_Some_default {A} (first : A) l :
  last (first :: l) = Some (List.last l first).
Proof.
  revert first. induction l as [|c l IH]; intros first; [done|].
  rewrite last_cons_cons, IH. by rewrite last_cons_default.
Qed.

Lemma last_default_In {A} (d : A) l : In (List.last l d) (d :: l).
Proof.
  revert d. induction l as [|c l IH]; intros d; [by left|].
  rewrite last_cons_default. right. apply IH.
Qed.

Lemma distanceLoop_pathLength previous rest d :
  distanceLoop previous rest d == d + pathLength (previous :: rest).
Proof.
  revert previous d. induction rest as [|current rest IH]; intros previous d.
  - unfold pathLength; simpl. ring.
  - cbn [distanceLoop]. rewrite IH.
    change (pathLength (previous :: current :: rest))
      with (calculateDistance previous current + pathLength (current :: rest)).
    ring.
Qed.

Lemma chronological_first_last first rest :
  chronological (first :: rest) ->
  (getTime first <= getTime (List.last rest first))%Z.
Proof.
  intros Hs. apply Sorted_StronglySorted in Hs; [|intros a b c; lia].
  apply StronglySorted_inv in Hs as [_ Hall].
  destruct (last_default_In first rest) as [<-|Hin]; [lia|].
  rewrite List.Forall_forall in Hall. by apply Hall.
Qed.

Lemma timeActiveMs_first_last first rest :
  timeActiveMs (first :: rest)
  = (getTime (List.last rest first) - getTime first)%Z.
Proof.
  unfold timeActiveMs. destruct rest as [|b rest]; [simpl; lia|].
  cbn [length Nat.ltb Nat.leb head]. by rewrite last_Some_default.
Qed.

(** [PUT] and [PATCH] turn down the same requests with the same message;
    on the others they summarize the same fixes: the history lists as many
    fixes as the statistics count, oldest first, with the same total
    distance, and its active time is the whole minutes from the first fix
    to the last, never negative. *)
Theorem PUT_agrees_with_PATCH :
  forall (body : StatsRequest) (locationData : list LocationData),
    (exists error,
        PUT body locationData = HistoryError 400 error /\
        PATCH body locationData = StatsError 400 error) \/
    (exists history stats,
        PUT body locationData = HistoryOk history /\
        PATCH body locationData = StatsOk stats /\
        lh_totalDistance history == totalDistance stats /\
        length (lh_locations history) = locationsRecorded stats /\
        chronological (lh_locations history) /\
        (0 <= lh_timeActive history)%Z /\
        lh_timeActive history
        = match lh_locations history with
          | [] => 0%Z
          | first :: rest =>
              ((getTime (List.last rest first) - getTime first) `div` 60000)%Z
          end).
Proof.
  intros body locationData. unfold PUT, PATCH.
  destruct (sr_userId body) as [userId|]; [|left; by eexists].
  destruct (sr_dateRange body) as [dateRange|]; [|left; by eexists].
  destruct (String.eqb userId "" || notString (dr_start dateRange)
            || notString (dr_end dateRange)); [left; by eexists|].
  right.
  pose proof (selectLocations_chronological userId
                (Date_getTime (default ""%string (dr_start dateRange)))
                (Date_getTime (default ""%string (dr_end dateRange))) locationData)
    as Hsorted.
  destruct (selectLocations userId _ _ locationData) as [|first rest].
  - do 2 eexists. split; [done|]. split; [done|]. by repeat split.
  - do 2 eexists. split; [done|]. split; [done|].
    destruct (computeStats_figures userId dateRange first rest) as (Hd & _ & _).
    split; [|split; [|split; [done|]]].
    + rewrite Hd. unfold computeHistory; simpl.
      rewrite (round2_comp _ (pathLength (first :: rest))); [reflexivity|].
      rewrite distanceLoop_pathLength. ring.
    + unfold computeStats.
      by destruct (statsLoop first rest 0 0 []) as [[d t] speeds].
    + unfold computeHistory; cbn [lh_timeActive lh_locations].
      rewrite Qfloor_minutes, timeActiveMs_first_last.
      split; [|done]. apply Z.div_pos; [|done].
      pose proof (chronological_first_last first rest Hsorted). lia.
Qed.

End Histories.

(** * The three haversines *)

Section Distances.
Context `{JSRuntime}.

Local Open Scope Q_scope.

(** The location service and the location API measure the same way: in
    kilometres the service returns the distance of the API rounded to two
    decimals, and in metres that distance times 1000 rounded to two
    decimals. Both sides apply the same operations in the same order. *)
Theorem distances_agree :
  forall location1 location2 : LocationData,
    LocationService.dc_distance
      (LocationService.calculateDistance location1 location2 LocationService.kilometers)
    = Route.round2 (Route.calculateDistance location1 location2) /\
    LocationService.dc_distance
      (LocationService.calculateDistance location1 location2 LocationService.meters)
    = Route.round2 (Route.calculateDistance location1 location2 * 1000).
Proof. intros location1 location2. split; reflexivity. Qed.

End Distances.

(** * The store of the location API *)

Section Store.
Context `{JSRuntime}.
Import Route.

Lemma filter_ofDemoUser_others l :
  List.filter ofDemoUser (List.filter (fun x => negb (ofDemoUser x)) l) = [].
Proof.
  induction l as [|a l IH]; [done|]. simpl.
  destruct (ofDemoUser a) eqn:E; simpl; [done|]. by rewrite E.
Qed.

Lemma filter_others_ofDemoUser l :
  List.filter (fun x => negb (ofDemoUser x)) (List.filter ofDemoUser l) = [].
Proof.
  induction l as [|a l IH]; [done|]. simpl.
  destruct (ofDemoUser a) eqn:E; simpl; [|done]. by rewrite E.
Qed.

Lemma filter_all {A} (p : A -> bool) l :
  Forall (fun x => p x = true) l -> List.filter p l = l.
Proof.
  induction 1 as [|a l Ha Hl IH]; [done|]. simpl. by rewrite Ha, IH.
Qed.

Lemma filter_none {A} (p : A -> bool) l :
  Forall (fun x => p x = true) l -> List.filter (fun x => negb (p x)) l = [].
Proof.
  induction 1 as [|a l Ha Hl IH]; [done|]. simpl. by rewrite Ha.
Qed.

Lemma Forall_sliceLast {A} (P : A -> Prop) n (l : list A) :
  Forall P l -> Forall P (sliceLast n l).
Proof. intros Hl. unfold sliceLast. by apply Forall_drop. Qed.

Lemma sliceLast_all {A} n (l : list A) : (length l <= n)%nat -> sliceLast n l = l.
Proof.
  intros Hlen. unfold sliceLast.
  replace (length l - n)%nat with 0%nat by lia. done.
Qed.

Lemma sliceLast_snoc {A} n (l : list A) x :
  (1 <= n)%nat -> sliceLast n (l ++ [x]) = sliceLast (n - 1) l ++ [x].
Proof.
  intros Hn. unfold sliceLast. rewrite length_app; simpl.
  rewrite drop_app_le by lia. f_equal. f_equal. lia.
Qed.

Lemma Forall_filter_true {A} (p : A -> bool) l :
  Forall (fun x => p x = true) (List.filter p l).
Proof.
  apply List.Forall_forall. intros x Hx. by apply List.filter_In in Hx as [_ Hx].
Qed.

Lemma last_after_trim (record : LocationData) locationData :
  ofDemoUser record = true ->
  last (if (1000 <? length (List.filter ofDemoUser (locationData ++ [record])))%nat
        then List.filter (fun l => negb (ofDemoUser l)) (locationData ++ [record])
             ++ sliceLast 1000 (List.filter ofDemoUser (locationData ++ [record]))
        else locationData ++ [record])
  = Some record.
Proof.
  intros Huser. destruct (1000 <? _)%nat; [|by rewrite last_snoc].
  rewrite (List.filter_app ofDemoUser). simpl. rewrite Huser.
  rewrite sliceLast_snoc by lia. by rewrite List.app_assoc, last_snoc.
Qed.

(** The record that [POST] builds from a request. *)
Lemma POST_accepted newId body locationData :
  LocationService.postOk (fst (POST newId body locationData)) = true ->
  exists record,
    loc_id record = newId /\ ofDemoUser record = true /\
    snd (POST newId body locationData)
    = (let locationData1 := locationData ++ [record] in
       if (1000 <? length (List.filter ofDemoUser locationData1))%nat
       then List.filter (fun l => negb (ofDemoUser l)) locationData1
            ++ sliceLast 1000 (List.filter ofDemoUser locationData1)
       else locationData1).
Proof.
  unfold POST.
  destruct (notNumber (req_latitude body) || notNumber (req_longitude body)
            || notString (req_timestamp body)); [done|].
  intros _. eexists. split; [|split]; [| |reflexivity]; done.
Qed.

(** After an update is accepted the store holds at most 1000 records of
    the demo user, the newest 1000 with the new record last; the records
    of every other user are all there, in their order. *)
Theorem POST_keeps_the_last_thousand :
  forall (newId : string) (body : LocationUpdateRequest)
         (locationData : list LocationData),
    LocationService.postOk (fst (POST newId body locationData)) = true ->
    exists record,
      loc_id record = newId /\
      last (snd (POST newId body locationData)) = Some record /\
      List.filter ofDemoUser (snd (POST newId body locationData))
      = sliceLast 1000 (List.filter ofDemoUser locationData ++ [record]) /\
      (length (List.filter ofDemoUser (snd (POST newId body locationData))) <= 1000)%nat /\
      List.filter (fun l => negb (ofDemoUser l)) (snd (POST newId body locationData))
      = List.filter (fun l => negb (ofDemoUser l)) locationData.
Proof.
  intros newId body locationData Hok.
  destruct (POST_accepted newId body locationData Hok) as (record & Hid & Huser & ->).
  exists record. split; [done|]. cbv zeta.
  rewrite !List.filter_app. simpl. rewrite Huser. simpl.
  set (mine := List.filter ofDemoUser locationData).
  set (others := List.filter (fun l => negb (ofDemoUser l)) locationData).
  assert (Forall (fun x => ofDemoUser x = true) (mine ++ [record])) as Hmine.
  { apply Forall_app. split; [apply Forall_filter_true|by apply Forall_singleton]. }
  destruct (Nat.ltb_spec 1000 (length (mine ++ [record]))) as [Hlong|Hshort].
  - rewrite List.app_nil_r. split; [|split; [|split]].
    + rewrite sliceLast_snoc by lia. by rewrite List.app_assoc, last_snoc.
    + rewrite List.filter_app. unfold others. rewrite filter_ofDemoUser_others.
      simpl. apply filter_all. by apply Forall_sliceLast.
    + rewrite List.filter_app. unfold others. rewrite filter_ofDemoUser_others.
      simpl. rewrite filter_all by (by apply Forall_sliceLast).
      unfold sliceLast. rewrite length_drop. lia.
    + rewrite List.filter_app.
      rewrite (filter_none ofDemoUser (sliceLast 1000 (mine ++ [record])))
        by (by apply Forall_sliceLast).
      rewrite List.app_nil_r. unfold others. apply filter_filter_same.
  - split; [by rewrite last_snoc|]. split; [|split].
    + rewrite List.filter_app. simpl. rewrite Huser. fold mine.
      by rewrite sliceLast_all.
    + rewrite List.filter_app. simpl. rewrite Huser. by fold mine.
    + rewrite List.filter_app. simpl. rewrite Huser. simpl. fold others.
      by rewrite List.app_nil_r.
Qed.

(** What the client sends: the request of a location is accepted exactly
    when its latitude and its longitude are not 0 and its timestamp is not
    empty; a location that is not accepted goes to the offline queue. *)
Theorem sendLocationUpdate_delivery :
  forall (newId : string) (location : LocationData) (locationData : list LocationData)
         (storage : option (list LocationData)),
    LocationService.postOk
      (fst (POST newId (LocationService.updateRequest location) locationData))
    = negb (Qeq_bool (loc_latitude location) 0)
      && negb (Qeq_bool (loc_longitude location) 0)
      && negb (String.eqb (loc_timestamp location) "") /\
    (LocationService.postOk
       (fst (POST newId (LocationService.updateRequest location) locationData)) = false ->
     snd (POST newId (LocationService.updateRequest location) locationData)
     = locationData /\
     LocationService.sendLocationUpdate
       (LocationService.postOk
          (fst (POST newId (LocationService.updateRequest location) locationData)))
       location storage
     = Some (default [] storage ++ [location])).
Proof.
  intros newId location locationData storage. unfold POST; simpl.
  destruct (Qeq_bool (loc_latitude location) 0),
           (Qeq_bool (loc_longitude location) 0),
           (String.eqb (loc_timestamp location) ""); simpl; by split.
Qed.

(** The record stored for a location that the client sent and the server
    accepted: the coordinates, the timestamp, the source, the speed, the
    heading and the altitude of the location, under the id the server drew
    and the demo user, whoever the location named; an accuracy of 0
    becomes 10, and the address is the two coordinates to four places. *)
Theorem POST_stores_the_location :
  forall (newId : string) (location : LocationData) (locationData : list LocationData),
    Qeq_bool (loc_latitude location) 0 = false ->
    Qeq_bool (loc_longitude location) 0 = false ->
    loc_timestamp location <> "" ->
    last (snd (POST newId (LocationService.updateRequest location) locationData))
    = Some {| loc_id := newId;
              loc_userId := "1";
              loc_latitude := loc_latitude location;
              loc_longitude := loc_longitude location;
              loc_accuracy :=
                if Qeq_bool (loc_accuracy location) 0 then 10%Q
                else loc_accuracy location;
              loc_timestamp := loc_timestamp location;
              loc_address :=
                Some (Number_toFixed4 (loc_latitude location) +:+ ", " +:+
                      Number_toFixed4 (loc_longitude location));
              loc_isManual := false;
              loc_source := loc_source location;
              loc_speed := loc_speed location;
              loc_heading := loc_heading location;
              loc_altitude := loc_altitude location |}.
Proof.
  intros newId location locationData Hlat Hlon Hts.
  unfold POST; simpl. apply String.eqb_neq in Hts. rewrite Hlat, Hlon, Hts; simpl.
  set (record := {| loc_id := newId |}).
  apply (last_after_trim record locationData). done.
Qed.

End Store.

(** * Queries *)

Section Queries.
Context `{JSRuntime}.
Import Route.

Lemma insertByTimeDesc_Permutation x l : Permutation (insertByTimeDesc x l) (x :: l).
Proof.
  induction l as [|y l IH]; simpl; [done|].
  destruct (getTime y <=? getTime x)%Z; [done|].
  rewrite IH. apply perm_swap.
Qed.

Lemma sortByTimeDesc_Permutation l : Permutation (sortByTimeDesc l) l.
Proof.
  induction l as [|x l IH]; simpl; [done|].
  rewrite insertByTimeDesc_Permutation. by constructor.
Qed.

Lemma insertByTimeDesc_newestFirst x l :
  newestFirst l -> newestFirst (insertByTimeDesc x l).
Proof.
  unfold newestFirst. induction l as [|y l IH]; intros Hl; simpl.
  - by repeat constructor.
  - destruct (Z.leb_spec (getTime y) (getTime x)) as [Hle|Hgt].
    + constructor; [done|]. by constructor.
    + apply Sorted_inv in Hl as [Hl Hy]. constructor; [by apply IH|].
      destruct l as [|z l]; simpl.
      * constructor. lia.
      * destruct (Z.leb_spec (getTime z) (getTime x)); constructor; [lia|].
        by apply HdRel_inv in Hy.
Qed.

Lemma sortByTimeDesc_newestFirst l : newestFirst (sortByTimeDesc l).
Proof.
  induction l as [|x l IH]; simpl; [constructor|].
  by apply insertByTimeDesc_newestFirst.
Qed.

Lemma newestFirst_take n l : newestFirst l -> newestFirst (take n l).
Proof.
  unfold newestFirst. revert n. induction l as [|a l IH]; intros n Hl.
  - by destruct n.
  - destruct n as [|n]; simpl; [constructor|].
    apply Sorted_inv in Hl as [Hl Ha]. constructor; [by apply IH|].
    destruct l as [|b l]; [by destruct n; constructor|].
    destruct n as [|n]; simpl; constructor. by apply HdRel_inv in Ha.
Qed.

Lemma newestFirst_withoutAddress l :
  newestFirst l -> newestFirst (List.map withoutAddress l).
Proof.
  unfold newestFirst. induction 1 as [|a l Hl IH Ha]; simpl; constructor; [done|].
  destruct Ha; simpl; constructor. done.
Qed.

Lemma filter_true {A} (l : list A) : List.filter (fun _ => true) l = l.
Proof. induction l as [|a l IH]; [done|]. simpl. by rewrite IH. Qed.

Lemma queried_filter qp locationData :
  untilDate (orUndefined (qp_endDate qp))
    (fromDate (orUndefined (qp_startDate qp))
       (byUser (orUndefined (qp_userId qp)) locationData))
  = List.filter (matchesQuery qp) locationData.
Proof.
  assert (forall o l,
             byUser o l
             = List.filter (fun x => match o with
                                     | Some u => String.eqb (loc_userId x) u
                                     | None => true
                                     end) l) as Huser.
  { intros [u|] l; [done|]. by rewrite filter_true. }
  assert (forall o l,
             fromDate o l
             = List.filter (fun x => match o with
                                     | Some d => (Date_getTime d <=? getTime x)%Z
                                     | None => true
                                     end) l) as Hfrom.
  { intros [d|] l; [done|]. by rewrite filter_true. }
  assert (forall o l,
             untilDate o l
             = List.filter (fun x => match o with
                                     | Some d => (getTime x <=? Date_getTime d)%Z
                                     | None => true
                                     end) l) as Huntil.
  { intros [d|] l; [done|]. by rewrite filter_true. }
  rewrite Huser, Hfrom, Huntil. rewrite !filter_filter_andb.
  apply List.filter_ext. intros a. unfold matchesQuery. by rewrite andb_assoc.
Qed.

(** The part of [GET] before the addresses are dropped. *)
Lemma GET_limited qp locationData :
  exists limited,
    limited = applyLimit (queryLimit qp)
                (sortByTimeDesc (List.filter (matchesQuery qp) locationData)) /\
    ((qp_includeAddress qp = Some "true" /\ fst (GET qp locationData) = limited) \/
     (qp_includeAddress qp <> Some "true" /\
      fst (GET qp locationData) = List.map withoutAddress limited)).
Proof.
  eexists. split; [reflexivity|]. unfold GET; simpl. rewrite queried_filter.
  destruct (qp_includeAddress qp) as [v|]; simpl.
  - destruct (String.eqb v "true") eqn:E; simpl.
    + left. apply String.eqb_eq in E. by subst.
    + right. split; [|done]. apply String.eqb_neq in E. congruence.
  - right. by split.
Qed.

Lemma applyLimit_sublist limit l : applyLimit limit l `sublist_of` l.
Proof.
  unfold applyLimit, sliceTo. destruct limit as [n|]; [|done].
  destruct (n =? 0)%Z; [done|]. destruct (0 <=? n)%Z; apply sublist_take.
Qed.

Lemma applyLimit_take limit l : exists k, applyLimit limit l = take k l.
Proof.
  unfold applyLimit, sliceTo. destruct limit as [n|].
  - destruct (n =? 0)%Z; [exists (length l); by rewrite firstn_all|].
    destruct (0 <=? n)%Z; by eexists.
  - exists (length l). by rewrite firstn_all.
Qed.

(** The answer of [GET]: its total counts its locations; they are newest
    first; each is a record of the store that the query asks for, its
    address dropped unless the query says [includeAddress=true]; and a
    positive limit, 100 when none is given, bounds their number. *)
Theorem GET_answers_the_query :
  forall (qp : QueryParams) (locationData : list LocationData),
    snd (GET qp locationData) = length (fst (GET qp locationData)) /\
    newestFirst (fst (GET qp locationData)) /\
    Forall (fun r =>
              exists l, In l locationData /\ matchesQuery qp l = true /\
                        (r = l \/ r = withoutAddress l))
      (fst (GET qp locationData)) /\
    (qp_includeAddress qp <> Some "true" ->
     Forall (fun r => loc_address r = None) (fst (GET qp locationData))) /\
    (forall n, queryLimit qp = Some n -> (0 < n)%Z ->
               (Z.of_nat (length (fst (GET qp locationData))) <= n)%Z) /\
    (qp_limit qp = None -> (length (fst (GET qp locationData)) <= 100)%nat).
Proof.
  intros qp locationData.
  destruct (GET_limited qp locationData) as (limited & Hlim & Hres).
  set (matching := List.filter (matchesQuery qp) locationData) in *.
  assert (newestFirst limited) as Hsorted.
  { destruct (applyLimit_take (queryLimit qp) (sortByTimeDesc matching)) as [k Hk].
    rewrite Hlim, Hk. apply newestFirst_take, sortByTimeDesc_newestFirst. }
  assert (Forall (fun l => In l locationData /\ matchesQuery qp l = true) limited)
    as Hfrom.
  { apply List.Forall_forall. intros l Hl.
    apply list_elem_of_In in Hl.
    pose proof (applyLimit_sublist (queryLimit qp) (sortByTimeDesc matching)) as Hsub.
    rewrite <- Hlim in Hsub. apply (sublist_submseteq _ _) in Hsub.
    eapply elem_of_submseteq in Hl; [|exact Hsub].
    rewrite (sortByTimeDesc_Permutation matching) in Hl.
    apply list_elem_of_In in Hl. by apply List.filter_In in Hl. }
  assert (forall n, queryLimit qp = Some n -> (0 < n)%Z ->
                    (Z.of_nat (length limited) <= n)%Z) as Hbound.
  { intros n Hn Hpos. rewrite Hlim, Hn. unfold applyLimit, sliceTo.
    destruct (Z.eqb_spec n 0); [lia|]. destruct (Z.leb_spec 0 n); [|lia].
    rewrite length_take. lia. }
  assert (length (fst (GET qp locationData)) = length limited) as Hlen.
  { destruct Hres as [[_ ->]|[_ ->]]; [done|]. by rewrite List.length_map. }
  split; [done|]. split; [|split; [|split; [|split]]].
  - destruct Hres as [[_ ->]|[_ ->]]; [done|]. by apply newestFirst_withoutAddress.
  - destruct Hres as [[_ ->]|[_ ->]].
    + eapply Forall_impl; [exact Hfrom|]. intros l [Hin Hm]. exists l. auto.
    + apply List.Forall_forall. intros r Hr.
      apply List.in_map_iff in Hr as (l & <- & Hl).
      rewrite List.Forall_forall in Hfrom. destruct (Hfrom l Hl) as [Hin Hm].
      exists l. auto.
  - intros Hno. destruct Hres as [[Hyes _]|[_ ->]]; [done|].
    + apply List.Forall_forall. intros r Hr.
      by apply List.in_map_iff in Hr as (l & <- & _).
  - intros n Hn Hpos. rewrite Hlen. by apply Hbound.
  - intros Hnone. rewrite Hlen.
    specialize (Hbound 100%Z). unfold queryLimit in Hbound. rewrite Hnone in Hbound.
    specialize (Hbound eq_refl). lia.
Qed.

Lemma GET_shown qp locationData :
  fst (GET qp locationData)
  = List.map (shown qp)
      (applyLimit (queryLimit qp)
         (sortByTimeDesc (List.filter (matchesQuery qp) locationData))).
Proof.
  destruct (GET_limited qp locationData) as (limited & -> & [[Hyes ->]|[Hno ->]]);
    unfold shown; destruct (decide (qp_includeAddress qp = Some "true")); try done.
  by rewrite List.map_id.
Qed.

Lemma newestFirst_shown qp l : newestFirst l -> newestFirst (List.map (shown qp) l).
Proof.
  unfold shown. destruct (decide (qp_includeAddress qp = Some "true")).
  - by rewrite List.map_id.
  - apply newestFirst_withoutAddress.
Qed.

(** A limit of 0, or one that is no number, is no limit: the answer holds
    the records that the query asks for, each as often as the store does
    and none besides. A negative limit [-n] leaves out [n] of those records
    (all of them when there are fewer), and the records left out are the
    oldest: the answer followed by them is still newest first. *)
Theorem GET_limit_edge_cases :
  forall (qp : QueryParams) (locationData : list LocationData),
    (queryLimit qp = Some 0%Z \/ queryLimit qp = None ->
     Permutation (fst (GET qp locationData))
       (List.map (shown qp) (List.filter (matchesQuery qp) locationData))) /\
    (forall n, queryLimit qp = Some n -> (n < 0)%Z ->
       exists dropped,
         length dropped
         = Nat.min (Z.to_nat (- n))
             (length (List.filter (matchesQuery qp) locationData)) /\
         Permutation (fst (GET qp locationData) ++ dropped)
           (List.map (shown qp) (List.filter (matchesQuery qp) locationData)) /\
         newestFirst (fst (GET qp locationData) ++ dropped)).
Proof.
  intros qp locationData. rewrite GET_shown.
  set (matching := List.filter (matchesQuery qp) locationData).
  pose proof (sortByTimeDesc_Permutation matching) as Hperm.
  pose proof (sortByTimeDesc_newestFirst matching) as Hsorted.
  split.
  - intros [Hq|Hq]; rewrite Hq; simpl; by apply Permutation_map.
  - intros n Hq Hneg. rewrite Hq. unfold applyLimit, sliceTo.
    destruct (Z.eqb_spec n 0); [lia|]. destruct (Z.leb_spec 0 n); [lia|].
    set (k := Z.to_nat (Z.of_nat (length (sortByTimeDesc matching)) + n)).
    exists (List.map (shown qp) (drop k (sortByTimeDesc matching))).
    rewrite <- List.map_app, take_drop. split; [|split].
    + rewrite List.length_map, length_drop. unfold k.
      rewrite (Permutation_length Hperm). lia.
    + by apply Permutation_map.
    + by apply newestFirst_shown.
Qed.

End Queries.

(** * Statuses and their subjects *)

Section Keys.
Context `{JSRuntime}.

Lemma forGeofences_st_userId now genId location userId gs events st c st' :
  forGeofences now genId location userId gs events st = (c, st') ->
  st_userId st' = st_userId st.
Proof.
  intros Hrun.
  destruct (forGeofences_invariant (fun _ st0 => st_userId st0 = st_userId st)
              now genId location userId gs) with (events := events) (st := st)
              (c := c) (st' := st') as (ev & Hres & _); [|done|done|done].
  intros g b ev0 s0 ev1 s1 _ Hs HT. by destruct HT.
Qed.

Lemma exec_statusKeyed op s : statusKeyed s -> statusKeyed (snd (exec op s)).
Proof.
  intros Hs. destruct op as [r|r|id r|id ok|now genId location userId]; simpl.
  - destruct r; simpl; done.
  - destruct r as [g|]; simpl; [|done]. destruct (gf_isActive g); done.
  - destruct r as [g|]; simpl; [|done].
    destruct (findIndex id (activeGeofences s)), (gf_isActive g); done.
  - destruct ok; simpl; [|done]. intros u st; simpl. rewrite lookup_fmap.
    destruct (userStatus s !! u) as [st0|] eqn:E; simpl; [|done].
    intros [= <-]. simpl. by apply Hs.
  - unfold checkGeofenceEntry.
    destruct (forGeofences now genId location userId (activeGeofences s) []
                (default (freshStatus userId) (userStatus s !! userId)))
      as [c st'] eqn:Hrun.
    apply forGeofences_st_userId in Hrun.
    assert (st_userId st' = userId) as Hkey.
    { rewrite Hrun. destruct (userStatus s !! userId) as [st0|] eqn:E; simpl; [|done].
      by apply Hs. }
    assert (statusKeyed
              {| activeGeofences := activeGeofences s;
                 userStatus := <[userId := st']> (userStatus s) |}) as Hins.
    { intros u st; simpl. rewrite lookup_insert.
      case_decide; [intros [= <-]; congruence|]. apply Hs. }
    destruct c as [events|e]; simpl; [exact Hins|].
    destruct (userStatus s !! userId); [exact Hins|]. intros u st; simpl. apply Hs.
Qed.

(** In every state of a service, whatever was called on it, the status
    filed under a subject names that subject. *)
Theorem statuses_name_their_subject :
  forall ops : list Op, statusKeyed (snd (run ops newGeofenceService)).
Proof.
  intros ops.
  assert (forall s, statusKeyed s -> statusKeyed (snd (run ops s))) as Hgen.
  { induction ops as [|op ops IH]; intros s Hs; simpl; [done|].
    pose proof (exec_statusKeyed op s Hs) as Hop.
    destruct (exec op s) as [events s1]; simpl in Hop.
    specialize (IH s1 Hop). by destruct (run ops s1). }
  apply Hgen. intros u st. unfold newGeofenceService; simpl. by rewrite lookup_empty.
Qed.

End Keys.

(** * The location service of the browser *)

Section Browser.
Context `{JSRuntime}.
Import LocationService.

(** Starting and stopping. Tracking starts once: a second start throws and
    changes nothing. Stopping clears the watch and the interval that the
    start registered, keeps the last fix, and leaves a service that does
    not report ACTIVE and that a further stop finds nothing to clear on. *)
Theorem tracking_starts_once_and_stops :
  forall (s : State) (watch interval : Z),
    isTracking s = false ->
    interval <> 0 ->
    fst (startTracking true watch interval s) = Normal tt /\
    (forall geolocation watch' interval',
        startTracking geolocation watch' interval'
          (snd (startTracking true watch interval s))
        = (Throw "Location tracking is already active",
           snd (startTracking true watch interval s))) /\
    stopTracking (snd (startTracking true watch interval s))
    = ([ClearWatch watch; ClearInterval interval],
       {| watchId := None; isTracking := false;
          lastKnownLocation := lastKnownLocation s; updateInterval := None |}) /\
    (forall supported now,
        getTrackingStatus supported now
          (snd (stopTracking (snd (startTracking true watch interval s))))
        <> ACTIVE) /\
    stopTracking (snd (stopTracking (snd (startTracking true watch interval s))))
    = ([], snd (stopTracking (snd (startTracking true watch interval s)))).
Proof.
  intros s watch interval Hidle Hint. unfold startTracking. rewrite Hidle; simpl.
  split; [done|]. split; [done|].
  assert ((interval =? 0)%Z = false) as Hz by (by apply Z.eqb_neq).
  unfold stopTracking; simpl. rewrite Hz; simpl. split; [done|]. split; [|done].
  intros supported now. unfold getTrackingStatus; simpl.
  destruct supported; simpl; [|done].
  destruct (lastKnownLocation s) as [l|]; [|done].
  by destruct (now - Date_getTime (loc_timestamp l) <? 300000)%Z.
Qed.

Lemma sendAll_requeues oks k locations queue :
  sendAll oks k locations (Some queue)
  = Some (queue ++ failedSends oks k locations).
Proof.
  revert k queue. induction locations as [|l locations IH]; intros k queue; simpl.
  - by rewrite List.app_nil_r.
  - unfold sendLocationUpdate. destruct (oks k).
    + apply IH.
    + unfold storeOfflineLocation; simpl. rewrite IH. by rewrite <- List.app_assoc.
Qed.

(** Synchronizing a queue that is not empty sends every location of it
    once, puts back behind the queue those whose send fails, and then
    removes the item: the queue is gone, the locations that failed with
    it, whatever the server answered. *)
Theorem syncOfflineLocations_empties_the_queue :
  forall (oks : nat -> bool) (queue : list LocationData),
    queue <> [] ->
    sendAll oks 0 queue (Some queue) = Some (queue ++ failedSends oks 0 queue) /\
    syncOfflineLocations oks (Some queue) = None.
Proof.
  intros oks queue Hne. split; [apply sendAll_requeues|].
  unfold syncOfflineLocations; simpl. by destruct queue.
Qed.

End Browser.

(** * What an event says *)

Section EventContents.
Context `{JSRuntime}.


(** A circle of the same centre and a larger radius contains every
    location that the smaller one contains. *)
Theorem circle_grows_with_radius :
  forall (location : LocationData) (small large : Geofence) (r r' : Q),
    gf_shape small = circle -> gf_shape large = circle ->
    center (gf_coordinates small) = center (gf_coordinates large) ->
    gf_radius small = Some r -> gf_radius large = Some r' ->
    (r <= r')%Q ->
    isLocationInsideGeofence location small = Normal true ->
    isLocationInsideGeofence location large = Normal true.
Proof.
  intros location small large r r' Hs Hl Hc Hr Hr' Hle.
  unfold isLocationInsideGeofence. rewrite Hs, Hl, Hc, Hr, Hr'.
  destruct (center (gf_coordinates large)) as [c|]; [|done].
  unfold isPointInCircle. intros [= Hin]. f_equal.
  apply Qle_bool_iff. apply Qle_bool_iff in Hin. by eapply Qle_trans.
Qed.

End EventContents.

(** * Logging in *)

Section Logins.
Variable base64Json : string -> Z -> Z -> string.
Variable toISOString : Z -> string.
Import Auth.

Lemma find_demo_user email :
  List.find (fun u => String.eqb (du_email u) email) DEMO_USERS
  = if String.eqb "admin@company.com" email then List.nth_error DEMO_USERS 0
    else if String.eqb "manager@company.com" email then List.nth_error DEMO_USERS 1
    else None.
Proof.
  unfold DEMO_USERS; simpl.
  by destruct (String.eqb "admin@company.com" email),
              (String.eqb "manager@company.com" email).
Qed.

(** A login succeeds exactly with one of the two pairs of email and
    password of the demo, and then the session is that of the user of the
    email, with the demo company and the permissions of the user's role.
    Without an email or a password the answer is 400; in every other case
    it is 401 with one message, whether the email is unknown or the
    password wrong; 403 is never answered. *)
Theorem login_decision :
  forall (clock : nat -> Z) (body : LoginRequest),
    match POST base64Json toISOString clock body with
    | LoginOk message user company cookie =>
        message = "Login successful" /\
        (exists email password,
            lr_email body = Some email /\ lr_password body = Some password /\
            In (email, password) demoCredentials /\ u_email user = email) /\
        u_isActive user = true /\
        se_user cookie = user /\
        company = DEMO_COMPANY /\ se_company cookie = DEMO_COMPANY /\
        se_permissions cookie = getPermissionsByRole (u_role user)
    | LoginError status error =>
        (status = 400 /\ error = "Email and password are required" /\
         (Route.notString (lr_email body) = true \/
          Route.notString (lr_password body) = true)) \/
        (status = 401 /\ error = "Invalid credentials" /\
         exists email password,
           lr_email body = Some email /\ lr_password body = Some password /\
           email <> "" /\ password <> "" /\
           ~ In (email, password) demoCredentials)
    end.
Proof.
  intros clock body. unfold POST.
  destruct (Route.notString (lr_email body) || Route.notString (lr_password body))
    eqn:Hmissing.
  { left. apply orb_true_iff in Hmissing. auto. }
  apply orb_false_iff in Hmissing as [He Hp].
  destruct (lr_email body) as [email|]; [|done].
  destruct (lr_password body) as [password|]; [|done].
  unfold Route.notString in He, Hp. apply String.eqb_neq in He, Hp.
  change (default "" (Some email)) with email.
  change (default "" (Some password)) with password.
  rewrite find_demo_user.
  destruct (String.eqb "admin@company.com" email) eqn:E1.
  { apply String.eqb_eq in E1. subst email. cbn [List.nth_error DEMO_USERS du_password].
    destruct (String.eqb "admin123" password) eqn:E2; cbn [negb].
    - apply String.eqb_eq in E2. subst password.
      split; [done|]. split; [|done]. do 2 eexists. repeat split. by left.
    - apply String.eqb_neq in E2. right. split; [done|]. split; [done|].
      do 2 eexists. repeat split; try done.
      intros [[= ?]|[[= ?]|[]]]. congruence. }
  destruct (String.eqb "manager@company.com" email) eqn:E3.
  { apply String.eqb_eq in E3. subst email. cbn [List.nth_error DEMO_USERS du_password].
    destruct (String.eqb "manager123" password) eqn:E2; cbn [negb].
    - apply String.eqb_eq in E2. subst password.
      split; [done|]. split; [|done]. do 2 eexists. repeat split. right. by left.
    - apply String.eqb_neq in E2. right. split; [done|]. split; [done|].
      do 2 eexists. repeat split; try done.
      intros [[= ?]|[[= ?]|[]]]. congruence. }
  apply String.eqb_neq in E1, E3. right. split; [done|]. split; [done|].
  do 2 eexists. repeat split; try done.
  intros [[= ? ?]|[[= ? ?]|[]]]; congruence.
Qed.

(** The permissions of every role begin with those of the base: the
    profile and the location. An administrator is granted each permission
    of a manager. *)
Theorem permissions_by_role :
  (forall role, exists more, getPermissionsByRole role = basePermissions ++ more) /\
  Forall (fun p => exists q, In q (getPermissionsByRole ADMIN) /\ grantsAll q p)
    (getPermissionsByRole MANAGER).
Proof.
  split.
  - intros []; [by eexists..|]. exists []. by rewrite List.app_nil_r.
  - assert (forall (q p : Permission),
               In q (getPermissionsByRole ADMIN) -> resource q = resource p ->
               (forall a, In a (actions p) -> In a (actions q)) ->
               exists q', In q' (getPermissionsByRole ADMIN) /\ grantsAll q' p) as Hgrant.
    { intros q p Hq Hr Ha. exists q. split; [done|]. split; [done|].
      by apply List.Forall_forall. }
    apply List.Forall_forall. intros p Hp. simpl in Hp.
    destruct Hp as [<-|[<-|[<-|[<-|[<-|[]]]]]].
    + apply (Hgrant {| resource := "profile"; actions := ["read"; "update"] |});
        simpl; tauto.
    + apply (Hgrant {| resource := "location"; actions := ["read"] |});
        simpl; tauto.
    + apply (Hgrant {| resource := "users";
                       actions := ["create"; "read"; "update"; "delete"] |});
        simpl; tauto.
    + apply (Hgrant {| resource := "geofences";
                       actions := ["create"; "read"; "update"; "delete"] |});
        simpl; tauto.
    + apply (Hgrant {| resource := "reports"; actions := ["read"; "export"] |});
        simpl; tauto.
Qed.

End Logins.

(** * Further worked examples *)

(** The square of the sample is the rectangle from 0 to 10 both ways; the
    point (5, 5) is in the box and in the polygon. *)
Lemma rectangle_contains_witness :
  ((0 < 10)%Q /\ (0 < 10)%Q) /\
  @isPointInPolygon 5 5 (rectangle 0 10 0 10) = true.
Proof.
  split; [by split|].
  apply (rectangle_contains 0 10 0 10 5 5); [done..|]. repeat split; done.
Defined.

(** A disc without a radius contains no fix, not even its centre. *)
Lemma isLocationInsideGeofence_degenerate_witness :
  gf_radius (Cases.disc "zone-4" None) = None /\
  Sample.inside Sample.fix1 (Cases.disc "zone-4" None) = Normal false.
Proof.
  split; [done|].
  apply (@isLocationInsideGeofence_degenerate Sample.runtime).
  left. split; [done|]. split; [by eexists|done].
Defined.

(** The broken circle alone, and a subject never seen: the evaluation
    throws and the service is what it was. *)
Lemma checkGeofenceEntry_throw_unknown_subject_witness :
  userStatus Cases.unknownService !! "1" = None /\
  fst (Sample.check Sample.fix1 "1" Cases.unknownService) = Throw "TypeError" /\
  snd (Sample.check Sample.fix1 "1" Cases.unknownService) = Cases.unknownService.
Proof.
  assert (fst (Sample.check Sample.fix1 "1" Cases.unknownService) = Throw "TypeError")
    as Hthrow by reflexivity.
  split; [done|]. split; [exact Hthrow|].
  by apply (@checkGeofenceEntry_throw_unknown_subject Sample.runtime Sample.monday10
              Sample.genId Sample.fix1 "1" Cases.unknownService "TypeError").
Defined.

(** The square, then the broken circle, and a known subject in the
    square: no event comes out, and the subject is recorded in the
    square. *)
Lemma checkGeofenceEntry_throw_keeps_entry_witness :
  fst (Sample.check Sample.fix1 "1" Cases.knownService) = Throw "TypeError" /\
  hasGeofence "zone-1"
    (statusOf "1" (snd (Sample.check Sample.fix1 "1" Cases.knownService))) = true.
Proof.
  pose proof (@checkGeofenceEntry_throw_keeps_entry Sample.runtime Sample.monday10
                Sample.genId Sample.fix1 "1" Cases.knownService (freshStatus "1")
                Sample.square Cases.broken [] "TypeError"
                eq_refl eq_refl eq_refl
                ltac:(vm_compute; reflexivity) ltac:(vm_compute; reflexivity)) as Hw.
  unfold Sample.check. rewrite Hw. split; [done|]. by vm_compute.
Defined.

Lemma twoZones_answers :
  @answers Sample.runtime Cases.cornerFix Cases.insideTwoZones
    (activeGeofences Cases.twoZones).
Proof.
  repeat (apply Forall_cons; split); [by vm_compute..|apply Forall_nil_2].
Qed.

Lemma twoZones_NoDup : NoDup (zoneIds Cases.twoZones).
Proof.
  apply NoDup_cons. split; [|apply NoDup_singleton].
  intros Hin. apply list_elem_of_singleton in Hin. discriminate.
Qed.

(** The subject of the disc moves to the corner of the square: afterwards
    it is recorded in the square and not in the disc. *)
Lemma presence_reflects_containment_witness :
  hasGeofence "zone-1"
    (statusOf "7" (snd (Sample.check Cases.cornerFix "7" Cases.twoZones))) = true /\
  hasGeofence "zone-3"
    (statusOf "7" (snd (Sample.check Cases.cornerFix "7" Cases.twoZones))) = false.
Proof.
  destruct (@presence_reflects_containment Sample.runtime Sample.monday10 Sample.genId
              Cases.cornerFix "7" Cases.twoZones Cases.insideTwoZones
              twoZones_NoDup twoZones_answers) as [_ Hall].
  split.
  - apply (Hall Sample.square). by left.
  - apply (Hall (Cases.disc "zone-3" (Some 100%Q))). right. by left.
Defined.

(** The same fix once more: no event. *)
Lemma checkGeofenceEntry_idempotent_witness :
  fst (Sample.check Cases.cornerFix "7"
         (snd (Sample.check Cases.cornerFix "7" Cases.twoZones))) = Normal [].
Proof.
  unfold Sample.check.
  by rewrite (@checkGeofenceEntry_idempotent Sample.runtime Sample.monday10 Sample.genId
                Sample.monday10 Sample.genId Cases.cornerFix "7" Cases.twoZones
                Cases.insideTwoZones twoZones_NoDup twoZones_answers).
Defined.

(** The subject of the disc moves to the corner of the square: the record
    of the last exit is that of the disc, after one whole minute. *)
Lemma lastGeofenceExit_tracks_events_witness :
  lastGeofenceExit
    (statusOf "7" (snd (Sample.check Cases.cornerFix "7" Cases.twoZones)))
  = Some {| le_geofenceId := "zone-3";
            le_exitTime := "1970-01-01T00:01:00Z";
            le_duration := 1 |}.
Proof.
  unfold Sample.check.
  rewrite (@lastGeofenceExit_tracks_events Sample.runtime Sample.monday10 Sample.genId
             Cases.cornerFix "7" Cases.twoZones
             (emitted (fst (Sample.check Cases.cornerFix "7" Cases.twoZones))));
    by vm_compute.
Defined.

(** The square is renamed: the cache answers the id with the new zone. *)
Lemma updateGeofence_then_lookup_witness :
  cachedZone "zone-1"
    (snd (updateGeofence "zone-1" (Some Cases.renamedSquare) Cases.twoZones))
  = Some Cases.renamedSquare /\
  cachedZone "zone-3"
    (snd (updateGeofence "zone-1" (Some Cases.renamedSquare) Cases.twoZones))
  = cachedZone "zone-3" Cases.twoZones.
Proof.
  destruct (updateGeofence_then_lookup "zone-1" Cases.renamedSquare Cases.twoZones
              eq_refl eq_refl) as [Hnew Hother].
  split; [exact Hnew|]. apply Hother. discriminate.
Defined.

(** A larger disc of the same centre contains the fix of the smaller. *)
Lemma circle_grows_with_radius_witness :
  Sample.inside Sample.fix1 (Cases.disc "zone-3" (Some 100%Q)) = Normal true /\
  Sample.inside Sample.fix1 (Cases.disc "zone-5" (Some 250%Q)) = Normal true.
Proof.
  assert (Sample.inside Sample.fix1 (Cases.disc "zone-3" (Some 100%Q)) = Normal true)
    as Hsmall by (by vm_compute).
  split; [exact Hsmall|].
  apply (@circle_grows_with_radius Sample.runtime Sample.fix1
           (Cases.disc "zone-3" (Some 100%Q)) (Cases.disc "zone-5" (Some 250%Q))
           100%Q 250%Q); done.
Defined.

(** An update off the equator is accepted into the store of the sample:
    its record comes last, and the record of the other user stays. *)
Lemma POST_keeps_the_last_thousand_witness :
  exists record,
    loc_id record = "new" /\
    last (snd (@Route.POST Sample.runtime "new" Sample.quitoFix Cases.store))
    = Some record /\
    List.filter (fun l => negb (Route.ofDemoUser l))
      (snd (@Route.POST Sample.runtime "new" Sample.quitoFix Cases.store))
    = [Cases.otherRecord].
Proof.
  destruct (@POST_keeps_the_last_thousand Sample.runtime "new" Sample.quitoFix
              Cases.store eq_refl) as (record & Hid & Hlast & _ & _ & Hothers).
  exists record. split; [exact Hid|]. split; [exact Hlast|]. by rewrite Hothers.
Defined.

(** The corner fix, sent by the client and accepted, is stored under the
    demo user with the address "1.0000, 1.0000". *)
Lemma POST_stores_the_location_witness :
  exists record,
    last (snd (@Route.POST Sample.runtime "new"
                 (LocationService.updateRequest Cases.cornerFix) Cases.store))
    = Some record /\
    loc_userId record = "1" /\
    loc_timestamp record = "1970-01-01T00:01:00Z" /\
    loc_address record = Some "1.0000, 1.0000".
Proof.
  eexists. split.
  - apply (@POST_stores_the_location Sample.runtime "new" Cases.cornerFix Cases.store);
      [by vm_compute..|discriminate].
  - by vm_compute.
Defined.

(** A service that starts with watch 7 and interval 9 and stops clears
    the two. *)
Lemma tracking_starts_once_and_stops_witness :
  fst (LocationService.stopTracking
         (snd (LocationService.startTracking true 7 9 LocationService.initial)))
  = [LocationService.ClearWatch 7; LocationService.ClearInterval 9].
Proof.
  destruct (@tracking_starts_once_and_stops Sample.runtime LocationService.initial 7 9
              eq_refl ltac:(discriminate)) as (_ & _ & Hstop & _).
  by rewrite Hstop.
Defined.

(** Three locations wait; the server takes the first and the third. The
    second is put back behind the queue, and the queue is removed. *)
Lemma syncOfflineLocations_empties_the_queue_witness :
  LocationService.sendAll Cases.everyOther 0 Cases.queue (Some Cases.queue)
  = Some (Cases.queue ++ [Sample.fix2]) /\
  LocationService.syncOfflineLocations Cases.everyOther (Some Cases.queue) = None.
Proof.
  destruct (syncOfflineLocations_empties_the_queue Cases.everyOther Cases.queue
              ltac:(discriminate)) as [Hsend Hsync].
  split; [by rewrite Hsend|exact Hsync].
Defined.

(** A fix of subject 1 leaves the status of subject 7 as it was. *)
Lemma checkGeofenceEntry_frame_witness :
  "7" <> "1" /\
  userStatus (snd (Sample.check Sample.fix1 "1" Cases.twoZones)) !! "7"
  = userStatus Cases.twoZones !! "7".
Proof.
  assert ("7" <> "1") as Hne by discriminate.
  split; [exact Hne|].
  destruct (@checkGeofenceEntry_frame Sample.runtime Sample.monday10 Sample.genId
              Sample.fix1 "1" Cases.twoZones) as [_ Hother].
  by apply Hother.
Defined.

(** A fix on the equator is turned down by the server and joins the
    offline queue. *)
Lemma sendLocationUpdate_delivery_witness :
  LocationService.postOk
    (fst (@Route.POST Sample.runtime "new"
            (LocationService.updateRequest (Sample.fixAt 0 3 "1970-01-01T01:30:00Z"))
            Cases.store)) = false /\
  LocationService.sendLocationUpdate false (Sample.fixAt 0 3 "1970-01-01T01:30:00Z")
    (Some [Sample.fix1])
  = Some [Sample.fix1; Sample.fixAt 0 3 "1970-01-01T01:30:00Z"].
Proof.
  destruct (@sendLocationUpdate_delivery Sample.runtime "new"
              (Sample.fixAt 0 3 "1970-01-01T01:30:00Z") Cases.store
              (Some [Sample.fix1])) as [Hok Hqueue].
  assert (LocationService.postOk
            (fst (@Route.POST Sample.runtime "new"
                    (LocationService.updateRequest
                       (Sample.fixAt 0 3 "1970-01-01T01:30:00Z")) Cases.store))
          = false) as Hno by (rewrite Hok; by vm_compute).
  split; [exact Hno|]. destruct (Hqueue Hno) as [_ Hq]. rewrite Hno in Hq. exact Hq.
Defined.

(** The store of the sample asked for the records of user 1 up to 01:00,
    one at most: the answer is the record of 01:00, without address. *)
Lemma GET_answers_the_query_witness :
  List.map loc_timestamp
    (fst (@Route.GET Sample.runtime (Cases.query (Some (Some 1%Z))) Cases.store))
  = ["1970-01-01T01:00:00Z"] /\
  (length (fst (@Route.GET Sample.runtime (Cases.query (Some (Some 1%Z))) Cases.store))
   <= 1)%nat /\
  Forall (fun r => loc_address r = None)
    (fst (@Route.GET Sample.runtime (Cases.query (Some (Some 1%Z))) Cases.store)).
Proof.
  destruct (@GET_answers_the_query Sample.runtime (Cases.query (Some (Some 1%Z)))
              Cases.store) as (_ & _ & _ & Haddr & Hlimit & _).
  split; [by vm_compute|]. split.
  - specialize (Hlimit 1%Z eq_refl ltac:(lia)). lia.
  - apply Haddr. discriminate.
Defined.

(** The same query with a limit of 0 is answered with the two records up
    to 01:00, and with a limit of -1 one record is left out, no newer than
    the one of the answer. *)
Lemma GET_limit_edge_cases_witness :
  Permutation
    (List.map loc_timestamp
       (fst (@Route.GET Sample.runtime (Cases.query (Some (Some 0%Z))) Cases.store)))
    ["1970-01-01T00:00:00Z"; "1970-01-01T01:00:00Z"] /\
  exists dropped,
    length dropped = 1%nat /\
    @Route.newestFirst Sample.runtime
      (fst (@Route.GET Sample.runtime (Cases.query (Some (Some (-1)%Z))) Cases.store)
       ++ dropped).
Proof.
  split.
  - destruct (@GET_limit_edge_cases Sample.runtime (Cases.query (Some (Some 0%Z)))
                Cases.store) as [Hzero _].
    rewrite (Permutation_map loc_timestamp (Hzero (or_introl eq_refl))).
    by vm_compute.
  - destruct (@GET_limit_edge_cases Sample.runtime (Cases.query (Some (Some (-1)%Z)))
                Cases.store) as [_ Hneg].
    destruct (Hneg (-1)%Z eq_refl ltac:(lia)) as (dropped & Hlen & _ & Hsorted).
    exists dropped. split; [|exact Hsorted]. rewrite Hlen. by vm_compute.
Defined.
